(** * AI-Quiz (app.js): the quiz session state machine

    A shallow embedding of the session logic of [app.js]: the [state] object,
    question loading, the countdown timer, per-question timing, navigation,
    the four clues, the tab-visibility warnings, scoring and the attempt
    history kept in [localStorage].

    Conventions.
    - JavaScript numbers that hold counts, indices and millisecond clock
      readings are integers ([Z], [nat] for array indices that can only be
      produced by iteration).  Where the code leaves the integers, in
      [Math.round((correct/total)*100)], in the 0.2 weights of the smart
      guess and in [Math.floor(Math.random()*wrongIdxs.length)], the
      arithmetic is that of IEEE 754 binary64 as the Standard Library's
      [SpecFloat] defines it.
    - A string is the sequence of its code units.  Case conversion, [trim]
      and the character classes are those of JavaScript on code units below
      128; a property that rests on them is stated for such strings.
    - [Date.now()] and [Math.random()] are inputs: every function takes the
      clock readings and the random draws it consumes as arguments.
    - The DOM is reduced to what the logic reads back or what a property
      talks about: the active screen, the timer text, the clue output, the
      live [setInterval] timers and [localStorage].
    - [decodeHTML] goes through the browser's HTML parser; it is a parameter
      of the development.
    - The render functions ([renderOverview], [updateQuickPanel],
      [updateClueButtons], the report of [submitQuiz],
      [renderReportFromAttempt], [applyTheme]) are embedded as the data
      they put on the page: the interpolated texts and the classes, without
      the markup. *)

From Stdlib Require Import ZArith List String Ascii Bool Lia QArith Qround.
From Stdlib Require Import DecimalString Floats.SpecFloat Permutation.
From stdpp Require Import base gmap sets list strings sorting.
Import ListNotations.
Open Scope string_scope.
Open Scope Z_scope.

(** ** JavaScript building blocks *)

Module JS.

(** [Array.prototype.sort(cmp)] is a stable sort.  [before a b] is
    [cmp(a, b) < 0].  Both comparators of the program order by one numeric
    key, so the sorted array is determined by stability alone; insertion from
    the right is one way to compute it. *)
Section Sort.
Context {A : Type} (before : A -> A -> bool).

Fixpoint sort_insert (x : A) (l : list A) : list A :=
  match l with
  | [] => [x]
  | y :: l' => if before y x then y :: sort_insert x l' else x :: y :: l'
  end.

Definition sort (l : list A) : list A := foldr sort_insert [] l.
End Sort.

(** [arr.findIndex(p)]: the first index whose element satisfies [p], or -1. *)
Fixpoint findIndex {A : Type} (p : A -> bool) (l : list A) : Z :=
  match l with
  | [] => -1
  | x :: l' => if p x then 0 else
                 let r := findIndex p l' in if r <? 0 then -1 else r + 1
  end.

(** [arr.filter((_, i) => p i)]. *)
Definition filter_index {A : Type} (p : Z -> bool) (l : list A) : list A :=
  map snd (List.filter (fun '(i, _) => p i)
             (imap (fun i x => (Z.of_nat i, x)) l)).

(** [arr[i]] for a number [i]: [undefined] ([None]) outside the array. *)
Definition at_index {A : Type} (l : list A) (i : Z) : option A :=
  if i <? 0 then None else l !! Z.to_nat i.

(** *** Strings

    [toLowerCase], [toUpperCase] and [trim] are exact on code units below
    128 ([is_ascii]): there the letters are A-Z and a-z and the white space
    is the space and the code units 9 to 13.  Code units from 128 on are
    left as they are and count as neither letter nor white space, which is
    not what JavaScript does with all of them; the properties that rest on
    these functions are stated for strings of code units below 128. *)

Definition is_ascii (c : ascii) : bool := (nat_of_ascii c <? 128)%nat.

Definition in_range (lo hi c : ascii) : bool :=
  (nat_of_ascii lo <=? nat_of_ascii c)%nat && (nat_of_ascii c <=? nat_of_ascii hi)%nat.

Definition is_lower (c : ascii) : bool := in_range "a" "z" c.
Definition is_upper (c : ascii) : bool := in_range "A" "Z" c.
Definition is_digit (c : ascii) : bool := in_range "0" "9" c.
Definition is_space (c : ascii) : bool := Ascii.eqb c " ".

Definition lower_char (c : ascii) : ascii :=
  if is_upper c then ascii_of_nat (nat_of_ascii c + 32) else c.
Definition upper_char (c : ascii) : ascii :=
  if is_lower c then ascii_of_nat (nat_of_ascii c - 32) else c.

Fixpoint map_chars (f : ascii -> ascii) (s : string) : string :=
  match s with
  | EmptyString => EmptyString
  | String c s' => String (f c) (map_chars f s')
  end.

Fixpoint filter_chars (p : ascii -> bool) (s : string) : string :=
  match s with
  | EmptyString => EmptyString
  | String c s' => if p c then String c (filter_chars p s') else filter_chars p s'
  end.

Fixpoint all_chars (p : ascii -> bool) (s : string) : bool :=
  match s with
  | EmptyString => true
  | String c s' => p c && all_chars p s'
  end.

Definition toLowerCase : string -> string := map_chars lower_char.
Definition toUpperCase : string -> string := map_chars upper_char.

(** [s.replace(/[^a-z0-9 ]/g, ' ')] *)
Definition keep_lower_alnum_space (c : ascii) : bool :=
  is_lower c || is_digit c || is_space c.
Definition blank_others : string -> string :=
  map_chars (fun c => if keep_lower_alnum_space c then c else " "%char).

(** [s.replace(/[^a-zA-Z0-9]/g, '')] *)
Definition is_alnum (c : ascii) : bool := is_lower c || is_upper c || is_digit c.
Definition strip_non_alnum : string -> string := filter_chars is_alnum.

(** [s.split(' ')]: the pieces between single spaces, empty pieces kept. *)
Fixpoint split_space (s : string) : list string :=
  match s with
  | EmptyString => [EmptyString]
  | String c s' =>
      if is_space c then EmptyString :: split_space s'
      else match split_space s' with
           | w :: ws => String c w :: ws
           | [] => [String c EmptyString]
           end
  end.

(** [s.trim()] *)
Definition is_white (c : ascii) : bool :=
  is_space c || in_range "009" "013" c.
Fixpoint trim_start (s : string) : string :=
  match s with
  | String c s' => if is_white c then trim_start s' else s
  | EmptyString => EmptyString
  end.
Fixpoint trim_end (s : string) : string :=
  match s with
  | EmptyString => EmptyString
  | String c s' =>
      match trim_end s' with
      | EmptyString => if is_white c then EmptyString else String c EmptyString
      | t => String c t
      end
  end.
Definition trim (s : string) : string := trim_end (trim_start s).

(** [arr.join(sep)] *)
Fixpoint join (sep : string) (l : list string) : string :=
  match l with
  | [] => ""
  | [x] => x
  | x :: l' => x ++ sep ++ join sep l'
  end.

(** [n.toString()] for a non-negative integer and [s.padStart(2, '0')]. *)
Definition toString (n : Z) : string := NilEmpty.string_of_uint (N.to_uint (Z.to_N n)).
Definition padStart2 (s : string) : string :=
  match String.length s with
  | O => "00"
  | S O => "0" ++ s
  | _ => s
  end.

(** [n.toString()] for any integer: a negative one carries its sign. *)
Definition toString_int (n : Z) : string :=
  if n <? 0 then "-" ++ toString (- n) else toString n.

Definition dquote : string := String "034"%char EmptyString.

(** *** Numbers outside the integers: IEEE 754 binary64 *)

Definition prec : Z := 53.
Definition emax : Z := 1024.
Definition double := spec_float.

(** An integer below 2^53 as a double (exact). *)
Definition of_int (z : Z) : double := binary_normalize prec emax z 0 false.
Definition fdiv : double -> double -> double := SFdiv prec emax.
Definition fmul : double -> double -> double := SFmul prec emax.
Definition fadd : double -> double -> double := SFadd prec emax.
Definition fgt (x y : double) : bool := SFltb y x.

(** The double that a draw of [Math.random()] is, given as a fraction: the
    quotient of numerator and denominator in doubles.  A multiple [n/2^53]
    of [2^-53] below 1, which is what the engines return, is given exactly
    by [n # 2^53]. *)
Definition of_Q (q : Q) : double := fdiv (of_int (Qnum q)) (of_int (Z.pos (Qden q))).

(** *** Values, as far as objects are written to and read from storage *)

#[local] Set Warnings "-register-all".

Inductive value :=
| VUndefined
| VNull
| VNaN
| VInfinity (negative : bool)
| VNum (z : Z)
| VStr (s : string)
| VArr (elems : list value)
| VObj (props : list (string * value)).

(** [Math.round(x)]: the integer nearest to [x], halves towards +infinity;
    computed exactly from mantissa and exponent. *)
Definition Math_round (x : double) : value :=
  match x with
  | S754_zero _ => VNum 0
  | S754_finite s m e =>
      let n := if s then Z.neg m else Z.pos m in
      VNum (if 0 <=? e then n * 2 ^ e
            else (2 * n + 2 ^ (- e)) / 2 ^ (- e + 1))
  | S754_infinity s => VInfinity s
  | S754_nan => VNaN
  end.

(** [Math.floor(x)], computed exactly from mantissa and exponent. *)
Definition Math_floor (x : double) : value :=
  match x with
  | S754_zero _ => VNum 0
  | S754_finite s m e =>
      let n := if s then Z.neg m else Z.pos m in
      VNum (if 0 <=? e then n * 2 ^ e else n / 2 ^ (- e))
  | S754_infinity s => VInfinity s
  | S754_nan => VNaN
  end.

(** [arr[v]] for a number [v]: [undefined] ([None]) unless [v] is an
    integer inside the array. *)
Definition at_value {A : Type} (l : list A) (v : value) : option A :=
  match v with
  | VNum i => at_index l i
  | _ => None
  end.

(** [`${v}`]: the text a template literal makes of a value. *)
Fixpoint template (v : value) : string :=
  match v with
  | VUndefined => "undefined"
  | VNull => "null"
  | VNaN => "NaN"
  | VInfinity negative => if negative then "-Infinity" else "Infinity"
  | VNum z => toString_int z
  | VStr s => s
  | VArr l =>
      join ","
        (map (fun x => match x with VUndefined | VNull => "" | _ => template x end) l)
  | VObj _ => "[object Object]"
  end.

(** [JSON.parse(JSON.stringify(v))].  A stored text is represented by the
    value it denotes ([Text]); what [JSON.stringify] loses is lost here:
    [NaN] and the infinities become [null], [undefined] becomes [null]
    inside an array and drops the property inside an object. *)
Inductive text := Text (denotes : value).

Fixpoint json (v : value) : value :=
  match v with
  | VNaN | VInfinity _ => VNull
  | VArr l =>
      VArr (map (fun x => match x with VUndefined => VNull | _ => json x end) l)
  | VObj ps =>
      VObj ((fix props (ps : list (string * value)) : list (string * value) :=
               match ps with
               | [] => []
               | (k, VUndefined) :: ps' => props ps'
               | (k, x) :: ps' => (k, json x) :: props ps'
               end) ps)
  | _ => v
  end.

Definition JSON_stringify (v : value) : text := Text (json v).
Definition JSON_parse (t : text) : value := let 'Text v := t in v.


(** [v[k]] *)
Definition get (k : string) (v : value) : value :=
  match v with
  | VObj ps => match List.find (fun p => String.eqb (fst p) k) ps with
               | Some p => snd p
               | None => VUndefined
               end
  | _ => VUndefined
  end.

(** A plain object used as a map from strings to [true].  Its own keys are
    a finite set; a lookup also sees what every object inherits from
    [Object.prototype], all of it truthy. *)
Definition Object_prototype : list string :=
  [ "constructor"; "__defineGetter__"; "__defineSetter__"; "hasOwnProperty";
    "__lookupGetter__"; "__lookupSetter__"; "isPrototypeOf";
    "propertyIsEnumerable"; "toString"; "valueOf"; "__proto__";
    "toLocaleString" ].

Definition truthy_at (o : gset string) (k : string) : bool :=
  bool_decide (k ∈ o) || bool_decide (k ∈ Object_prototype).

End JS.

Example split_space_ex : JS.split_space "a  bc " = ["a"; ""; "bc"; ""].
Proof. reflexivity. Qed.

Example trim_ex : JS.trim "  A b  " = "A b".
Proof. reflexivity. Qed.

Example round_half_ex : JS.Math_round (JS.fdiv (JS.of_int 5) (JS.of_int 2)) = JS.VNum 3.
Proof. vm_compute. reflexivity. Qed.

Example round_nan_ex : JS.Math_round (JS.fdiv (JS.of_int 0) (JS.of_int 0)) = JS.VNaN.
Proof. vm_compute. reflexivity. Qed.

(** ** The data model *)

(** The four screens of the page ([start-screen], [dashboard-screen],
    [quiz-screen], [report-screen]). *)
Inductive Screen := start_screen | dashboard_screen | quiz_screen | report_screen.

#[global] Instance Screen_eq_dec : EqDecision Screen.
Proof. solve_decision. Defined.

(** One element of [state.questions], as [fetchQuestions] builds it.
    [answerIndex] is [null] ([None]) until a choice is clicked. *)
Record Question := mkQuestion {
  id : nat;
  question : string;
  correct : string;
  incorrect : list string;
  choices : list string;
  visited : bool;
  answerIndex : option nat;
}.

(** The [state] object.  [usedClues] holds the [{q, type}] pairs,
    [usedClueTypes] the own keys of the [type => true] object. *)
Record State := mkState {
  email : string;
  questions : list Question;
  current : nat;
  startedAt : option Z;
  durationMs : Z;
  timerInterval : option nat;
  cluesLeft : Z;
  usedClues : list (nat * string);
  usedClueTypes : gset string;
  warnings : Z;
  maxWarnings : Z;
  perQuestionTimeMs : list Z;
  currentStartedAt : option Z;
  attempts : JS.value;
}.

(** The page around [state]: the screen that [showScreen] showed last (the
    screen before it keeps the class [active] for the 300 ms of the
    cross-fade; the page is taken after that), the texts of [#timer],
    [#performance-summary] and [#ai-output], the intervals
    created by [setInterval] and not cleared (identifier and the [endAt] their
    [tick] closure captured), the next identifier, and [localStorage].
    [submitted] is not in the source: it records the reason of every call of
    [submitQuiz], oldest first, so that properties can count submissions. *)
Record App := mkApp {
  state : State;
  screen : Screen;
  timer : string;
  performance : string;
  ai_output : string;
  intervals : list (nat * Z);
  nextInterval : nat;
  localStorage : gmap string JS.text;
  submitted : list string;
}.

(** Field updates. *)
Definition set_email v s := mkState v (questions s) (current s) (startedAt s) (durationMs s) (timerInterval s) (cluesLeft s) (usedClues s) (usedClueTypes s) (warnings s) (maxWarnings s) (perQuestionTimeMs s) (currentStartedAt s) (attempts s).
Definition set_questions v s := mkState (email s) v (current s) (startedAt s) (durationMs s) (timerInterval s) (cluesLeft s) (usedClues s) (usedClueTypes s) (warnings s) (maxWarnings s) (perQuestionTimeMs s) (currentStartedAt s) (attempts s).
Definition set_current v s := mkState (email s) (questions s) v (startedAt s) (durationMs s) (timerInterval s) (cluesLeft s) (usedClues s) (usedClueTypes s) (warnings s) (maxWarnings s) (perQuestionTimeMs s) (currentStartedAt s) (attempts s).
Definition set_startedAt v s := mkState (email s) (questions s) (current s) v (durationMs s) (timerInterval s) (cluesLeft s) (usedClues s) (usedClueTypes s) (warnings s) (maxWarnings s) (perQuestionTimeMs s) (currentStartedAt s) (attempts s).
Definition set_timerInterval v s := mkState (email s) (questions s) (current s) (startedAt s) (durationMs s) v (cluesLeft s) (usedClues s) (usedClueTypes s) (warnings s) (maxWarnings s) (perQuestionTimeMs s) (currentStartedAt s) (attempts s).
Definition set_cluesLeft v s := mkState (email s) (questions s) (current s) (startedAt s) (durationMs s) (timerInterval s) v (usedClues s) (usedClueTypes s) (warnings s) (maxWarnings s) (perQuestionTimeMs s) (currentStartedAt s) (attempts s).
Definition set_usedClues v s := mkState (email s) (questions s) (current s) (startedAt s) (durationMs s) (timerInterval s) (cluesLeft s) v (usedClueTypes s) (warnings s) (maxWarnings s) (perQuestionTimeMs s) (currentStartedAt s) (attempts s).
Definition set_usedClueTypes v s := mkState (email s) (questions s) (current s) (startedAt s) (durationMs s) (timerInterval s) (cluesLeft s) (usedClues s) v (warnings s) (maxWarnings s) (perQuestionTimeMs s) (currentStartedAt s) (attempts s).
Definition set_warnings v s := mkState (email s) (questions s) (current s) (startedAt s) (durationMs s) (timerInterval s) (cluesLeft s) (usedClues s) (usedClueTypes s) v (maxWarnings s) (perQuestionTimeMs s) (currentStartedAt s) (attempts s).
Definition set_perQuestionTimeMs v s := mkState (email s) (questions s) (current s) (startedAt s) (durationMs s) (timerInterval s) (cluesLeft s) (usedClues s) (usedClueTypes s) (warnings s) (maxWarnings s) v (currentStartedAt s) (attempts s).
Definition set_currentStartedAt v s := mkState (email s) (questions s) (current s) (startedAt s) (durationMs s) (timerInterval s) (cluesLeft s) (usedClues s) (usedClueTypes s) (warnings s) (maxWarnings s) (perQuestionTimeMs s) v (attempts s).
Definition set_attempts v s := mkState (email s) (questions s) (current s) (startedAt s) (durationMs s) (timerInterval s) (cluesLeft s) (usedClues s) (usedClueTypes s) (warnings s) (maxWarnings s) (perQuestionTimeMs s) (currentStartedAt s) v.

Definition set_state v a := mkApp v (screen a) (timer a) (performance a) (ai_output a) (intervals a) (nextInterval a) (localStorage a) (submitted a).
Definition set_screen v a := mkApp (state a) v (timer a) (performance a) (ai_output a) (intervals a) (nextInterval a) (localStorage a) (submitted a).
Definition set_timer v a := mkApp (state a) (screen a) v (performance a) (ai_output a) (intervals a) (nextInterval a) (localStorage a) (submitted a).
Definition set_performance v a := mkApp (state a) (screen a) (timer a) v (ai_output a) (intervals a) (nextInterval a) (localStorage a) (submitted a).
Definition set_ai_output v a := mkApp (state a) (screen a) (timer a) (performance a) v (intervals a) (nextInterval a) (localStorage a) (submitted a).
Definition set_intervals v a := mkApp (state a) (screen a) (timer a) (performance a) (ai_output a) v (nextInterval a) (localStorage a) (submitted a).
Definition set_nextInterval v a := mkApp (state a) (screen a) (timer a) (performance a) (ai_output a) (intervals a) v (localStorage a) (submitted a).
Definition set_localStorage v a := mkApp (state a) (screen a) (timer a) (performance a) (ai_output a) (intervals a) (nextInterval a) v (submitted a).
Definition set_submitted v a := mkApp (state a) (screen a) (timer a) (performance a) (ai_output a) (intervals a) (nextInterval a) (localStorage a) v.

(** Run a function of [state] inside the page. *)
Definition on_state (f : State -> State) (a : App) : App := set_state (f (state a)) a.

(** [const state = {...}] *)
Definition initial_state : State :=
  {| email := ""; questions := []; current := 0; startedAt := None;
     durationMs := 30 * 60 * 1000; timerInterval := None; cluesLeft := 3;
     usedClues := []; usedClueTypes := ∅; warnings := 0; maxWarnings := 4;
     perQuestionTimeMs := []; currentStartedAt := None; attempts := JS.VArr [] |}.

(** The page when the script has loaded: the start screen, nothing stored. *)
Definition initial_app : App :=
  {| state := initial_state; screen := start_screen; timer := "";
     performance := ""; ai_output := "";
     intervals := []; nextInterval := 0; localStorage := ∅; submitted := [] |}.

(** ** The functions of app.js *)

(** [storageKeyFor(email)] *)
Definition storageKeyFor (email : string) : string :=
  "cf_quiz_" ++ JS.toLowerCase (JS.trim email).

(** [shuffle(arr)]: pair every element with a draw of [Math.random()]
    ([random i] for the element at index [i]), sort by the draws, drop them. *)
Definition shuffle {A : Type} (random : nat -> Q) (arr : list A) : list A :=
  map fst
    (JS.sort (fun a b => negb (Qle_bool (snd b) (snd a)))
       (imap (fun i v => (v, random i)) arr)).

(** [showScreen(id)]: every screen of the page exists, so [next] is found.
    The screen shown before loses the class [active] 300 ms later; the
    model has the page after that. *)
Definition showScreen (id : Screen) (a : App) : App := set_screen id a.

(** [clearInterval(id)]; [null] or a dead identifier clears nothing. *)
Definition clearInterval (id : option nat) (a : App) : App :=
  match id with
  | Some i => set_intervals (List.filter (fun t => negb (Nat.eqb (fst t) i)) (intervals a)) a
  | None => a
  end.

(** What [fetch] and [res.json()] deliver.  [FetchThrows] stands for every
    way the [try] block throws (network error, a status that is not ok, a
    body that is not JSON, an item without its answer list); [FetchData]
    carries [data.results], [None] when it is not an array. *)
Record RawItem := mkRawItem {
  raw_question : string;
  correct_answer : string;
  incorrect_answers : list string;
}.

Inductive FetchResult :=
| FetchThrows
| FetchData (results : option (list RawItem)).

(** The local questions of the [catch] block. *)
Definition fallback : list RawItem :=
  [ mkRawItem "What is the capital of France?" "Paris" ["Lyon"; "Marseille"; "Nice"];
    mkRawItem "Which planet is known as the Red Planet?" "Mars" ["Venus"; "Jupiter"; "Saturn"];
    mkRawItem "Who wrote “1984”?" "George Orwell" ["Aldous Huxley"; "Ray Bradbury"; "J.R.R. Tolkien"];
    mkRawItem "What is H2O commonly known as?" "Water" ["Hydrogen"; "Oxygen"; "Salt"];
    mkRawItem "Which language runs in a web browser?" "JavaScript" ["Python"; "C++"; "Java"] ].

Definition build_questions (random : nat -> nat -> Q) (items : list RawItem) : list Question :=
  imap (fun idx it =>
          {| id := idx;
             question := raw_question it;
             correct := correct_answer it;
             incorrect := incorrect_answers it;
             choices := shuffle (random idx) (correct_answer it :: incorrect_answers it);
             visited := false;
             answerIndex := None |}) items.

(** [fetchQuestions()].  [random idx i] is the draw for choice [i] of
    question [idx]. *)
Definition fetchQuestions (res : FetchResult) (random : nat -> nat -> Q) (s : State) : State :=
  let s1 :=
    match res with
    | FetchData results => set_questions (build_questions random (default [] results)) s
    | FetchThrows => set_questions (build_questions random fallback) s
    end in
  (* finally *)
  set_perQuestionTimeMs (replicate (length (questions s1)) 0) s1.

(** [stopTimingCurrent()], with the reading of [Date.now()].  The arrays
    hold integers, so the function is that of the source where the entry
    of the current question exists; an index past the array, where
    JavaScript stores [NaN], is left alone here, and what is proved of the
    recorded times is stated for an entry that exists. *)
Definition stopTimingCurrent (now : Z) (s : State) : State :=
  match currentStartedAt s with
  | Some t0 =>
      let delta := now - t0 in
      set_currentStartedAt None
        (set_perQuestionTimeMs
           (alter (fun t => t + delta) (current s) (perQuestionTimeMs s)) s)
  | None => s
  end.

(** What [renderQuestion] does to [state]: [q.visited = true] for the
    current question.  The choice buttons, which it rebuilds at once or
    500 ms later, are not part of the model. *)
Definition mark_visited (q : Question) : Question :=
  mkQuestion (id q) (question q) (correct q) (incorrect q) (choices q) true (answerIndex q).

Definition renderQuestion (s : State) : State :=
  set_questions (alter mark_visited (current s) (questions s)) s.

(** [navigateToQuestion(targetIndex)]; [now_close] is read by
    [stopTimingCurrent], [now_open] by the assignment that follows. *)
Definition navigateToQuestion (targetIndex : Z) (now_close now_open : Z) (s : State) : State :=
  if bool_decide (length (questions s) = 0%nat) then s
  else if (targetIndex <? 0) || (Z.of_nat (length (questions s)) <=? targetIndex) then s
  else
    renderQuestion
      (set_currentStartedAt (Some now_open)
         (set_current (Z.to_nat targetIndex) (stopTimingCurrent now_close s))).

(** The click handler of a choice button, [q.answerIndex = i], for a button
    of the current question (the [q] of the handler is the question that
    was current when the button was built). *)
Definition select (i : nat) (q : Question) : Question :=
  mkQuestion (id q) (question q) (correct q) (incorrect q) (choices q) (visited q) (Some i).

Definition selectAnswer (i : nat) (s : State) : State :=
  renderQuestion (set_questions (alter (select i) (current s) (questions s)) s).

(** [loadAttempts()] *)
Definition loadAttempts (a : App) : App :=
  let key := storageKeyFor (email (state a)) in
  let stored := default (JS.Text (JS.VArr [])) (localStorage a !! key) in
  on_state (set_attempts (JS.JSON_parse stored)) a.

(** [saveAttempt(payload)].  When the stored value is not an array,
    [list.push] throws and the [catch] leaves the storage as it was; the
    page itself only ever stores arrays (lemma [stored_history_is_array]). *)
Definition saveAttempt (payload : JS.value) (a : App) : App :=
  let key := storageKeyFor (email (state a)) in
  let stored := default (JS.Text (JS.VArr [])) (localStorage a !! key) in
  match JS.JSON_parse stored with
  | JS.VArr list =>
      set_localStorage
        (<[key := JS.JSON_stringify (JS.VArr (list ++ [payload]))]> (localStorage a)) a
  | _ => a
  end.

(** The remark written to [#performance-summary]. *)
Definition performance_summary (correct : Z) : string :=
  if 12 <=? correct then "Excellent! You nailed it."
  else if 8 <=? correct then "Good job! Keep pushing for excellence."
  else if 5 <=? correct then "Fair attempt. A bit more practice will help."
  else "Needs improvement. Start with the fundamentals.".

(** [Math.round((correct/total)*100)] *)
Definition scorePct (correct total : Z) : JS.value :=
  JS.Math_round (JS.fmul (JS.fdiv (JS.of_int correct) (JS.of_int total)) (JS.of_int 100)).

(** [`${m}:${s}`] of [tick]. *)
Definition timeText (remaining : Z) : string :=
  JS.padStart2 (JS.toString (remaining / 60000)) ++ ":" ++
  JS.padStart2 (JS.toString ((remaining mod 60000) / 1000)).

(** The clue kinds wired to the four buttons of the modal. *)
Inductive ClueButton := clue_5050 | clue_first | clue_guess | clue_keywords.

Definition clue_type (b : ClueButton) : string :=
  match b with
  | clue_5050 => "5050"
  | clue_first => "first"
  | clue_guess => "guess"
  | clue_keywords => "keywords"
  end.

Definition known_clue (type : string) : bool :=
  existsb (String.eqb type) ["5050"; "first"; "guess"; "keywords"].

(** How a call of [applyClue] ends. *)
Inductive ClueOutcome :=
| NoCluesLeft                 (* first guard: returns at once *)
| AlreadyUsed                 (* second guard: alert, then returns *)
| TypeError                   (* a property of an undefined question is read *)
| Applied (message : string). (* ran to the end; [message] is shown *)

(** The stopword set of the keyword clue. *)
Definition stop : list string :=
  [ "the"; "and"; "with"; "from"; "that"; "this"; "which"; "when"; "what";
    "were"; "your"; "about"; "into"; "than"; "then"; "have"; "has"; "had";
    "who"; "whom"; "them"; "they"; "their"; "there"; "here"; "been"; "also";
    "only"; "after"; "before"; "over"; "under"; "much"; "many"; "some";
    "most"; "more"; "less"; "very"; "such"; "like"; "into"; "between";
    "among"; "upon"; "onto"; "does"; "did"; "doing"; "because"; "while";
    "where"; "how"; "why"; "for"; "not"; "but"; "you"; "are"; "was"; "were";
    "its"; "it"; "his"; "her"; "she"; "him"; "he"; "our"; "ours"; "us" ].

Definition stop_has (w : string) : bool := existsb (String.eqb w) stop.

(** [plain.split(' ').filter(w => w.length>3 && !stop.has(w))] on the
    lower-cased, blanked prompt. *)
Definition tokens_of (prompt : string) : list string :=
  List.filter (fun w => (3 <? String.length w)%nat && negb (stop_has w))
    (JS.split_space (JS.blank_others (JS.toLowerCase prompt))).

(** [freq.set(t, (freq.get(t)||0)+1)] on a [Map]: a new key goes to the end,
    a known key keeps its place. *)
Fixpoint bump (t : string) (freq : list (string * Z)) : list (string * Z) :=
  match freq with
  | [] => [(t, 1)]
  | (k, n) :: freq' =>
      if String.eqb k t then (k, n + 1) :: freq' else (k, n) :: bump t freq'
  end.

Definition frequencies (tokens : list string) : list (string * Z) :=
  fold_left (fun freq t => bump t freq) tokens [].

(** [[...freq.entries()].sort((a,b)=> b[1]-a[1]).slice(0,5).map(([w])=>w)] *)
Definition top_keywords (prompt : string) : list string :=
  map fst (take 5 (JS.sort (fun a b => snd b <? snd a) (frequencies (tokens_of prompt)))).

Definition keywords_message (top : list string) : string :=
  match top with
  | [] => "No strong keywords detected; read the question carefully."
  | _ => "Context keywords to focus on: "
         ++ JS.join ", " (map (fun w => "“" ++ w ++ "”") top) ++ "."
  end.

(** The words of the smart guess: [.split(' ').filter(w => w.length>3)]. *)
Definition long_words (text : string) : list string :=
  List.filter (fun w => (3 <? String.length w)%nat)
    (JS.split_space (JS.blank_others (JS.toLowerCase text))).

Section Decoder.

(** [decodeHTML(str)]: the text the browser shows for the markup [str]. *)
Variable decodeHTML : string -> string.

(** [decodeHTML(q.choices[i])].  Past the end the element is [undefined],
    which the text area receives as the text "undefined". *)
Definition decoded_choice (q : Question) (i : nat) : string :=
  decodeHTML (default "undefined" (choices q !! i)).

(** The test of the scoring loop of [submitQuiz]. *)
Definition counted_correct (q : Question) : bool :=
  match answerIndex q with
  | Some i => String.eqb (decoded_choice q i) (decodeHTML (correct q))
  | None => false
  end.

(** [let correct = 0; state.questions.forEach(q => { if (...) correct++ })] *)
Definition count_correct (qs : list Question) : Z :=
  fold_left (fun correct q => if counted_correct q then correct + 1 else correct) qs 0.

(** One element of [attempt.items]. *)
Definition report_item (times : list Z) (idx : nat) (q : Question) : JS.value :=
  let picked :=
    match answerIndex q with
    | Some i => JS.VStr (decoded_choice q i)
    | None => JS.VNull
    end in
  JS.VObj [ ("question", JS.VStr (question q));
            ("userAnswer", picked);
            ("correct", JS.VStr (decodeHTML (correct q)));
            ("timeMs", JS.VNum (default 0 (times !! idx))) ].

(** The object literal [attempt] of [submitQuiz]. *)
Definition build_attempt (reason : string) (completedAt : Z) (s : State) : JS.value :=
  let correct := count_correct (questions s) in
  let total := Z.of_nat (length (questions s)) in
  JS.VObj [ ("completedAt", JS.VNum completedAt);
            ("reason", JS.VStr reason);
            ("correct", JS.VNum correct);
            ("total", JS.VNum total);
            ("scorePct", scorePct correct total);
            ("items", JS.VArr (imap (report_item (perQuestionTimeMs s)) (questions s))) ].

(** [submitQuiz(reason)]; [now_close] is read by [stopTimingCurrent],
    [now_done] by [completedAt: Date.now()].  [renderPastTests] iterates
    [state.attempts], which is the stored history and so an array (lemma
    [stored_history_is_array]); of the report only the remark is kept. *)
Definition submitQuiz (reason : string) (now_close now_done : Z) (a : App) : App :=
  let a1 := on_state (stopTimingCurrent now_close) a in
  let a2 := set_performance (performance_summary (count_correct (questions (state a1)))) a1 in
  let a3 := loadAttempts a2 in
  let a4 := saveAttempt (build_attempt reason now_done (state a3)) a3 in
  showScreen report_screen (set_submitted (submitted a4 ++ [reason]) a4).

(** [tick()] of the timer whose closure holds [endAt]. *)
Definition tick (endAt now : Z) (a : App) : App :=
  let remaining := Z.max 0 (endAt - now) in
  let a1 := set_timer (timeText remaining) a in
  if remaining =? 0
  then submitQuiz "Time up" now now (clearInterval (timerInterval (state a1)) a1)
  else a1.

(** [startTimer()]: one [tick] at once, then [setInterval(tick, 1000)]. *)
Definition startTimer (now : Z) (a : App) : App :=
  let endAt := default 0 (startedAt (state a)) + durationMs (state a) in
  let a1 := tick endAt now a in
  let i := nextInterval a1 in
  on_state (set_timerInterval (Some i))
    (set_nextInterval (S i) (set_intervals (intervals a1 ++ [(i, endAt)]) a1)).

(** [arr[Math.floor(Math.random()*arr.length)]]: the product is the
    product of doubles, rounded to the nearest double before it is
    floored. *)
Definition drawn {A : Type} (rand : Q) (arr : list A) : option A :=
  JS.at_value arr
    (JS.Math_floor (JS.fmul (JS.of_Q rand) (JS.of_int (Z.of_nat (length arr))))).

(** The 50/50 branch on the current question: keep the correct choice and
    one wrong choice picked by [Math.floor(Math.random()*wrongIdxs.length)],
    then [q.answerIndex = null]. *)
Definition fifty_fifty (rand : Q) (q : Question) : Question :=
  let correctIdx :=
    JS.findIndex (fun c => String.eqb (decodeHTML c) (decodeHTML (correct q))) (choices q) in
  let wrongIdxs :=
    List.filter (fun i => negb (i =? correctIdx))
      (map Z.of_nat (seq 0 (length (choices q)))) in
  let keepWrong := drawn rand wrongIdxs in
  let kept :=
    JS.filter_index
      (fun i => (i =? correctIdx)
                || match keepWrong with Some k => i =? k | None => false end)
      (choices q) in
  mkQuestion (id q) (question q) (correct q) (incorrect q) kept (visited q) None.

(** The message of the first-letter clue. *)
Definition first_letter (q : Question) : string :=
  let plainCorrect := JS.trim (JS.strip_non_alnum (decodeHTML (correct q))) in
  match plainCorrect with
  | String c _ =>
      "The correct answer starts with: "
      ++ JS.dquote ++ String (JS.upper_char c) "" ++ JS.dquote
  | EmptyString => "No hint available for this one. Try another clue!"
  end.

(** The message of the smart guess: every choice scores 2 for each of its
    long words found in the prompt and 0.2 for each other one; the first
    choice with the highest score wins. *)
Definition guess_score (words : list string) (c : string) : JS.double :=
  fold_left
    (fun acc t =>
       JS.fadd acc (if existsb (String.eqb t) words then JS.of_int 2
                    else JS.fdiv (JS.of_int 1) (JS.of_int 5)))
    (long_words (decodeHTML c)) (JS.of_int 0).

Definition smart_guess (q : Question) : string :=
  let words := long_words (decodeHTML (question q)) in
  let best :=
    fold_left
      (fun '(bestIdx, bestScore) '(i, c) =>
         let score := guess_score words c in
         if JS.fgt score bestScore then (i, score) else (bestIdx, bestScore))
      (imap (fun i c => (i, c)) (choices q)) (0%nat, JS.of_int (-1)) in
  "My smart guess would be: " ++ JS.dquote ++ decoded_choice q (fst best)
  ++ JS.dquote ++ ". Use your judgment!".

(** The message each branch of [applyClue] leaves in [message]. *)
Definition clue_message (type : string) (q : Question) : string :=
  if String.eqb type "5050" then "I removed two unlikely options. Focus on the remaining two."
  else if String.eqb type "first" then first_letter q
  else if String.eqb type "guess" then smart_guess q
  else if String.eqb type "keywords" then keywords_message (top_keywords (decodeHTML (question q)))
  else "".

(** [applyClue(type)]; [rand] is the draw of [Math.random()] the 50/50
    branch makes.  [q] is [state.questions[state.current]]: when it is
    undefined each of the four branches throws on its first line, before
    anything in [state] is written; a type that enters no branch never
    looks at [q]. *)
Definition applyClue (type : string) (rand : Q) (a : App) : ClueOutcome * App :=
  let s := state a in
  if cluesLeft s <=? 0 then (NoCluesLeft, a)
  else if JS.truthy_at (usedClueTypes s) type then (AlreadyUsed, a)
  else
    let a0 := set_ai_output "" a in
    match questions s !! current s, known_clue type with
    | None, true => (TypeError, a0)
    | q, _ =>
        let s1 :=
          match q with
          | Some q =>
              if String.eqb type "5050"
              then renderQuestion (set_questions (<[current s := fifty_fifty rand q]> (questions s)) s)
              else s
          | None => s
          end in
        let message := from_option (clue_message type) "" q in
        let s2 :=
          set_usedClueTypes ({[type]} ∪ usedClueTypes s1)
            (set_usedClues (usedClues s1 ++ [(current s1, type)])
               (set_cluesLeft (cluesLeft s1 - 1) s1)) in
        (Applied message, set_ai_output message (set_state s2 a0))
    end.

(** [addWarning()] *)
Definition addWarning (now : Z) (a : App) : App :=
  let a1 := on_state (fun s => set_warnings (warnings s + 1) s) a in
  if maxWarnings (state a1) <=? warnings (state a1)
  then submitQuiz "Cheating not allowed (max warnings exceeded)" now now
         (clearInterval (timerInterval (state a1)) a1)
  else a1.

(** [resetApp()] *)
Definition resetApp (a : App) : App :=
  let s := state a in
  let s1 := set_startedAt None (set_current 0 (set_questions [] (set_email "" s))) in
  let a1 := clearInterval (timerInterval s1) (set_state s1 a) in
  on_state
    (fun s =>
       set_currentStartedAt None
         (set_warnings 0
            (set_usedClueTypes ∅
               (set_usedClues [] (set_cluesLeft 3 (set_timerInterval None s)))))) a1.

(** [clearAttemptsForEmail(email)]: the normalised key, the exact key, and
    every stored key whose suffix normalises to the same address. *)
Definition has_prefix (p s : string) : bool := String.prefix p s.

Definition clearAttemptsForEmail (email : string) (a : App) : App :=
  let norm := JS.toLowerCase (JS.trim email) in
  let swept (k : string) : bool :=
    has_prefix "cf_quiz_" k
    && String.eqb (JS.toLowerCase (JS.trim (String.substring 8 (String.length k - 8) k))) norm in
  set_localStorage
    (filter (fun kv => negb (swept (fst kv)) = true)
       (delete ("cf_quiz_" ++ email) (delete (storageKeyFor email) (localStorage a)))) a.

(** ** Events

    The handlers that [wire] and the render functions attach, as the steps
    of a machine.  A step is one handler, run from its first statement to
    its last.  The machine has the runs of the page in which
    - the handler of "New Test" is not interrupted: the fetch it awaits has
      settled, and the rest of the handler has run, before the next event;
    - the 300 ms cross-fade of [showScreen] and the 500 ms that
      [renderQuestion] waits before it rebuilds the choice buttons are over
      before the next event, so that one screen is active and the buttons
      are those of the current question with its current choices;
    - a control is used on the screen that shows it;
    - the clock does not advance while a handler runs: the reading of the
      event serves every [Date.now()] of the handler.
    The page has other runs as well (a second click while the fetch is
    pending, a visibility change during the cross-fade, a click on a choice
    button of the render before); a worked run below is a run of the page,
    and what is stated of every run is stated of the runs of the machine.
    The arrow keys do what [Prev] and [Next] do, under the same test of the
    quiz screen; the handlers that only touch the document (quick panel,
    modal, themes) or only reload [state.attempts] for display ("View Past
    Tests") are left out.  A confirmation dialog is taken as confirmed. *)
Inductive Event :=
| Login (value : string)
| Logout
| NewTest (res : FetchResult) (random : nat -> nat -> Q) (now : Z)
| Overview (idx : nat) (now : Z)
| Prev (now : Z)
| Next (now : Z)
| Choice (i : nat)
| Clue (b : ClueButton) (rand : Q)
| Submit (now : Z)
| Retake
| BackToDashboard
| VisibilityChange (hidden : bool) (now : Z)
| Interval (i : nat) (now : Z).

Definition handle (e : Event) (a : App) : App :=
  match e with
  | Login value =>
      let email := JS.trim value in
      if String.eqb email "" then a
      else
        showScreen dashboard_screen
          (on_state (fun s => set_email email (set_attempts (JS.VArr []) s))
             (clearAttemptsForEmail email a))
  | Logout =>
      let prevEmail := email (state a) in
      let a1 := if String.eqb prevEmail "" then a else clearAttemptsForEmail prevEmail a in
      showScreen start_screen
        (on_state (fun s => set_email "" (set_attempts (JS.VArr []) s)) (resetApp a1))
  | NewTest res random now =>
      let a1 := on_state (fetchQuestions res random) a in
      if bool_decide (length (questions (state a1)) = 0%nat) then a1
      else
        let a2 := on_state (set_startedAt (Some now)) a1 in
        let a3 := startTimer now (showScreen quiz_screen a2) in
        on_state (navigateToQuestion 0 now now) a3
  | Overview idx now => on_state (navigateToQuestion (Z.of_nat idx) now now) a
  | Prev now =>
      let s := state a in
      if 0 <? Z.of_nat (current s)
      then on_state (navigateToQuestion (Z.of_nat (current s) - 1) now now) a
      else a
  | Next now =>
      let s := state a in
      if Z.of_nat (current s) <? Z.of_nat (length (questions s)) - 1
      then on_state (navigateToQuestion (Z.of_nat (current s) + 1) now now) a
      else a
  | Choice i => on_state (selectAnswer i) a
  | Clue b rand => snd (applyClue (clue_type b) rand a)
  | Submit now => submitQuiz "Manual submit" now now a
  | Retake => showScreen dashboard_screen (resetApp a)
  | BackToDashboard => showScreen dashboard_screen a
  | VisibilityChange hidden now =>
      if hidden && bool_decide (screen a = quiz_screen) then addWarning now a else a
  | Interval i now =>
      match List.find (fun t => Nat.eqb (fst t) i) (intervals a) with
      | Some t => tick (snd t) now a
      | None => a
      end
  end.

(** Which events can happen: a control is used on the screen that shows it
    (the form on the start screen; the test and logout buttons on the
    dashboard; grid, arrows, choices, clues and submit on the quiz; retake
    and back on the report), a choice button exists for every choice of the
    current question, and an interval fires while it is live. *)
Definition enabled (e : Event) (a : App) : bool :=
  match e with
  | Login _ => bool_decide (screen a = start_screen)
  | Logout | NewTest _ _ _ => bool_decide (screen a = dashboard_screen)
  | Overview idx _ =>
      bool_decide (screen a = quiz_screen)
      && bool_decide (idx < length (questions (state a)))%nat
  | Choice i =>
      bool_decide (screen a = quiz_screen)
      && match questions (state a) !! current (state a) with
         | Some q => bool_decide (i < length (choices q))%nat
         | None => false
         end
  | Prev _ | Next _ | Clue _ _ | Submit _ => bool_decide (screen a = quiz_screen)
  | Retake | BackToDashboard => bool_decide (screen a = report_screen)
  | VisibilityChange _ _ => true
  | Interval i _ => existsb (fun t => Nat.eqb (fst t) i) (intervals a)
  end.

Definition step (a : App) (e : Event) : App :=
  if enabled e a then handle e a else a.

Definition run (a : App) (events : list Event) : App := fold_left step events a.

(** Every event of the list happened (none was skipped as impossible). *)
Fixpoint all_enabled (a : App) (events : list Event) : bool :=
  match events with
  | [] => true
  | e :: events' => enabled e a && all_enabled (step a e) events'
  end.

End Decoder.

(** ** Sample data for the worked runs

    Text without markup or character references decodes to itself. *)
Definition plain_text (s : string) : string := s.

(** Draws that shuffle the four choices of every question to the order
    second, first, fourth, third. *)
Definition sample_random : nat -> nat -> Q :=
  fun _ i => nth i [3 # 10; 1 # 10; 4 # 5; 1 # 2]%Q 0%Q.

(** A user logs in and starts a test while the provider is unreachable. *)
Definition quiz_started : list Event :=
  [ Login "ann@example.org"; NewTest FetchThrows sample_random 1000 ].

(** The tab is left four times; the report is closed with "Back to
    Dashboard"; a second test is started and the tab is left once more. *)
Definition warnings_trace : list Event :=
  quiz_started ++
  [ VisibilityChange true 2000; VisibilityChange true 3000;
    VisibilityChange true 4000; VisibilityChange true 5000;
    BackToDashboard;
    NewTest FetchThrows sample_random 60000;
    VisibilityChange true 61000 ].

(** The test is submitted by hand after a minute; the report is closed with
    "Back to Dashboard"; a second test is started; the interval of the first
    test fires when its thirty minutes are over, and a second later. *)
Definition timer_trace : list Event :=
  quiz_started ++
  [ Submit 61000;
    BackToDashboard;
    NewTest FetchThrows sample_random 120000;
    Interval 0 1801000;
    Interval 0 1802000 ].

(** The correct choice of the first question is selected, then 50/50. *)
Definition fifty_trace : list Event :=
  quiz_started ++ [ Choice 1; Clue clue_5050 (7 # 10) ].



(** ** Notions the properties are stated with *)

(** Rounding the exact quotient [n/d] to the nearest integer, halves up. *)
Definition round_half_up (n d : Z) : Z := (2 * n + d) / (2 * d).

(** A selection is valid when it is an index into the current choices. *)
Definition selection_valid (q : Question) : Prop :=
  forall i, answerIndex q = Some i -> (i < length (choices q))%nat.

(** The time accounted to the current question at clock reading [now]: what
    is recorded for it plus the interval that is still open. *)
Definition accounted (s : State) (now : Z) : option Z :=
  match perQuestionTimeMs s !! current s with
  | Some recorded =>
      Some (recorded + match currentStartedAt s with
                       | Some t0 => now - t0
                       | None => 0
                       end)
  | None => None
  end.

(** Events that call [resetApp]. *)
Definition resets (e : Event) : bool :=
  match e with Retake | Logout => true | _ => false end.

(** A call of [applyClue] that was turned away by one of its two guards. *)
Definition rejected (o : ClueOutcome) : Prop := o = NoCluesLeft \/ o = AlreadyUsed.





Open Scope list_scope.

(** The attempts stored for the current address. *)
Definition stored_attempts (a : App) : list JS.value :=
  match JS.JSON_parse <$> localStorage a !! storageKeyFor (email (state a)) with
  | Some (JS.VArr l) => l
  | _ => []
  end.

(** The provider delivers forty questions; the first 23 are answered
    correctly, the rest is left open, and the test is submitted. *)
Definition forty_items : list RawItem :=
  replicate 40
    (mkRawItem "What is H2O commonly known as?" "Water" ["Hydrogen"; "Oxygen"; "Salt"]).

Definition score_trace : list Event :=
  [ Login "ann@example.org"; NewTest (FetchData (Some forty_items)) sample_random 1000 ]
  ++ flat_map (fun _ => [ Choice 1; Next 2000 ]) (seq 0 23)
  ++ [ Submit 3000 ].

(** The first local question as shuffled by [sample_random], with its
    correct choice selected. *)
Definition paris_question : Question :=
  {| id := 0;
     question := "What is the capital of France?";
     correct := "Paris";
     incorrect := [ "Lyon"; "Marseille"; "Nice" ];
     choices := [ "Lyon"; "Paris"; "Nice"; "Marseille" ];
     visited := true;
     answerIndex := Some 1%nat |}.

(** One correct answer out of five. *)
Definition one_of_five : list Event := quiz_started ++ [ Choice 1 ].

(** Whether [Math.round((correct/total)*100)] is the percentage rounded to
    the nearest integer, halves up, for [c] correct answers out of [t]. *)
Definition score_entry_ok (c t : nat) : bool :=
  match scorePct (Z.of_nat c) (Z.of_nat t) with
  | JS.VNum p => p =? round_half_up (100 * Z.of_nat c) (Z.of_nat t)
  | _ => false
  end.

(** Whether [Math.round((correct/total)*100)] is an integer nearest to the
    percentage, for [c] correct answers out of [t]. *)
Definition score_entry_near (c t : nat) : bool :=
  match scorePct (Z.of_nat c) (Z.of_nat t) with
  | JS.VNum p => 2 * Z.abs (Z.of_nat t * p - 100 * Z.of_nat c) <=? Z.of_nat t
  | _ => false
  end.


(** The part of [state] that only [applyClue] and [resetApp] write. *)
Definition clue_part (s : State) : Z * list (nat * string) * gset string :=
  (cluesLeft s, usedClues s, usedClueTypes s).

(** The constants and the warning counter. *)
Definition warning_part (s : State) : Z * Z * Z := (warnings s, maxWarnings s, durationMs s).

(** The elements whose tagged index passes, for any tagging [f];
    [JS.filter_index p] is [kept_by p Z.of_nat]. *)
Definition kept_by {A} (p : Z -> bool) (f : nat -> Z) (l : list A) : list A :=
  map snd (List.filter (fun '(i, _) => p i) (imap (fun i x => (f i, x)) l)).

(** Every stored history is an array. *)
Definition storage_ok (a : App) : Prop :=
  forall k t, localStorage a !! k = Some t -> exists l, JS.JSON_parse t = JS.VArr l.

(** ** The views of app.js

    What the render functions put on the page, as data: the texts that are
    interpolated and the classes that are set, without the markup around
    them. *)

(** [renderOverview()]: one button per question, with its label [idx+1],
    the index its click handler passes to [navigateToQuestion], and the
    classes [visited] and [attempted]. *)
Record GridButton := mkGridButton {
  btn_label : Z;
  btn_target : nat;
  btn_visited : bool;
  btn_attempted : bool;
}.

(** [q.answerIndex !== null] *)
Definition attempted (q : Question) : bool :=
  match answerIndex q with Some _ => true | None => false end.

Definition renderOverview (s : State) : list GridButton :=
  imap (fun idx q => mkGridButton (Z.of_nat idx + 1) idx (visited q) (attempted q))
    (questions s).

(** [updateQuickPanel()]: the three counters and the copy of the timer
    text. *)
Record QuickPanel := mkQuickPanel {
  qp_visited : Z;
  qp_attempted : Z;
  qp_remaining : Z;
  qp_time : string;
}.

Definition updateQuickPanel (a : App) : QuickPanel :=
  let qs := questions (state a) in
  let nvisited := Z.of_nat (length (List.filter visited qs)) in
  let nattempted := Z.of_nat (length (List.filter attempted qs)) in
  let remaining := Z.of_nat (length qs) - nattempted in
  mkQuickPanel nvisited nattempted remaining (timer a).

(** [updateClueButtons()]: for the button of each clue kind, whether it is
    disabled and whether it carries the "Used" tag and line. *)
Definition clue_buttons : list ClueButton :=
  [clue_5050; clue_first; clue_guess; clue_keywords].

Definition updateClueButtons (s : State) (b : ClueButton) : bool * bool :=
  let used := JS.truthy_at (usedClueTypes s) (clue_type b) in
  (used || (cluesLeft s <=? 0), used).

(** A row of [#report-list]: whether its class is [correct], and the texts
    after the question number, "Your answer:", "Correct answer:" and "Time
    spent:". *)
Record ReportItem := mkReportItem {
  item_correct : bool;
  item_question : string;
  item_answer : string;
  item_key : string;
  item_time : string;
}.

(** The report screen: [#score], [#email-display], [#report-note],
    [#performance-summary] and [#report-list]. *)
Record Report := mkReport {
  report_score : string;
  report_email : string;
  report_note : string;
  report_performance : string;
  report_list : list ReportItem;
}.

(** [`${mm}:${ss}`] of a report row.  [ms % 60000] has the sign of [ms]. *)
Definition report_time (ms : Z) : string :=
  (JS.padStart2 (JS.toString_int (ms / 60000)) +:+ ":"
   +:+ JS.padStart2 (JS.toString_int (Z.rem ms 60000 / 1000)))%string.

(** [`Score: ${correct}/${total} (${scorePct}%)`] *)
Definition score_line (correct total scorePct : string) : string :=
  ("Score: " +:+ correct +:+ "/" +:+ total +:+ " (" +:+ scorePct +:+ "%)")%string.

(** [reason ? `Submission reason: ${reason}` : ''] *)
Definition note_line (reason : string) : string :=
  if String.eqb reason "" then "" else ("Submission reason: " +:+ reason)%string.

(** [`${idx+1}. ${text}`] *)
Definition question_line (idx : nat) (text : string) : string :=
  (JS.toString (Z.of_nat idx + 1) +:+ ". " +:+ text)%string.

Section Reports.
Variable decodeHTML : string -> string.

(** The report [submitQuiz] renders, from the state that
    [stopTimingCurrent] left. *)
Definition submitQuiz_item (times : list Z) (idx : nat) (q : Question) : ReportItem :=
  let picked :=
    match answerIndex q with
    | Some i => default "undefined" (choices q !! i)
    | None => "(not answered)"
    end in
  let isCorrect := String.eqb (decodeHTML picked) (decodeHTML (correct q)) in
  let ms := default 0 (times !! idx) in
  mkReportItem isCorrect (question_line idx (decodeHTML (question q)))
    (decodeHTML picked) (decodeHTML (correct q)) (report_time ms).

Definition submitQuiz_report (reason : string) (s : State) : Report :=
  let correct := count_correct decodeHTML (questions s) in
  let total := Z.of_nat (length (questions s)) in
  mkReport
    (score_line (JS.toString_int correct) (JS.toString_int total)
       (JS.template (scorePct correct total)))
    ("Email: " +:+ email s)%string
    (note_line reason)
    (performance_summary correct)
    (imap (submitQuiz_item (perQuestionTimeMs s)) (questions s)).

(** [renderReportFromAttempt(att)] on an attempt of the stored shape: a
    number [correct], a string [reason], an array [items] whose elements
    have strings [question] and [correct], a string or [null] [userAnswer]
    and a number [timeMs].  On any other value the code throws or shows
    coerced values; that is not modelled ([None]). *)
Definition attempt_item (idx : nat) (it : JS.value) : option ReportItem :=
  match JS.get "question" it, JS.get "userAnswer" it, JS.get "correct" it, JS.get "timeMs" it with
  | JS.VStr question, userAnswer, JS.VStr correct, JS.VNum timeMs =>
      let shown :=
        match userAnswer with
        | JS.VStr u => Some (String.eqb u correct, if String.eqb u "" then "(not answered)" else u)
        | JS.VNull => Some (false, "(not answered)")
        | _ => None
        end in
      match shown with
      | Some (isCorrect, answer) =>
          Some (mkReportItem isCorrect (question_line idx (decodeHTML question))
                  (decodeHTML answer) (decodeHTML correct) (report_time timeMs))
      | None => None
      end
  | _, _, _, _ => None
  end.

Fixpoint attempt_items (idx : nat) (items : list JS.value) : option (list ReportItem) :=
  match items with
  | [] => Some []
  | it :: items' =>
      match attempt_item idx it, attempt_items (S idx) items' with
      | Some r, Some rs => Some (r :: rs)
      | _, _ => None
      end
  end.

Definition renderReportFromAttempt (att : JS.value) (a : App) : option (Report * App) :=
  match JS.get "correct" att, JS.get "reason" att, JS.get "items" att with
  | JS.VNum correct, JS.VStr reason, JS.VArr items =>
      match attempt_items 0 items with
      | Some list =>
          let perf := performance_summary correct in
          Some (mkReport
                  (score_line (JS.toString_int correct) (JS.template (JS.get "total" att))
                     (JS.template (JS.get "scorePct" att)))
                  ("Email: " +:+ email (state a))%string
                  (note_line reason)
                  perf
                  list,
                showScreen report_screen (set_performance perf a))
      | None => None
      end
  | _, _, _ => None
  end.

End Reports.

(** [applyTheme(name)]: the custom properties set on the root element, in
    the order of the calls of [setProperty]; any name but "ocean" and
    "sunset" selects the default theme. *)
Definition theme_ocean : list (string * string) :=
  [ ("--bg-radial", "#0b3752"); ("--bg-grad-1", "#06121d"); ("--bg-grad-2", "#0b2236");
    ("--primary", "#4fd1ff"); ("--accent", "#78a8ff");
    ("--btn-primary-1", "#37b6ff"); ("--btn-primary-2", "#1176d1");
    ("--btn-danger-1", "#ff7a7a"); ("--btn-danger-2", "#e64e4e");
    ("--timer-grad-1", "#4fd1ff"); ("--timer-grad-2", "#78a8ff");
    ("--sel-grad-1", "#0f2742"); ("--sel-grad-2", "#0b1b31") ].

Definition theme_sunset : list (string * string) :=
  [ ("--bg-radial", "#3a1420"); ("--bg-grad-1", "#1b0d14"); ("--bg-grad-2", "#2a0f18");
    ("--primary", "#ff8a6a"); ("--accent", "#ffbb6a");
    ("--btn-primary-1", "#ff9a76"); ("--btn-primary-2", "#ff6a3a");
    ("--btn-danger-1", "#ff6b6b"); ("--btn-danger-2", "#e84a4a");
    ("--timer-grad-1", "#ff8a6a"); ("--timer-grad-2", "#ffbb6a");
    ("--sel-grad-1", "#3a1a20"); ("--sel-grad-2", "#2a0f18") ].

Definition theme_aurora : list (string * string) :=
  [ ("--bg-radial", "#152040"); ("--bg-grad-1", "#0b1020"); ("--bg-grad-2", "#0e1430");
    ("--primary", "#6dd6ff"); ("--accent", "#b388ff");
    ("--btn-primary-1", "#42b4ff"); ("--btn-primary-2", "#2682ff");
    ("--btn-danger-1", "#ff7a7a"); ("--btn-danger-2", "#e64e4e");
    ("--timer-grad-1", "#42b4ff"); ("--timer-grad-2", "#b388ff");
    ("--sel-grad-1", "#0f2342"); ("--sel-grad-2", "#0d1a33") ].

Definition theme_of (name : string) : list (string * string) :=
  if String.eqb name "ocean" then theme_ocean
  else if String.eqb name "sunset" then theme_sunset
  else theme_aurora.

(** [root.style.setProperty(k, v)] *)
Definition setProperty (style : gmap string string) (kv : string * string) : gmap string string :=
  <[fst kv := snd kv]> style.

Definition applyTheme (name : string) (style : gmap string string) : gmap string string :=
  fold_left setProperty (theme_of name) style.

(** The file name of [downloadReportPDF]:
    [state.email.replace(/[^a-z0-9@._-]/gi, '_')] between a fixed prefix and
    ".pdf". *)
Definition file_safe (c : ascii) : bool :=
  JS.is_alnum c || existsb (Ascii.eqb c) ["@"; "."; "_"; "-"]%char.

Definition report_file_name (email : string) : string :=
  ("CausalFunnel-Quiz-Report-"
   +:+ JS.map_chars (fun c => if file_safe c then c else "_"%char) email
   +:+ ".pdf")%string.

(** ** More notions *)

(** A question as the page keeps it: the selection is an index into the
    choices, a question with a selection has been visited, and one of the
    choices decodes to what the correct answer decodes to. *)
Definition question_ok (decodeHTML : string -> string) (q : Question) : Prop :=
  selection_valid q
  /\ (attempted q = true -> visited q = true)
  /\ exists c, c ∈ choices q /\ decodeHTML c = decodeHTML (correct q).

(** The clue counters agree: the clues left and the clues logged add up to
    three, the locked types are the logged types, no type is logged twice,
    and every logged type is one of the four kinds. *)
Definition clues_ok (s : State) : Prop :=
  0 <= cluesLeft s
  /\ cluesLeft s = 3 - Z.of_nat (length (usedClues s))
  /\ usedClueTypes s = list_to_set (map snd (usedClues s))
  /\ NoDup (map snd (usedClues s))
  /\ Forall (fun type => known_clue type = true) (map snd (usedClues s)).

(** The normal form of an address: [email.trim().toLowerCase()]. *)
Definition normalise (email : string) : string := JS.toLowerCase (JS.trim email).

(** The key belongs to the address: it is [cf_quiz_] followed by a suffix
    with the normal form of the address. *)
Definition key_of (email k : string) : Prop :=
  exists suffix, k = ("cf_quiz_" +:+ suffix)%string /\ normalise suffix = normalise email.

(** What [JSON.stringify] makes of an array element. *)
Definition json_element (x : JS.value) : JS.value :=
  match x with JS.VUndefined => JS.VNull | _ => JS.json x end.

(** Every stored history is the text of an array of attempts that
    [submitQuiz] built. *)
Definition stored_built (decodeHTML : string -> string) (a : App) : Prop :=
  forall k t, localStorage a !! k = Some t ->
    exists l, t = JS.Text (JS.VArr l)
      /\ Forall (fun x => exists reason completedAt s,
                   x = JS.json (build_attempt decodeHTML reason completedAt s)) l.

Definition logs_out (e : Event) : bool :=
  match e with Logout => true | _ => false end.

(** The row [renderReportFromAttempt] shows for the item that [submitQuiz]
    stored for question [q]. *)
Definition attempt_view (decodeHTML : string -> string) (times : list Z)
    (idx : nat) (q : Question) : ReportItem :=
  let answer :=
    match answerIndex q with
    | Some i =>
        if String.eqb (decoded_choice decodeHTML q i) "" then "(not answered)"
        else decoded_choice decodeHTML q i
    | None => "(not answered)"
    end in
  mkReportItem (counted_correct decodeHTML q)
    (question_line idx (decodeHTML (question q)))
    (decodeHTML answer) (decodeHTML (decodeHTML (correct q)))
    (report_time (default 0 (times !! idx))).

(** A question whose row reads the same at submission and from storage:
    decoding the decoded texts changes nothing, a selected choice does not
    decode to the empty text, and the correct answer of a question left
    open does not decode to what "(not answered)" decodes to. *)
Definition renders_alike (decodeHTML : string -> string) (q : Question) : Prop :=
  decodeHTML (decodeHTML (correct q)) = decodeHTML (correct q)
  /\ match answerIndex q with
     | Some i =>
         decoded_choice decodeHTML q i <> ""
         /\ decodeHTML (decoded_choice decodeHTML q i) = decoded_choice decodeHTML q i
     | None => decodeHTML "(not answered)" <> decodeHTML (correct q)
     end.

(** What is on the answer sheet: the choices offered and the selection,
    question by question. *)
Definition answer_sheet (s : State) : list (list string * option nat) :=
  map (fun q => (choices q, answerIndex q)) (questions s).

(** The events that leave the answer sheet alone: everything but a click on
    a choice, the 50/50 clue, a new test and the two that call [resetApp]. *)
Definition keeps_answers (e : Event) : bool :=
  match e with
  | Choice _ | Clue clue_5050 _ | NewTest _ _ _ | Retake | Logout => false
  | _ => true
  end.

(** A double that is zero, positive or plus infinity. *)
Definition nonneg (x : JS.double) : Prop :=
  match x with
  | S754_zero _ | S754_finite false _ _ | S754_infinity false => True
  | _ => False
  end.

(** The place of such a double in their order. *)
Definition rank (x : JS.double) : Z * Z * Z :=
  match x with
  | S754_finite _ m e => (1, e, Z.pos m)
  | S754_infinity _ => (2, 0, 0)
  | _ => (0, 0, 0)
  end.

Definition rank_lt (r r' : Z * Z * Z) : Prop :=
  let '(a, b, c) := r in
  let '(a', b', c') := r' in
  a < a' \/ (a = a' /\ (b < b' \/ (b = b' /\ c < c'))).

(** The scan of the smart guess over the choices. *)
Definition best_guess (decodeHTML : string -> string) (words : list string)
    (cs : list string) : nat * JS.double :=
  fold_left
    (fun '(bestIdx, bestScore) '(i, c) =>
       let score := guess_score decodeHTML words c in
       if JS.fgt score bestScore then (i, score) else (bestIdx, bestScore))
    (imap (fun i c => (i, c)) cs) (0%nat, JS.of_int (-1)).

(** What the keyword clue and the smart guess make of a character: a
    capital letter becomes the small letter, small letters and digits stay,
    anything else becomes a space. *)
Definition word_char (c : ascii) : ascii :=
  if JS.is_upper c then ascii_of_nat (nat_of_ascii c + 32)
  else if JS.is_lower c || JS.is_digit c then c
  else " "%char.

(** [pieces] are the words of [text]: joined by single spaces they give
    the text with every character replaced as above, and none of them
    contains a space. *)
Definition words_of (text : string) (pieces : list string) : Prop :=
  JS.join " " pieces = JS.map_chars word_char text
  /\ Forall (fun w => JS.all_chars (fun c => negb (JS.is_space c)) w = true) pieces.

(** The score the smart guess gives to a choice with the words [ws] when
    the prompt has the words [words]: from 0, for each word in turn, 2 is
    added when it is a word of the prompt and 0.2 otherwise, in doubles. *)
Definition weigh (words ws : list string) : JS.double :=
  fold_left
    (fun acc t => JS.fadd acc (if bool_decide (t ∈ words) then JS.of_int 2
                               else JS.fdiv (JS.of_int 1) (JS.of_int 5)))
    ws (JS.of_int 0).

(** The choices of a question are answers of its item, and one of them
    decodes to what the correct answer decodes to. *)
Definition choices_ok (decodeHTML : string -> string) (q : Question) : Prop :=
  (forall c, c ∈ choices q -> c ∈ correct q :: incorrect q)
  /\ exists c, c ∈ choices q /\ decodeHTML c = decodeHTML (correct q).



(** A prompt and four choices for the smart guess. *)
Definition delta_question : Question :=
  {| id := 0;
     question := "Which river delta lies north of the blue lake?";
     correct := "river delta north";
     incorrect := [ "blue green river"; "lake"; "green hills" ];
     choices := [ "blue green river"; "river delta north"; "lake"; "north delta river" ];
     visited := true;
     answerIndex := None |}.

(** Induction on values, through the elements of arrays and the properties
    of objects. *)
Section ValueInduction.
Variable P : JS.value -> Prop.
Hypothesis P_undefined : P JS.VUndefined.
Hypothesis P_null : P JS.VNull.
Hypothesis P_nan : P JS.VNaN.
Hypothesis P_infinity : forall negative, P (JS.VInfinity negative).
Hypothesis P_num : forall z, P (JS.VNum z).
Hypothesis P_str : forall s, P (JS.VStr s).
Hypothesis P_arr : forall l, Forall P l -> P (JS.VArr l).
Hypothesis P_obj : forall ps, Forall (fun p => P (snd p)) ps -> P (JS.VObj ps).

Fixpoint value_induction (v : JS.value) : P v :=
  match v with
  | JS.VUndefined => P_undefined
  | JS.VNull => P_null
  | JS.VNaN => P_nan
  | JS.VInfinity negative => P_infinity negative
  | JS.VNum z => P_num z
  | JS.VStr s => P_str s
  | JS.VArr l =>
      P_arr l
        ((fix go (l : list JS.value) : Forall P l :=
            match l with
            | [] => @List.Forall_nil _ P
            | x :: l' => @List.Forall_cons _ P x l' (value_induction x) (go l')
            end) l)
  | JS.VObj ps =>
      P_obj ps
        ((fix go (ps : list (string * JS.value)) : Forall (fun p => P (snd p)) ps :=
            match ps with
            | [] => @List.Forall_nil _ _
            | (k, x) :: ps' =>
                @List.Forall_cons _ (fun p => P (snd p)) (k, x) ps' (value_induction x) (go ps')
            end) ps)
  end.
End ValueInduction.

(** * Properties *)

#[local] Set Warnings "-clear-no-such-hyp".
#[local] Arguments submitQuiz : simpl never.
#[local] Arguments tick : simpl never.
#[local] Arguments startTimer : simpl never.
#[local] Arguments addWarning : simpl never.
#[local] Arguments navigateToQuestion : simpl never.
#[local] Arguments fetchQuestions : simpl never.
#[local] Arguments stopTimingCurrent : simpl never.
#[local] Arguments saveAttempt : simpl never.
#[local] Arguments loadAttempts : simpl never.

(** ** Question loading *)

Lemma length_build_questions random items :
  length (build_questions random items) = length items.
Proof. unfold build_questions. apply length_imap. Qed.

Lemma fetchQuestions_lengths res random s :
  length (perQuestionTimeMs (fetchQuestions res random s))
  = length (questions (fetchQuestions res random s)).
Proof. unfold fetchQuestions. simpl. apply length_replicate. Qed.

(** C9.  After [fetchQuestions], whatever the provider delivered (a list of
    items, something that is not a list, or a failure that selects the five
    local questions), [perQuestionTimeMs] is an array of zeros as long as
    [questions]. *)
Theorem fetchQuestions_resets_timing (res : FetchResult) (random : nat -> nat -> Q) (s : State) :
  let s' := fetchQuestions res random s in
  perQuestionTimeMs s' = replicate (length (questions s')) 0
  /\ length (perQuestionTimeMs s') = length (questions s')
  /\ length (questions s') =
       match res with
       | FetchThrows => 5%nat
       | FetchData (Some items) => length items
       | FetchData None => 0%nat
       end.
Proof.
  cbv zeta. unfold fetchQuestions.
  split; [reflexivity|]. split; [apply fetchQuestions_lengths|].
  destruct res as [|[items|]]; simpl; rewrite ?length_build_questions; reflexivity.
Qed.

(** ** Per-question timing *)

Lemma stopTimingCurrent_open (s : State) now t0 :
  currentStartedAt s = Some t0 ->
  stopTimingCurrent now s =
    set_currentStartedAt None
      (set_perQuestionTimeMs
         (alter (fun t => t + (now - t0)) (current s) (perQuestionTimeMs s)) s).
Proof. intros H. unfold stopTimingCurrent. rewrite H. reflexivity. Qed.

Lemma questions_stopTimingCurrent now s :
  questions (stopTimingCurrent now s) = questions s.
Proof. unfold stopTimingCurrent. by destruct (currentStartedAt s). Qed.

Lemma email_stopTimingCurrent now s :
  email (stopTimingCurrent now s) = email s.
Proof. unfold stopTimingCurrent. by destruct (currentStartedAt s). Qed.

(** C7.  [navigateToQuestion(state.current)] on an open question: the index
    stays, the interval since [currentStartedAt] is added to the entry of
    the current question and to no other entry, no entry decreases when the
    clock did not run backwards, timing is reopened, and the time accounted
    to the current question when timing is reopened is the time accounted
    to it when timing was closed. *)
Theorem navigateToQuestion_current (s : State) (t0 recorded now_close now_open : Z) :
  questions s <> [] ->
  (current s < length (questions s))%nat ->
  currentStartedAt s = Some t0 ->
  perQuestionTimeMs s !! current s = Some recorded ->
  let s' := navigateToQuestion (Z.of_nat (current s)) now_close now_open s in
  current s' = current s
  /\ perQuestionTimeMs s' = <[current s := recorded + (now_close - t0)]> (perQuestionTimeMs s)
  /\ (forall j, j <> current s -> perQuestionTimeMs s' !! j = perQuestionTimeMs s !! j)
  /\ (t0 <= now_close -> forall j t t', perQuestionTimeMs s !! j = Some t ->
        perQuestionTimeMs s' !! j = Some t' -> t <= t')
  /\ currentStartedAt s' = Some now_open
  /\ accounted s' now_open = accounted s now_close.
Proof.
  intros Hne Hcur Hopen Hrec. cbv zeta.
  unfold navigateToQuestion.
  rewrite bool_decide_eq_false_2 by (destruct (questions s); [done | simpl; lia]).
  replace (Z.of_nat (current s) <? 0) with false by (symmetry; apply Z.ltb_ge; lia).
  replace (Z.of_nat (length (questions s)) <=? Z.of_nat (current s)) with false
    by (symmetry; apply Z.leb_gt; lia).
  simpl. rewrite Nat2Z.id, (stopTimingCurrent_open _ _ _ Hopen). simpl.
  assert (Halter : alter (fun t => t + (now_close - t0)) (current s) (perQuestionTimeMs s)
                   = <[current s := recorded + (now_close - t0)]> (perQuestionTimeMs s)).
  { apply list_eq. intros j. destruct (decide (j = current s)) as [->|Hj].
    - rewrite list_lookup_alter_eq, Hrec. simpl.
      rewrite list_lookup_insert_eq; [done|]. by eapply lookup_lt_Some.
    - rewrite list_lookup_alter_ne, list_lookup_insert_ne by done. done. }
  rewrite Halter.
  assert (Hlt : (current s < length (perQuestionTimeMs s))%nat) by (by eapply lookup_lt_Some).
  repeat split.
  - intros j Hj. by rewrite list_lookup_insert_ne.
  - intros Hle j t t' Ht Ht'. destruct (decide (j = current s)) as [->|Hj].
    + rewrite list_lookup_insert_eq in Ht' by done. simplify_eq. lia.
    + rewrite list_lookup_insert_ne in Ht' by done. simplify_eq. lia.
  - unfold accounted. simpl. rewrite list_lookup_insert_eq by done. rewrite Hrec, Hopen.
    f_equal. lia.
Qed.

(** ** The stable sort *)

Section SortFacts.
Context {A : Type} (key : A -> Z) (pos : A -> nat).


Let before (a b : A) : bool := key b <? key a.




End SortFacts.


(** ** Counting tokens *)













(** ** Tokens *)



(** The pieces of [split(' ')] contain no space, and joined by single
    spaces they give the text back: they are the maximal runs between
    spaces. *)
Lemma split_space_pieces (P : ascii -> bool) s :
  JS.all_chars P s = true ->
  Forall (fun w => JS.all_chars (fun c => P c && negb (JS.is_space c)) w = true)
    (JS.split_space s).
Proof.
  induction s as [|c s IH]; simpl; [by repeat constructor|].
  intros [Hc Hs]%andb_prop. specialize (IH Hs).
  destruct (JS.is_space c) eqn:Hsp; [by constructor|].
  destruct (JS.split_space s) as [|w ws].
  - repeat constructor. simpl. by rewrite Hc, Hsp.
  - apply Forall_cons in IH as [Hw Hws]. constructor; [|done].
    simpl. by rewrite Hc, Hsp, Hw.
Qed.

Lemma split_space_nonempty s : JS.split_space s <> [].
Proof. destruct s as [|c s]; simpl; [done|]. by repeat case_match. Qed.

Lemma split_space_join s : JS.join " " (JS.split_space s) = s.
Proof.
  induction s as [|c s IH]; simpl; [done|].
  pose proof (split_space_nonempty s) as Hne.
  destruct (JS.split_space s) as [|w ws]; [done|].
  destruct (JS.is_space c) eqn:Hsp.
  - unfold JS.is_space in Hsp. apply Ascii.eqb_eq in Hsp as ->.
    change (JS.join " " ("" :: w :: ws)) with (String " " (JS.join " " (w :: ws))).
    by rewrite IH.
  - destruct ws as [|w' ws]; simpl in *; by rewrite <- IH.
Qed.



Lemma map_chars_compose f g s : JS.map_chars f (JS.map_chars g s) = JS.map_chars (fun c => f (g c)) s.
Proof. induction s as [|c s IH]; simpl; [done|]. by rewrite IH. Qed.

Lemma map_chars_ext f g s : (forall c, f c = g c) -> JS.map_chars f s = JS.map_chars g s.
Proof. intros H. induction s as [|c s IH]; simpl; [done|]. by rewrite H, IH. Qed.

Lemma word_char_lower c :
  (if JS.keep_lower_alnum_space (JS.lower_char c) then JS.lower_char c else " "%char)
  = word_char c.
Proof. by destruct c as [[] [] [] [] [] [] [] []]. Qed.

Lemma blank_lower text : JS.blank_others (JS.toLowerCase text) = JS.map_chars word_char text.
Proof.
  unfold JS.blank_others, JS.toLowerCase. rewrite map_chars_compose.
  apply map_chars_ext, word_char_lower.
Qed.

Lemma all_chars_true s : JS.all_chars (fun _ => true) s = true.
Proof. induction s as [|c s IH]; simpl; done. Qed.

(** [split(' ')] of the lower-cased, blanked text gives its words. *)
Lemma split_space_words text :
  words_of text (JS.split_space (JS.blank_others (JS.toLowerCase text))).
Proof.
  split; [rewrite split_space_join; apply blank_lower|].
  apply (split_space_pieces (fun _ => true)), all_chars_true.
Qed.

Lemma filter_decide {A} (P : A -> Prop) `{!forall x, Decision (P x)} (p : A -> bool) (l : list A) :
  (forall x, p x = true <-> P x) -> List.filter p l = filter P l.
Proof.
  intros Hp. induction l as [|x l IH]; [done|].
  simpl. rewrite filter_cons, IH. destruct (decide (P x)) as [HP|HP].
  - by rewrite (proj2 (Hp x) HP).
  - destruct (p x) eqn:Hx; [|done]. by apply Hp in Hx.
Qed.


(** ** Clues *)

Section Clues.
Variable decodeHTML : string -> string.

Lemma clue_part_stopTimingCurrent now s :
  clue_part (stopTimingCurrent now s) = clue_part s.
Proof. unfold stopTimingCurrent. by destruct (currentStartedAt s). Qed.

Lemma clue_part_navigateToQuestion i n1 n2 s :
  clue_part (navigateToQuestion i n1 n2 s) = clue_part s.
Proof.
  unfold navigateToQuestion. repeat case_match; try done.
  unfold renderQuestion, clue_part. simpl. apply clue_part_stopTimingCurrent.
Qed.

Lemma clue_part_fetchQuestions res random s :
  clue_part (fetchQuestions res random s) = clue_part s.
Proof. unfold fetchQuestions. by destruct res. Qed.

Lemma clue_part_saveAttempt payload a :
  clue_part (state (saveAttempt payload a)) = clue_part (state a).
Proof. unfold saveAttempt. by repeat case_match. Qed.

Lemma clue_part_clearInterval i a :
  clue_part (state (clearInterval i a)) = clue_part (state a).
Proof. by destruct i. Qed.

Lemma clue_part_submitQuiz reason n1 n2 a :
  clue_part (state (submitQuiz decodeHTML reason n1 n2 a)) = clue_part (state a).
Proof.
  unfold submitQuiz. simpl. rewrite clue_part_saveAttempt.
  unfold loadAttempts. simpl. apply clue_part_stopTimingCurrent.
Qed.

Lemma clue_part_tick endAt now a :
  clue_part (state (tick decodeHTML endAt now a)) = clue_part (state a).
Proof.
  unfold tick. case_match; [|done].
  by rewrite clue_part_submitQuiz, clue_part_clearInterval.
Qed.

Lemma clue_part_startTimer now a :
  clue_part (state (startTimer decodeHTML now a)) = clue_part (state a).
Proof. unfold startTimer. simpl. apply clue_part_tick. Qed.

Lemma clue_part_addWarning now a :
  clue_part (state (addWarning decodeHTML now a)) = clue_part (state a).
Proof.
  unfold addWarning. case_match; [|done].
  by rewrite clue_part_submitQuiz, clue_part_clearInterval.
Qed.

(** No handler but the clue buttons and the two that call [resetApp]
    writes the clue counters. *)
Lemma clue_part_handle (a : App) (e : Event) :
  resets e = false -> (forall b rand, e <> Clue b rand) ->
  clue_part (state (handle decodeHTML e a)) = clue_part (state a).
Proof.
  intros Hr Hc. destruct e; try discriminate Hr; unfold handle.
  - by case_match.
  - case_match; [by rewrite <- (clue_part_fetchQuestions res random (state a))|].
    unfold on_state at 1. cbn [state set_state].
    rewrite clue_part_navigateToQuestion, clue_part_startTimer.
    apply clue_part_fetchQuestions.
  - apply clue_part_navigateToQuestion.
  - case_match; [apply clue_part_navigateToQuestion | done].
  - case_match; [apply clue_part_navigateToQuestion | done].
  - done.
  - by destruct (Hc b rand).
  - apply clue_part_submitQuiz.
  - done.
  - case_match; [apply clue_part_addWarning | done].
  - case_match; [apply clue_part_tick | done].
Qed.

Lemma applyClue_usedClueTypes type rand a :
  usedClueTypes (state a) ⊆ usedClueTypes (state (snd (applyClue decodeHTML type rand a))).
Proof.
  unfold applyClue. repeat (case_match; simpl in * ); unfold renderQuestion; simpl; set_solver.
Qed.

Lemma step_keeps_used_types (a : App) (e : Event) :
  resets e = false ->
  usedClueTypes (state a) ⊆ usedClueTypes (state (step decodeHTML a e)).
Proof.
  intros Hr. unfold step. destruct (enabled e a); [|done].
  assert (Hc : (exists b rand, e = Clue b rand) \/ forall b rand, e <> Clue b rand)
    by (destruct e; eauto).
  destruct Hc as [(b & rand & ->)|Hn].
  - apply applyClue_usedClueTypes.
  - pose proof (clue_part_handle a e Hr Hn) as H.
    by injection H as _ _ ->.
Qed.

(** A clue type that is locked stays locked until [resetApp]. *)
Lemma run_keeps_used_types (events : list Event) (a : App) :
  forallb (fun e => negb (resets e)) events = true ->
  usedClueTypes (state a) ⊆ usedClueTypes (state (run decodeHTML a events)).
Proof.
  revert a. induction events as [|e events IH]; intros a H; simpl in *; [done|].
  apply andb_prop in H as [He H].
  etrans; [|apply IH; exact H].
  apply step_keeps_used_types. by destruct (resets e).
Qed.

Lemma applyClue_rejects (type : string) (rand : Q) (a : App) :
  cluesLeft (state a) <= 0 \/ type ∈ usedClueTypes (state a) ->
  exists o, applyClue decodeHTML type rand a = (o, a) /\ rejected o.
Proof.
  intros H. unfold applyClue, rejected.
  destruct (cluesLeft (state a) <=? 0) eqn:Hc; [eauto|].
  destruct H as [H|H]; [apply Z.leb_gt in Hc; lia|].
  unfold JS.truthy_at. rewrite (bool_decide_eq_true_2 _ H). simpl. eauto.
Qed.

(** C1.  A call of [applyClue] with no clue left or with a type already in
    [usedClueTypes] is turned away and leaves the whole page, [state]
    included, as it was.  A call that runs to its end takes one from
    [cluesLeft], adds [type], which was not a member, to [usedClueTypes],
    and appends the one pair of the current index and [type] to
    [usedClues]; after it, whatever happens short of [resetApp], a call
    with the same type is turned away. *)
Theorem applyClue_contract (type : string) (rand : Q) (a : App) :
  (cluesLeft (state a) <= 0 \/ type ∈ usedClueTypes (state a) ->
     exists o, applyClue decodeHTML type rand a = (o, a) /\ rejected o)
  /\ (forall message a',
        applyClue decodeHTML type rand a = (Applied message, a') ->
        cluesLeft (state a') = cluesLeft (state a) - 1
        /\ (type ∉ usedClueTypes (state a))
        /\ usedClueTypes (state a') = {[type]} ∪ usedClueTypes (state a)
        /\ usedClues (state a') = usedClues (state a) ++ [(current (state a), type)]
        /\ forall events rand',
             forallb (fun e => negb (resets e)) events = true ->
             let later := run decodeHTML a' events in
             exists o, applyClue decodeHTML type rand' later = (o, later) /\ rejected o).
Proof.
  split; [apply applyClue_rejects|].
  intros message a' Happ.
  assert (Hstate : cluesLeft (state a') = cluesLeft (state a) - 1
          /\ (type ∉ usedClueTypes (state a))
          /\ usedClueTypes (state a') = {[type]} ∪ usedClueTypes (state a)
          /\ usedClues (state a') = usedClues (state a) ++ [(current (state a), type)]).
  { unfold applyClue in Happ.
    destruct (cluesLeft (state a) <=? 0); [discriminate|].
    destruct (JS.truthy_at (usedClueTypes (state a)) type) eqn:Hused; [discriminate|].
    assert (Hnot : type ∉ usedClueTypes (state a)).
    { unfold JS.truthy_at in Hused. apply orb_false_elim in Hused as [Hown _].
      by apply bool_decide_eq_false_1 in Hown. }
    destruct (questions (state a) !! current (state a)) as [q|];
      [|destruct (known_clue type); [discriminate|]];
      injection Happ as _ <-; simpl.
    - destruct (String.eqb type "5050"); simpl; done.
    - done. }
  destruct Hstate as (Hleft & Hnot & Hused & Hlog). repeat split; try done.
  intros events rand' Hev later. apply applyClue_rejects. right.
  apply (run_keeps_used_types events a' Hev). rewrite Hused. set_solver.
Qed.

(** C10, as the code has it.  A type that is none of the four clue kinds,
    that is not in [usedClueTypes] and that is not one of the names every
    object inherits is not turned away while clues are left: the call takes
    one from [cluesLeft], locks the type, appends to [usedClues], shows an
    empty message and leaves everything else, the questions included, as it
    was. *)
Theorem applyClue_unrecognised_type (type : string) (rand : Q) (a : App) :
  known_clue type = false ->
  0 < cluesLeft (state a) ->
  type ∉ usedClueTypes (state a) ->
  type ∉ JS.Object_prototype ->
  let s := state a in
  let s' := set_usedClueTypes ({[type]} ∪ usedClueTypes s)
              (set_usedClues (usedClues s ++ [(current s, type)])
                 (set_cluesLeft (cluesLeft s - 1) s)) in
  applyClue decodeHTML type rand a = (Applied "", set_ai_output "" (set_state s' a))
  /\ questions s' = questions s
  /\ cluesLeft s' = cluesLeft s - 1.
Proof.
  intros Hknown Hleft Hown Hproto. cbv zeta. split; [|done].
  unfold applyClue.
  rewrite (proj2 (Z.leb_gt _ _)) by lia.
  unfold JS.truthy_at.
  rewrite (bool_decide_eq_false_2 _ Hown), (bool_decide_eq_false_2 _ Hproto). simpl.
  rewrite Hknown.
  assert (H5050 : String.eqb type "5050" = false).
  { unfold known_clue in Hknown. simpl in Hknown. by apply orb_false_elim in Hknown as [-> _]. }
  assert (Hmsg : forall q, clue_message decodeHTML type q = "").
  { intros q. unfold known_clue in Hknown. simpl in Hknown.
    repeat (apply orb_false_elim in Hknown as [? Hknown]).
    unfold clue_message. by repeat case_match. }
  destruct (questions (state a) !! current (state a)) as [q|]; simpl.
  - by rewrite H5050, Hmsg.
  - done.
Qed.


End Clues.

(** ** Scoring *)

Lemma score_table :
  forallb (fun t => forallb (fun c => score_entry_ok c t) (seq 0 (S t))) (seq 1 39) = true.
Proof. vm_compute. reflexivity. Qed.

(** On quizzes of 1 to 39 questions the score is the exact percentage
    rounded to the nearest integer, halves up. *)
Lemma score_table_entry (c t : nat) :
  (1 <= t <= 39)%nat -> (c <= t)%nat -> score_entry_ok c t = true.
Proof.
  intros Ht Hc. pose proof score_table as H.
  rewrite forallb_forall in H.
  assert (Hin : In t (seq 1 39)) by (apply in_seq; lia).
  specialize (H t Hin). rewrite forallb_forall in H.
  apply H. apply in_seq. lia.
Qed.

Lemma scorePct_small (c t : Z) :
  0 <= c <= t -> 1 <= t <= 39 ->
  scorePct c t = JS.VNum (round_half_up (100 * c) t).
Proof.
  intros Hc Ht.
  pose proof (score_table_entry (Z.to_nat c) (Z.to_nat t) ltac:(lia) ltac:(lia)) as H.
  unfold score_entry_ok in H. rewrite !Z2Nat.id in H by lia.
  destruct (scorePct c t); try discriminate. by apply Z.eqb_eq in H as ->.
Qed.

Lemma score_table_near :
  forallb (fun t => forallb (fun c => score_entry_near c t) (seq 0 (S t))) (seq 1 100) = true.
Proof. vm_compute. reflexivity. Qed.

(** On quizzes of 1 to 100 questions the score is an integer nearest to the
    exact percentage. *)
Lemma scorePct_near (c t : Z) :
  0 <= c <= t -> 1 <= t <= 100 ->
  exists p, scorePct c t = JS.VNum p /\ 2 * Z.abs (t * p - 100 * c) <= t.
Proof.
  intros Hc Ht. pose proof score_table_near as H.
  rewrite forallb_forall in H.
  assert (Hin : In (Z.to_nat t) (seq 1 100)) by (apply in_seq; lia).
  specialize (H _ Hin). rewrite forallb_forall in H.
  assert (Hin' : In (Z.to_nat c) (seq 0 (S (Z.to_nat t)))) by (apply in_seq; lia).
  specialize (H _ Hin'). unfold score_entry_near in H. rewrite !Z2Nat.id in H by lia.
  destruct (scorePct c t); try discriminate. eexists. split; [done|]. by apply Z.leb_le.
Qed.

Lemma performance_summary_thresholds (c : Z) :
  (performance_summary c = "Excellent! You nailed it." <-> 12 <= c)
  /\ (performance_summary c = "Good job! Keep pushing for excellence." <-> 8 <= c < 12)
  /\ (performance_summary c = "Fair attempt. A bit more practice will help." <-> 5 <= c < 8)
  /\ (performance_summary c = "Needs improvement. Start with the fundamentals." <-> c < 5).
Proof.
  unfold performance_summary.
  destruct (12 <=? c) eqn:H12; [apply Z.leb_le in H12|apply Z.leb_gt in H12];
  [|destruct (8 <=? c) eqn:H8; [apply Z.leb_le in H8|apply Z.leb_gt in H8];
    [|destruct (5 <=? c) eqn:H5; [apply Z.leb_le in H5|apply Z.leb_gt in H5]]];
  repeat split; intros; try lia; try discriminate; try reflexivity.
Qed.

Section Scoring.
Variable decodeHTML : string -> string.

Lemma count_correct_from (qs : list Question) (n : Z) :
  fold_left (fun correct q => if counted_correct decodeHTML q then correct + 1 else correct) qs n
  = n + Z.of_nat (length (List.filter (counted_correct decodeHTML) qs)).
Proof.
  revert n. induction qs as [|q qs IH]; intros n; simpl; [lia|].
  rewrite IH. destruct (counted_correct decodeHTML q); simpl; lia.
Qed.

Lemma count_correct_filter (qs : list Question) :
  count_correct decodeHTML qs
  = Z.of_nat (length (List.filter (counted_correct decodeHTML) qs)).
Proof. unfold count_correct. by rewrite count_correct_from. Qed.

Lemma count_correct_bounds (qs : list Question) :
  0 <= count_correct decodeHTML qs <= Z.of_nat (length qs).
Proof.
  rewrite count_correct_filter.
  pose proof (filter_length_le (counted_correct decodeHTML) qs). lia.
Qed.

Lemma performance_submitQuiz reason n1 n2 a :
  performance (submitQuiz decodeHTML reason n1 n2 a)
  = performance_summary (count_correct decodeHTML (questions (state a))).
Proof.
  unfold submitQuiz, saveAttempt. simpl. rewrite questions_stopTimingCurrent.
  by repeat case_match.
Qed.

(** The test of the scoring loop, spelled out: [q.choices[i]] past the end
    is [undefined], which decodes as the text "undefined". *)
Lemma counted_correct_test (q : Question) :
  counted_correct decodeHTML q = true
  <-> exists i, answerIndex q = Some i
        /\ decodeHTML (default "undefined" (choices q !! i)) = decodeHTML (correct q).
Proof.
  unfold counted_correct, decoded_choice. destruct (answerIndex q) as [i|].
  - rewrite String.eqb_eq. split; [by exists i|]. by intros (i' & [= <-] & H).
  - split; [done|]. by intros (i & Hi & _).
Qed.

(** C2, as the code has it.  The number of correct answers is the number
    of questions whose selection is not null and whose selected choice
    decodes to the text the correct answer decodes to; it is the [correct]
    of the attempt, and the remark is "Excellent" from 12 correct answers,
    "Good" from 8, "Fair" from 5, "Needs improvement" below.  The score is
    [Math.round((correct/total)*100)] in doubles; on a quiz of 1 to 100
    questions that is an integer nearest to 100 times the number of correct
    answers over the number of questions, and on a quiz of 1 to 39
    questions it is the nearest one with halves up. *)
Theorem submitQuiz_scores (reason : string) (n1 n2 : Z) (a : App) :
  let qs := questions (state a) in
  let correctCount := count_correct decodeHTML qs in
  let total := Z.of_nat (length qs) in
  let a' := submitQuiz decodeHTML reason n1 n2 a in
  let attempt := build_attempt decodeHTML reason n2 (stopTimingCurrent n1 (state a)) in
  correctCount = Z.of_nat (length (List.filter (counted_correct decodeHTML) qs))
  /\ (forall q, counted_correct decodeHTML q = true
        <-> exists i, answerIndex q = Some i
              /\ decodeHTML (default "undefined" (choices q !! i)) = decodeHTML (correct q))
  /\ JS.get "correct" attempt = JS.VNum correctCount
  /\ JS.get "scorePct" attempt
     = JS.Math_round (JS.fmul (JS.fdiv (JS.of_int correctCount) (JS.of_int total))
                        (JS.of_int 100))
  /\ ((0 < length qs <= 100)%nat ->
      exists p, JS.get "scorePct" attempt = JS.VNum p
                /\ 2 * Z.abs (total * p - 100 * correctCount) <= total)
  /\ ((0 < length qs <= 39)%nat ->
      JS.get "scorePct" attempt = JS.VNum (round_half_up (100 * correctCount) total))
  /\ performance a' = performance_summary correctCount
  /\ (performance a' = "Excellent! You nailed it." <-> 12 <= correctCount)
  /\ (performance a' = "Good job! Keep pushing for excellence." <-> 8 <= correctCount < 12)
  /\ (performance a' = "Fair attempt. A bit more practice will help." <-> 5 <= correctCount < 8)
  /\ (performance a' = "Needs improvement. Start with the fundamentals." <-> correctCount < 5).
Proof.
  cbv zeta.
  assert (Hscore : JS.get "scorePct"
            (build_attempt decodeHTML reason n2 (stopTimingCurrent n1 (state a)))
          = scorePct (count_correct decodeHTML (questions (state a)))
              (Z.of_nat (length (questions (state a))))).
  { change (JS.get "scorePct" (build_attempt decodeHTML reason n2 ?s))
      with (scorePct (count_correct decodeHTML (questions s)) (Z.of_nat (length (questions s)))).
    by rewrite questions_stopTimingCurrent. }
  split; [apply count_correct_filter|].
  split; [apply counted_correct_test|].
  split.
  { change (JS.get "correct" (build_attempt decodeHTML reason n2 ?s))
      with (JS.VNum (count_correct decodeHTML (questions s))).
    by rewrite questions_stopTimingCurrent. }
  split; [exact Hscore|].
  split.
  { intros Hlen. rewrite Hscore.
    pose proof (count_correct_bounds (questions (state a))).
    apply scorePct_near; lia. }
  split.
  { intros Hlen. rewrite Hscore.
    pose proof (count_correct_bounds (questions (state a))).
    apply scorePct_small; lia. }
  rewrite performance_submitQuiz. split; [done|].
  apply performance_summary_thresholds.
Qed.

(** ** History *)






End Scoring.

Lemma warning_part_eq (s s' : State) :
  warning_part s' = warning_part s ->
  warnings s' = warnings s /\ maxWarnings s' = maxWarnings s /\ durationMs s' = durationMs s.
Proof. intros H. by injection H. Qed.

(** ** The session: warnings and the countdown *)

Section Session.
Variable decodeHTML : string -> string.

Lemma state_saveAttempt payload a : state (saveAttempt payload a) = state a.
Proof. unfold saveAttempt. by repeat case_match. Qed.

Lemma screen_saveAttempt payload a : screen (saveAttempt payload a) = screen a.
Proof. unfold saveAttempt. by repeat case_match. Qed.

Lemma submitted_saveAttempt payload a : submitted (saveAttempt payload a) = submitted a.
Proof. unfold saveAttempt. by repeat case_match. Qed.

Lemma intervals_saveAttempt payload a : intervals (saveAttempt payload a) = intervals a.
Proof. unfold saveAttempt. by repeat case_match. Qed.

Lemma state_submitQuiz reason n1 n2 a :
  exists v, state (submitQuiz decodeHTML reason n1 n2 a)
            = set_attempts v (stopTimingCurrent n1 (state a)).
Proof.
  unfold submitQuiz. simpl. rewrite state_saveAttempt. unfold loadAttempts. simpl. eauto.
Qed.

Lemma screen_submitQuiz reason n1 n2 a :
  screen (submitQuiz decodeHTML reason n1 n2 a) = report_screen.
Proof. done. Qed.

Lemma submitted_submitQuiz reason n1 n2 a :
  submitted (submitQuiz decodeHTML reason n1 n2 a) = submitted a ++ [reason].
Proof. unfold submitQuiz. simpl. by rewrite submitted_saveAttempt. Qed.

Lemma intervals_submitQuiz reason n1 n2 a :
  intervals (submitQuiz decodeHTML reason n1 n2 a) = intervals a.
Proof. unfold submitQuiz. simpl. by rewrite intervals_saveAttempt. Qed.

Lemma warning_part_stopTimingCurrent now s :
  warning_part (stopTimingCurrent now s) = warning_part s.
Proof. unfold stopTimingCurrent. by destruct (currentStartedAt s). Qed.

Lemma warning_part_submitQuiz reason n1 n2 a :
  warning_part (state (submitQuiz decodeHTML reason n1 n2 a)) = warning_part (state a).
Proof.
  destruct (state_submitQuiz reason n1 n2 a) as [v ->].
  apply warning_part_stopTimingCurrent.
Qed.

Lemma state_clearInterval i a : state (clearInterval i a) = state a.
Proof. by destruct i. Qed.

Lemma screen_clearInterval i a : screen (clearInterval i a) = screen a.
Proof. by destruct i. Qed.

Lemma warning_part_tick endAt now a :
  warning_part (state (tick decodeHTML endAt now a)) = warning_part (state a).
Proof.
  unfold tick. case_match; [|done].
  by rewrite warning_part_submitQuiz, state_clearInterval.
Qed.

Lemma warning_part_navigateToQuestion i n1 n2 s :
  warning_part (navigateToQuestion i n1 n2 s) = warning_part s.
Proof.
  unfold navigateToQuestion. repeat case_match; try done.
  unfold renderQuestion, warning_part. simpl. apply warning_part_stopTimingCurrent.
Qed.

Lemma warning_part_applyClue type rand a :
  warning_part (state (snd (applyClue decodeHTML type rand a))) = warning_part (state a).
Proof. unfold applyClue. by repeat (case_match; simpl in * ). Qed.

(** *** The warning counter *)

(** Every call of [addWarning] adds one. *)
Lemma addWarning_increments now a :
  warnings (state (addWarning decodeHTML now a)) = warnings (state a) + 1.
Proof.
  unfold addWarning. simpl. case_match; [|done].
  pose proof (warning_part_submitQuiz "Cheating not allowed (max warnings exceeded)" now now
    (clearInterval (timerInterval (state a))
       (on_state (fun s => set_warnings (warnings s + 1) s) a))) as Hw.
  rewrite state_clearInterval in Hw. by apply warning_part_eq in Hw as [-> _].
Qed.

(** Below the limit nothing else happens. *)
Lemma addWarning_below now a :
  warnings (state a) + 1 < maxWarnings (state a) ->
  addWarning decodeHTML now a = on_state (fun s => set_warnings (warnings s + 1) s) a.
Proof.
  intros H. unfold addWarning. simpl.
  by rewrite (proj2 (Z.leb_gt _ _)) by lia.
Qed.

(** At the limit the interval of [state.timerInterval] is cleared and the
    quiz is submitted once, with the cheating reason. *)
Lemma addWarning_at_limit now a :
  maxWarnings (state a) <= warnings (state a) + 1 ->
  let a' := addWarning decodeHTML now a in
  submitted a' = submitted a ++ ["Cheating not allowed (max warnings exceeded)"]
  /\ screen a' = report_screen
  /\ intervals a' = intervals (clearInterval (timerInterval (state a)) a).
Proof.
  intros H. cbv zeta. unfold addWarning. simpl.
  rewrite (proj2 (Z.leb_le _ _)) by lia.
  rewrite submitted_submitQuiz, intervals_submitQuiz.
  repeat split; by destruct (timerInterval (state a)).
Qed.

(** Off the quiz screen the visibility handler does nothing. *)
Lemma visibility_ignored hidden now a :
  screen a <> quiz_screen -> handle decodeHTML (VisibilityChange hidden now) a = a.
Proof.
  intros H. unfold handle. rewrite (bool_decide_eq_false_2 _ H). by rewrite andb_false_r.
Qed.

Lemma timing_fields_applyClue type rand a :
  let a' := snd (applyClue decodeHTML type rand a) in
  durationMs (state a') = durationMs (state a)
  /\ screen a' = screen a
  /\ current (state a') = current (state a)
  /\ length (questions (state a')) = length (questions (state a))
  /\ length (perQuestionTimeMs (state a')) = length (perQuestionTimeMs (state a))
  /\ currentStartedAt (state a') = currentStartedAt (state a).
Proof.
  cbv zeta. unfold applyClue.
  destruct (cluesLeft (state a) <=? 0); [done|].
  destruct (JS.truthy_at (usedClueTypes (state a)) type); [done|].
  destruct (questions (state a) !! current (state a)) as [q|];
    [|by destruct (known_clue type)].
  simpl. destruct (String.eqb type "5050"); [|done].
  unfold renderQuestion. simpl. by rewrite length_alter, length_insert.
Qed.

Lemma screen_tick endAt now a :
  screen (tick decodeHTML endAt now a) = screen a
  \/ screen (tick decodeHTML endAt now a) = report_screen.
Proof. unfold tick. case_match; [by right|by left]. Qed.

End Session.

(** ** The countdown *)

Section Timer.
Variable decodeHTML : string -> string.

(** Every tick shows the time left on the wall clock, never below zero. *)
Lemma tick_shows_remaining endAt now a :
  timer (tick decodeHTML endAt now a) = timeText (Z.max 0 (endAt - now))
  /\ 0 <= Z.max 0 (endAt - now).
Proof.
  split; [|lia]. unfold tick. case_match; [|done].
  unfold submitQuiz, saveAttempt. simpl. repeat case_match; simpl; by destruct (timerInterval (state a)).
Qed.

(** While time is left a tick only rewrites the timer text. *)
Lemma tick_running endAt now a :
  now < endAt -> tick decodeHTML endAt now a = set_timer (timeText (endAt - now)) a.
Proof.
  intros H. unfold tick. rewrite Z.max_r by lia.
  by rewrite (proj2 (Z.eqb_neq _ _)) by lia.
Qed.

(** When no time is left a tick clears the interval of
    [state.timerInterval] and submits with the reason "Time up". *)
Lemma tick_time_up endAt now a :
  endAt <= now ->
  let a' := tick decodeHTML endAt now a in
  submitted a' = submitted a ++ ["Time up"]
  /\ screen a' = report_screen
  /\ intervals a' = intervals (clearInterval (timerInterval (state a)) a).
Proof.
  intros H. cbv zeta. unfold tick. rewrite Z.max_l by lia.
  change (0 =? 0) with true. cbv iota.
  rewrite (submitted_submitQuiz decodeHTML), (intervals_submitQuiz decodeHTML).
  simpl. repeat split; by destruct (timerInterval (state a)).
Qed.

(** The interval that [state.timerInterval] names does not fire again
    after its own time-up tick. *)
Lemma own_timer_stops i endAt now now' a :
  timerInterval (state a) = Some i -> endAt <= now ->
  enabled (Interval i now') (tick decodeHTML endAt now a) = false.
Proof.
  intros Hi H. destruct (tick_time_up endAt now a H) as (_ & _ & Hint).
  simpl. rewrite Hint, Hi. simpl.
  induction (intervals a) as [|[j e] l IH]; simpl; [done|].
  destruct (Nat.eqb j i) eqn:Hj; simpl; [done|]. by rewrite Hj.
Qed.
End Timer.

(** Minutes and seconds are floored, and the seconds stay below sixty. *)
Lemma timeText_parts (remaining : Z) :
  0 <= remaining ->
  let m := remaining / 60000 in
  let s := (remaining mod 60000) / 1000 in
  timeText remaining
  = (JS.padStart2 (JS.toString m) +:+ ":" +:+ JS.padStart2 (JS.toString s))%string
  /\ 60000 * m <= remaining < 60000 * (m + 1)
  /\ 0 <= s < 60
  /\ 60000 * m + 1000 * s <= remaining < 60000 * m + 1000 * (s + 1).
Proof.
  intros H. cbv zeta. split; [done|].
  pose proof (Z.div_mod remaining 60000 ltac:(lia)).
  pose proof (Z.mod_pos_bound remaining 60000 ltac:(lia)).
  pose proof (Z.div_mod (remaining mod 60000) 1000 ltac:(lia)).
  pose proof (Z.mod_pos_bound (remaining mod 60000) 1000 ltac:(lia)).
  assert (0 <= remaining mod 60000 / 1000 < 60).
  { split; [apply Z.div_pos; lia|]. apply Z.div_lt_upper_bound; lia. }
  lia.
Qed.

Lemma padStart2_length s : (2 <= String.length (JS.padStart2 s))%nat.
Proof. unfold JS.padStart2. destruct s as [|c [|c' s]]; simpl; lia. Qed.

Example timeText_examples :
  timeText 1800000 = "30:00" /\ timeText 1799999 = "29:59" /\ timeText 61000 = "01:01"
  /\ timeText 999 = "00:00" /\ timeText 0 = "00:00".
Proof. vm_compute. done. Qed.

(** ** The 50/50 clue *)

(** [findIndex] returns the first index whose element passes. *)
Lemma findIndex_found {A} (p : A -> bool) (l : list A) :
  (exists x, x ∈ l /\ p x = true) ->
  exists i x, JS.findIndex p l = Z.of_nat i
              /\ l !! i = Some x /\ p x = true
              /\ forall j y, (j < i)%nat -> l !! j = Some y -> p y = false.
Proof.
  induction l as [|a l IH]; intros (x & Hin & Hp); [by apply elem_of_nil in Hin|].
  simpl. destruct (p a) eqn:Ha.
  - exists 0%nat, a. repeat split; try done. intros j y Hj. lia.
  - apply elem_of_cons in Hin as [->|Hin]; [congruence|].
    destruct IH as (i & x' & Hi & Hx' & Hpx' & Hfirst); [eauto|].
    exists (S i), x'. rewrite Hi.
    replace (Z.of_nat i <? 0) with false by (symmetry; apply Z.ltb_ge; lia).
    repeat split; try done; [lia|].
    intros [|j] y Hj Hy; simpl in Hy; [by simplify_eq|].
    apply (Hfirst j); [lia|done].
Qed.

Lemma kept_by_cons {A} p f (x : A) l :
  kept_by p f (x :: l) = (if p (f 0%nat) then [x] else []) ++ kept_by p (f ∘ S) l.
Proof. unfold kept_by. simpl. by destruct (p (f 0%nat)). Qed.

Lemma kept_by_none {A} p f (l : list A) :
  (forall i, (i < length l)%nat -> p (f i) = false) -> kept_by p f l = [].
Proof.
  revert f. induction l as [|x l IH]; intros f H; [done|].
  rewrite kept_by_cons, (H 0%nat) by (simpl; lia). simpl.
  apply IH. intros i Hi. unfold compose. apply (H (S i)). simpl. lia.
Qed.

Lemma kept_by_one {A} p f (l : list A) a x :
  l !! a = Some x ->
  (forall i, (i < length l)%nat -> p (f i) = bool_decide (i = a)) ->
  kept_by p f l = [x].
Proof.
  revert f a. induction l as [|y l IH]; intros f a Ha H; [done|].
  rewrite kept_by_cons, (H 0%nat) by (simpl; lia).
  destruct a as [|a]; simpl in Ha.
  - simplify_eq. simpl. rewrite kept_by_none; [done|].
    intros i Hi. unfold compose. rewrite (H (S i)) by (simpl; lia). done.
  - simpl. apply (IH _ a); [done|].
    intros i Hi. unfold compose. rewrite (H (S i)) by (simpl; lia).
    apply bool_decide_ext. lia.
Qed.

Lemma kept_by_two {A} p f (l : list A) a b x y :
  (a < b)%nat -> l !! a = Some x -> l !! b = Some y ->
  (forall i, (i < length l)%nat -> p (f i) = bool_decide (i = a \/ i = b)) ->
  kept_by p f l = [x; y].
Proof.
  revert f a b. induction l as [|z l IH]; intros f a b Hab Ha Hb H; [done|].
  rewrite kept_by_cons, (H 0%nat) by (simpl; lia).
  destruct b as [|b]; [lia|]. simpl in Hb.
  destruct a as [|a]; simpl in Ha.
  - simplify_eq. rewrite bool_decide_eq_true_2 by auto. simpl. f_equal.
    apply (kept_by_one _ _ _ b); [done|].
    intros i Hi. unfold compose. rewrite (H (S i)) by (simpl; lia).
    apply bool_decide_ext. lia.
  - rewrite bool_decide_eq_false_2 by lia. simpl.
    apply (IH _ a b); [lia|done|done|].
    intros i Hi. unfold compose. rewrite (H (S i)) by (simpl; lia).
    apply bool_decide_ext. lia.
Qed.

Lemma filter_all {A} (p : A -> bool) (l : list A) :
  (forall x, In x l -> p x = true) -> List.filter p l = l.
Proof.
  induction l as [|x l IH]; intros H; simpl; [done|].
  rewrite (H x) by (by left). f_equal. apply IH. intros y Hy. apply H. by right.
Qed.

(** The element that is drawn is the one at the index that is drawn. *)
Lemma drawn_index {A} (rand : Q) (l : list A) :
  match drawn rand (seq 0 (length l)) with
  | Some k => (k < length l)%nat /\ drawn rand l = l !! k
  | None => drawn rand l = None
  end.
Proof.
  unfold drawn. rewrite length_seq.
  destruct (JS.Math_floor _) as [ | | | |i| | | ]; simpl; try done.
  unfold JS.at_index. destruct (i <? 0); [done|].
  destruct (decide (Z.to_nat i < length l)%nat) as [Hlt|Hge].
  - by rewrite lookup_seq_lt.
  - rewrite lookup_seq_ge by lia. apply lookup_ge_None_2. lia.
Qed.

(** The index that is drawn, from the floor of the product of doubles. *)
Lemma drawn_floor (rand : Q) (m : nat) :
  drawn rand (seq 0 m)
  = match JS.Math_floor (JS.fmul (JS.of_Q rand) (JS.of_int (Z.of_nat m))) with
    | JS.VNum k => if decide (0 <= k < Z.of_nat m) then Some (Z.to_nat k) else None
    | _ => None
    end.
Proof.
  unfold drawn. rewrite length_seq.
  destruct (JS.Math_floor _) as [ | | | |k| | | ]; simpl; try done.
  unfold JS.at_index. destruct (k <? 0) eqn:Hk.
  - apply Z.ltb_lt in Hk. by rewrite decide_False by lia.
  - apply Z.ltb_ge in Hk. destruct (decide (0 <= k < Z.of_nat m)) as [Hin|Hout].
    + by rewrite lookup_seq_lt by lia.
    + apply lookup_seq_ge. lia.
Qed.

(** The product is rounded before it is floored: the draw
    6004799503160661 * 2^-53 picks the third of three elements, although
    three times the draw is below 2. *)
Example drawn_rounds :
  drawn (6004799503160661 # 9007199254740992) [ "a"; "b"; "c" ] = Some "c"
  /\ Qfloor ((6004799503160661 # 9007199254740992) * 3) = 1.
Proof. vm_compute. done. Qed.

Example drawn_examples :
  drawn 0 [ "a"; "b"; "c" ] = Some "a"
  /\ drawn (7 # 10) [ "a"; "b"; "c" ] = Some "c"
  /\ drawn (1 # 3) [ "a"; "b"; "c" ] = Some "b"
  /\ drawn (1 # 2) (@nil string) = None.
Proof. vm_compute. done. Qed.

(** The largest double below 1 draws the last of up to 64 elements. *)
Example drawn_last :
  forallb (fun m =>
             match drawn (9007199254740991 # 9007199254740992) (seq 0 m) with
             | Some k => Nat.eqb (S k) m
             | None => false
             end) (seq 1 64) = true.
Proof. vm_compute. reflexivity. Qed.

(** The indices other than [ci], in ascending order. *)
Lemma wrong_indices (n ci : nat) :
  (ci < n)%nat ->
  let wrongIdxs :=
    List.filter (fun i => negb (i =? Z.of_nat ci)) (map Z.of_nat (seq 0 n)) in
  length wrongIdxs = (n - 1)%nat
  /\ forall k, (k < n - 1)%nat ->
       wrongIdxs !! k = Some (Z.of_nat (if (k <? ci)%nat then k else S k)).
Proof.
  intros Hci. cbv zeta.
  assert (Hw : List.filter (fun i => negb (i =? Z.of_nat ci)) (map Z.of_nat (seq 0 n))
               = (Z.of_nat <$> seq 0 ci) ++ (Z.of_nat <$> seq (S ci) (n - S ci))).
  { replace n with (ci + (1 + (n - S ci)))%nat at 1 by lia.
    rewrite !seq_app, !map_app, !List.filter_app. simpl.
    rewrite Z.eqb_refl. simpl. rewrite Nat.add_1_r.
    rewrite !filter_all; [done| |].
    - intros x (i & <- & Hi)%in_map_iff. apply in_seq in Hi.
      apply negb_true_iff, Z.eqb_neq. lia.
    - intros x (i & <- & Hi)%in_map_iff. apply in_seq in Hi.
      apply negb_true_iff, Z.eqb_neq. lia. }
  rewrite Hw, length_app, !length_fmap, !length_seq. split; [lia|].
  intros k Hk.
  destruct (k <? ci)%nat eqn:Hkc.
  - apply Nat.ltb_lt in Hkc.
    rewrite lookup_app_l by (rewrite length_fmap, length_seq; lia).
    rewrite list_lookup_fmap, lookup_seq_lt by lia. done.
  - apply Nat.ltb_ge in Hkc.
    rewrite lookup_app_r by (rewrite length_fmap, length_seq; lia).
    rewrite length_fmap, length_seq.
    rewrite list_lookup_fmap, lookup_seq_lt by lia. simpl. f_equal. lia.
Qed.

Section FiftyFifty.
Variable decodeHTML : string -> string.

(** What 50/50 keeps on a question that has its correct answer among its
    choices: the first choice that decodes to the correct answer and, with
    [m] other choices, the other choice at the position
    [Math.floor(Math.random()*m)] among them, the product being that of
    doubles; the two stay in their original order.  When that position is
    not below [m], the correct choice is kept alone.  The selection is
    dropped. *)
Lemma fifty_fifty_keeps_two (rand : Q) (q : Question) :
  (exists c, c ∈ choices q /\ decodeHTML c = decodeHTML (correct q)) ->
  exists ci c,
    choices q !! ci = Some c
    /\ decodeHTML c = decodeHTML (correct q)
    /\ (forall j y, (j < ci)%nat -> choices q !! j = Some y ->
          decodeHTML y <> decodeHTML (correct q))
    /\ answerIndex (fifty_fifty decodeHTML rand q) = None
    /\ drawn rand (seq 0 (length (choices q) - 1))
       = match JS.Math_floor
                 (JS.fmul (JS.of_Q rand) (JS.of_int (Z.of_nat (length (choices q) - 1)))) with
         | JS.VNum k =>
             if decide (0 <= k < Z.of_nat (length (choices q) - 1)) then Some (Z.to_nat k)
             else None
         | _ => None
         end
    /\ match drawn rand (seq 0 (length (choices q) - 1)) with
       | Some k =>
           let wi := if (k <? ci)%nat then k else S k in
           exists w,
             choices q !! wi = Some w
             /\ wi <> ci
             /\ choices (fifty_fifty decodeHTML rand q)
                = (if (ci <? wi)%nat then [c; w] else [w; c])
       | None => choices (fifty_fifty decodeHTML rand q) = [c]
       end.
Proof.
  intros (c0 & Hin & Hdec).
  set (p := fun c => String.eqb (decodeHTML c) (decodeHTML (correct q))).
  destruct (findIndex_found p (choices q)) as (ci & c & Hci & Hc & Hpc & Hfirst).
  { exists c0. split; [done|]. by apply String.eqb_eq. }
  pose proof (lookup_lt_Some _ _ _ Hc) as Hcilt.
  remember (length (choices q)) as n eqn:Hn.
  destruct (wrong_indices n ci Hcilt) as [Hwlen Hwk].
  set (wrongIdxs := List.filter (fun i => negb (i =? Z.of_nat ci)) (map Z.of_nat (seq 0 n))) in *.
  exists ci, c.
  split; [done|]. split; [by apply String.eqb_eq|].
  split. { intros j y Hj Hy Heq. apply String.eqb_eq in Heq.
           pose proof (Hfirst j y Hj Hy). unfold p in *. congruence. }
  split; [done|].
  split; [apply drawn_floor|].
  assert (Hkept : choices (fifty_fifty decodeHTML rand q)
                  = kept_by (fun i => (i =? Z.of_nat ci)
                                      || match drawn rand wrongIdxs with
                                         | Some k => i =? k
                                         | None => false
                                         end) Z.of_nat (choices q)).
  { unfold fifty_fifty. fold p. cbn [choices]. rewrite Hci, <- Hn. reflexivity. }
  rewrite Hkept.
  pose proof (drawn_index rand wrongIdxs) as Hd. rewrite Hwlen in Hd.
  destruct (drawn rand (seq 0 (n - 1))) as [k|].
  - destruct Hd as [Hkn ->]. rewrite (Hwk k Hkn).
    set (wi := if (k <? ci)%nat then k else S k) in *.
    assert (Hwi : (wi < n)%nat /\ wi <> ci).
    { unfold wi. destruct (k <? ci)%nat eqn:Hkc;
        [apply Nat.ltb_lt in Hkc|apply Nat.ltb_ge in Hkc]; lia. }
    destruct Hwi as [Hwilt Hwine].
    destruct (lookup_lt_is_Some_2 (choices q) wi) as [w Hw]; [by rewrite <- Hn|].
    exists w. split; [done|]. split; [done|].
    destruct (ci <? wi)%nat eqn:Hcw; [apply Nat.ltb_lt in Hcw|apply Nat.ltb_ge in Hcw].
    + apply (kept_by_two _ _ _ ci wi); [done|done|done|].
      intros i Hi. destruct (decide (i = ci \/ i = wi)) as [Hor|Hnor].
      * rewrite bool_decide_eq_true_2 by done. apply orb_true_iff.
        destruct Hor as [-> | ->]; [left|right]; apply Z.eqb_refl.
      * rewrite bool_decide_eq_false_2 by done. apply orb_false_iff.
        split; apply Z.eqb_neq; lia.
    + apply (kept_by_two _ _ _ wi ci); [lia|done|done|].
      intros i Hi. destruct (decide (i = wi \/ i = ci)) as [Hor|Hnor].
      * rewrite bool_decide_eq_true_2 by done. apply orb_true_iff.
        destruct Hor as [-> | ->]; [right|left]; apply Z.eqb_refl.
      * rewrite bool_decide_eq_false_2 by done. apply orb_false_iff.
        split; apply Z.eqb_neq; lia.
  - rewrite Hd. apply (kept_by_one _ _ _ ci); [done|].
    intros i Hi. rewrite orb_false_r.
    destruct (decide (i = ci)) as [->|Hne].
    + rewrite bool_decide_eq_true_2 by done. apply Z.eqb_refl.
    + rewrite bool_decide_eq_false_2 by done. apply Z.eqb_neq. lia.
Qed.
End FiftyFifty.

(** Whatever was selected, the 50/50 branch leaves no selection. *)
Lemma fifty_fifty_resets_selection (decodeHTML : string -> string) (rand : Q) (q : Question) :
  answerIndex (fifty_fifty decodeHTML rand q) = None.
Proof. reflexivity. Qed.

(** ** The stored history *)

Section Storage.
Variable decodeHTML : string -> string.

Lemma storage_ok_saveAttempt payload a :
  storage_ok a -> storage_ok (saveAttempt payload a).
Proof.
  intros Hok. unfold saveAttempt. case_match; try done.
  intros k t. simpl. destruct (decide (k = storageKeyFor (email (state a)))) as [->|Hk].
  - rewrite lookup_insert_eq. intros [= <-]. simpl. eauto.
  - rewrite lookup_insert_ne by done. apply Hok.
Qed.

Lemma storage_ok_submitQuiz reason n1 n2 a :
  storage_ok a -> storage_ok (submitQuiz decodeHTML reason n1 n2 a).
Proof.
  intros Hok. unfold submitQuiz.
  set (a3 := loadAttempts _). set (payload := build_attempt _ _ _ _).
  assert (H3 : storage_ok a3) by exact Hok.
  pose proof (storage_ok_saveAttempt payload a3 H3) as H4.
  exact H4.
Qed.

Lemma storage_ok_clearInterval i a : storage_ok a -> storage_ok (clearInterval i a).
Proof. by destruct i. Qed.

Lemma storage_ok_tick endAt now a :
  storage_ok a -> storage_ok (tick decodeHTML endAt now a).
Proof.
  intros Hok. unfold tick. case_match; [|done].
  apply storage_ok_submitQuiz, storage_ok_clearInterval. exact Hok.
Qed.

Lemma storage_ok_clearAttemptsForEmail email a :
  storage_ok a -> storage_ok (clearAttemptsForEmail email a).
Proof.
  intros Hok k t. unfold clearAttemptsForEmail. simpl.
  intros (Hl & _)%map_lookup_filter_Some.
  apply lookup_delete_Some in Hl as [_ Hl]. apply lookup_delete_Some in Hl as [_ Hl].
  by apply (Hok k).
Qed.

Lemma storage_ok_step (a : App) (e : Event) :
  storage_ok a -> storage_ok (step decodeHTML a e).
Proof.
  intros Hok. unfold step. destruct (enabled e a); [|done].
  destruct e; unfold handle.
  - case_match; [done|]. by apply storage_ok_clearAttemptsForEmail.
  - case_match.
    + unfold resetApp. by destruct (timerInterval _).
    + pose proof (storage_ok_clearAttemptsForEmail (email (state a)) a Hok) as Hc.
      unfold resetApp. simpl. by destruct (timerInterval (state a)).
  - case_match; [done|]. unfold startTimer.
    pose proof (storage_ok_tick
      (default 0 (startedAt (state (showScreen quiz_screen
         (on_state (set_startedAt (Some now)) (on_state (fetchQuestions res random) a)))))
       + durationMs (state (showScreen quiz_screen
         (on_state (set_startedAt (Some now)) (on_state (fetchQuestions res random) a)))))
      now (showScreen quiz_screen
         (on_state (set_startedAt (Some now)) (on_state (fetchQuestions res random) a))) Hok)
      as Ht.
    exact Ht.
  - done.
  - by case_match.
  - by case_match.
  - done.
  - unfold applyClue. by repeat case_match.
  - by apply storage_ok_submitQuiz.
  - unfold resetApp. simpl. by destruct (timerInterval (state a)).
  - done.
  - case_match; [|done]. unfold addWarning. case_match; [|done].
    by apply storage_ok_submitQuiz, storage_ok_clearInterval.
  - case_match; [|done]. by apply storage_ok_tick.
Qed.

(** Whatever has happened since the page was loaded, the history stored
    under any key is an array: [list.push] in [saveAttempt] and
    [state.attempts.forEach] in [renderPastTests] do not throw. *)
Lemma stored_history_is_array (events : list Event) (k : string) (t : JS.text) :
  localStorage (run decodeHTML initial_app events) !! k = Some t ->
  exists l, JS.JSON_parse t = JS.VArr l.
Proof.
  assert (Hinit : storage_ok initial_app).
  { intros k' t' H. simpl in H. by rewrite lookup_empty in H. }
  revert Hinit. generalize initial_app as a.
  induction events as [|e events IH]; intros a Hok; simpl.
  - apply Hok.
  - apply IH. by apply storage_ok_step.
Qed.
End Storage.

(** ** Reading a field through an update *)

Lemma state_on_state f a : state (on_state f a) = f (state a).
Proof. reflexivity. Qed.

(** [through_updates] rewrites [f (g v s)] to [f s], or to [v], where [g] is
    an update of the state or of the page that [f] does not read, or reads
    back.  The equation is proved for a variable in place of [s], so that
    the terms the kernel compares stay small. *)
Ltac through_updates :=
  repeat match goal with
  | |- context [state (on_state ?h ?a)] => rewrite (state_on_state h a); cbv beta
  | |- context [?f (?g ?v ?s)] =>
      lazymatch type of s with State => idtac | App => idtac end;
      lazymatch type of (g v s) with State => idtac | App => idtac end;
      let H := fresh "H" in
      first [ assert (H : forall s', f (g v s') = f s') by reflexivity
            | assert (H : forall s', f (g v s') = v) by reflexivity ];
      rewrite H; clear H
  end.

(** ** Loaded questions *)

Lemma sort_insert_permutation {A} (before : A -> A -> bool) x s :
  JS.sort_insert before x s ≡ₚ x :: s.
Proof.
  induction s as [|y s IH]; simpl; [done|].
  destruct (before y x); [|done].
  rewrite IH. apply Permutation_swap.
Qed.

Lemma sort_permutation {A} (before : A -> A -> bool) l : JS.sort before l ≡ₚ l.
Proof.
  induction l as [|x l IH]; simpl; [done|].
  fold (JS.sort before l). by rewrite sort_insert_permutation, IH.
Qed.

Lemma fst_imap_pair {A B} (f : nat -> B) (l : list A) :
  map fst (imap (fun i v => (v, f i)) l) = l.
Proof.
  revert f. induction l as [|x l IH]; intros f; simpl; [done|].
  f_equal. apply (IH (f ∘ S)).
Qed.

Lemma shuffle_permutation {A} (random : nat -> Q) (arr : list A) :
  shuffle random arr ≡ₚ arr.
Proof.
  unfold shuffle.
  rewrite <- (fst_imap_pair random arr) at 2.
  apply Permutation_map, sort_permutation.
Qed.

Lemma fetched_question_fresh (res : FetchResult) (random : nat -> nat -> Q) (s : State)
    (q : Question) :
  q ∈ questions (fetchQuestions res random s) ->
  choices q ≡ₚ correct q :: incorrect q /\ visited q = false /\ answerIndex q = None.
Proof.
  unfold fetchQuestions. intros H.
  assert (Hq : q ∈ build_questions random
                 match res with
                 | FetchThrows => fallback
                 | FetchData results => default [] results
                 end) by (by destruct res).
  clear H. unfold build_questions in Hq.
  apply elem_of_lookup_imap_1 in Hq as (i & it & -> & _). simpl.
  split; [apply shuffle_permutation|done].
Qed.

(** Every question [fetchQuestions] builds carries its index as [id], is
    neither visited nor answered, takes its texts from the item at the same
    index, and offers the correct answer and the wrong answers, each once,
    in some order. *)
Lemma fetchQuestions_questions (res : FetchResult) (random : nat -> nat -> Q) (s : State)
    (i : nat) (q : Question) :
  questions (fetchQuestions res random s) !! i = Some q ->
  id q = i
  /\ choices q ≡ₚ correct q :: incorrect q
  /\ visited q = false
  /\ answerIndex q = None
  /\ exists it,
       match res with
       | FetchThrows => fallback
       | FetchData results => default [] results
       end !! i = Some it
       /\ question q = raw_question it
       /\ correct q = correct_answer it
       /\ incorrect q = incorrect_answers it.
Proof.
  unfold fetchQuestions. intros H.
  assert (Hq : build_questions random
                 match res with
                 | FetchThrows => fallback
                 | FetchData results => default [] results
                 end !! i = Some q) by (by destruct res).
  clear H. unfold build_questions in Hq.
  rewrite list_lookup_imap in Hq.
  destruct (_ !! i) as [it|] eqn:Hit; [|done].
  simpl in Hq. injection Hq as <-. simpl.
  repeat split; try done; [apply shuffle_permutation|eauto].
Qed.

(** ** What the handlers keep true of the questions *)

Section QuestionInvariant.
Variable decodeHTML : string -> string.
Variable P : Question -> Prop.
Hypothesis P_fresh : forall q,
  choices q ≡ₚ correct q :: incorrect q -> visited q = false -> answerIndex q = None -> P q.
Hypothesis P_visit : forall q, P q -> P (mark_visited q).
Hypothesis P_select : forall i q,
  P q -> (i < length (choices q))%nat -> P (mark_visited (select i q)).
Hypothesis P_fifty : forall rand q, P q -> P (mark_visited (fifty_fifty decodeHTML rand q)).

Lemma questions_submitQuiz reason n1 n2 a :
  questions (state (submitQuiz decodeHTML reason n1 n2 a)) = questions (state a).
Proof.
  destruct (state_submitQuiz decodeHTML reason n1 n2 a) as [v ->].
  apply questions_stopTimingCurrent.
Qed.

Lemma questions_tick endAt now a :
  questions (state (tick decodeHTML endAt now a)) = questions (state a).
Proof.
  unfold tick. case_match; [|done].
  by rewrite questions_submitQuiz, state_clearInterval.
Qed.

Lemma questions_startTimer now a :
  questions (state (startTimer decodeHTML now a)) = questions (state a).
Proof. unfold startTimer. through_updates. apply questions_tick. Qed.

Lemma questions_addWarning now a :
  questions (state (addWarning decodeHTML now a)) = questions (state a).
Proof.
  unfold addWarning. case_match; [|done].
  by rewrite questions_submitQuiz, state_clearInterval.
Qed.

Lemma questions_resetApp a : questions (state (resetApp a)) = [].
Proof. unfold resetApp, on_state. simpl. by rewrite state_clearInterval. Qed.

Lemma Forall_alter_twice (f g : Question -> Question) c qs :
  Forall P qs ->
  (forall q, qs !! c = Some q -> P q -> P (g (f q))) ->
  Forall P (alter g c (alter f c qs)).
Proof.
  intros Hqs Hf. apply Forall_lookup. intros j x Hx.
  destruct (decide (j = c)) as [->|Hj].
  - rewrite !list_lookup_alter_eq in Hx.
    destruct (qs !! c) as [q|] eqn:Hq; [|done]. simpl in Hx. injection Hx as <-.
    apply Hf; [done|]. by eapply Forall_lookup_1.
  - rewrite !list_lookup_alter_ne in Hx by done. by eapply Forall_lookup_1.
Qed.

Lemma questions_ok_navigate i n1 n2 s :
  Forall P (questions s) -> Forall P (questions (navigateToQuestion i n1 n2 s)).
Proof.
  intros H. unfold navigateToQuestion. repeat case_match; try done.
  unfold renderQuestion. simpl. rewrite questions_stopTimingCurrent.
  apply Forall_alter; [done|]. intros q _. apply P_visit.
Qed.

Lemma questions_ok_fetch res random s :
  Forall P (questions (fetchQuestions res random s)).
Proof.
  apply Forall_forall. intros q Hq.
  apply fetched_question_fresh in Hq as (Hperm & Hv & Ha).
  by apply P_fresh.
Qed.

Lemma questions_ok_applyClue type rand a :
  Forall P (questions (state a)) ->
  Forall P (questions (state (snd (applyClue decodeHTML type rand a)))).
Proof.
  intros H. unfold applyClue.
  destruct (cluesLeft (state a) <=? 0); [done|].
  destruct (JS.truthy_at _ _); [done|].
  destruct (questions (state a) !! current (state a)) as [q|] eqn:Hq.
  - simpl. destruct (String.eqb type "5050"); [|done].
    unfold renderQuestion. simpl.
    apply Forall_lookup. intros j x Hx.
    destruct (decide (j = current (state a))) as [->|Hj].
    + rewrite list_lookup_alter_eq, list_lookup_insert_eq in Hx
        by (by eapply lookup_lt_Some).
      simpl in Hx. injection Hx as <-. apply P_fifty. by eapply Forall_lookup_1.
    + rewrite list_lookup_alter_ne, list_lookup_insert_ne in Hx by done.
      by eapply Forall_lookup_1.
  - by destruct (known_clue type).
Qed.

Lemma questions_ok_step (a : App) (e : Event) :
  Forall P (questions (state a)) ->
  Forall P (questions (state (step decodeHTML a e))).
Proof.
  intros H. unfold step. destruct (enabled e a) eqn:Hen; [|done].
  destruct e; unfold handle.
  - (* Login *)
    case_match; [done|]. by through_updates.
  - (* Logout *)
    through_updates. rewrite questions_resetApp. constructor.
  - (* NewTest *)
    case_match; through_updates; [apply questions_ok_fetch|].
    apply questions_ok_navigate. rewrite questions_startTimer.
    through_updates. apply questions_ok_fetch.
  - through_updates. by apply questions_ok_navigate.
  - case_match; [|done]. through_updates. by apply questions_ok_navigate.
  - case_match; [|done]. through_updates. by apply questions_ok_navigate.
  - (* Choice *)
    simpl in Hen. apply andb_prop in Hen as [_ Hen].
    destruct (questions (state a) !! current (state a)) as [q|] eqn:Hq; [|done].
    apply bool_decide_eq_true_1 in Hen.
    through_updates. generalize dependent (state a). intros s H Hq.
    unfold selectAnswer, renderQuestion. simpl.
    apply Forall_alter_twice; [done|].
    intros q' Hq' HP. rewrite Hq in Hq'. injection Hq' as <-. by apply P_select.
  - by apply questions_ok_applyClue.
  - by rewrite questions_submitQuiz.
  - through_updates. rewrite questions_resetApp. constructor.
  - by through_updates.
  - case_match; [by rewrite questions_addWarning|done].
  - case_match; [by rewrite questions_tick|done].
Qed.

Lemma questions_ok_run (events : list Event) (a : App) :
  Forall P (questions (state a)) ->
  Forall P (questions (state (run decodeHTML a events))).
Proof.
  revert a. induction events as [|e events IH]; intros a H; [done|].
  simpl. apply IH. by apply questions_ok_step.
Qed.

End QuestionInvariant.

Lemma elem_of_kept_by {A} p f (l : list A) i x :
  l !! i = Some x -> p (f i) = true -> x ∈ kept_by p f l.
Proof.
  revert f i. induction l as [|y l IH]; intros f i Hi Hp; [done|].
  rewrite kept_by_cons. destruct i as [|i]; simpl in Hi.
  - simplify_eq. rewrite Hp. set_solver.
  - apply elem_of_app. right. by apply (IH (f ∘ S) i).
Qed.

Lemma filter_length_impl {A} (p r : A -> bool) (l : list A) :
  Forall (fun x => p x = true -> r x = true) l ->
  (length (List.filter p l) <= length (List.filter r l))%nat.
Proof.
  induction 1 as [|x l Hx _ IH]; simpl; [done|].
  destruct (p x) eqn:Hp.
  - rewrite (Hx eq_refl). simpl. lia.
  - destruct (r x); simpl; lia.
Qed.

Lemma kept_by_elem_of {A} p f (l : list A) x : x ∈ kept_by p f l -> x ∈ l.
Proof.
  revert f. induction l as [|y l IH]; intros f; [done|].
  rewrite kept_by_cons. intros [H|H]%elem_of_app.
  - destruct (p (f 0%nat)); [|by apply elem_of_nil in H].
    apply list_elem_of_singleton in H as ->. by left.
  - right. by apply (IH (f ∘ S)).
Qed.

Section Questions.
Variable decodeHTML : string -> string.

Lemma question_ok_fresh q :
  choices q ≡ₚ correct q :: incorrect q -> visited q = false -> answerIndex q = None ->
  question_ok decodeHTML q.
Proof.
  intros Hperm Hv Ha. repeat split.
  - intros i Hi. congruence.
  - unfold attempted. by rewrite Ha.
  - exists (correct q). split; [|done]. rewrite Hperm. set_solver.
Qed.

Lemma question_ok_visit q : question_ok decodeHTML q -> question_ok decodeHTML (mark_visited q).
Proof. intros (H1 & H2 & H3). by repeat split. Qed.

Lemma question_ok_select i q :
  question_ok decodeHTML q -> (i < length (choices q))%nat ->
  question_ok decodeHTML (mark_visited (select i q)).
Proof.
  intros (H1 & H2 & H3) Hi. repeat split; [|done].
  intros j Hj. simpl in *. by simplify_eq.
Qed.

Lemma question_ok_fifty rand q :
  question_ok decodeHTML q ->
  question_ok decodeHTML (mark_visited (fifty_fifty decodeHTML rand q)).
Proof.
  intros (H1 & H2 & c0 & Hin & Hdec). repeat split.
  - intros i Hi. discriminate Hi.
  - set (p := fun c => String.eqb (decodeHTML c) (decodeHTML (correct q))).
    destruct (findIndex_found p (choices q)) as (ci & c & Hci & Hc & Hpc & _).
    { exists c0. split; [done|]. by apply String.eqb_eq. }
    exists c. split; [|by apply String.eqb_eq].
    unfold fifty_fifty. fold p. cbn [mark_visited choices]. rewrite Hci.
    change (JS.filter_index ?P ?l) with (kept_by P Z.of_nat l).
    apply (elem_of_kept_by _ _ _ ci); [done|]. by rewrite Z.eqb_refl.
Qed.

Lemma questions_ok_reachable (events : list Event) :
  Forall (question_ok decodeHTML) (questions (state (run decodeHTML initial_app events))).
Proof.
  apply questions_ok_run; [apply question_ok_fresh|apply question_ok_visit
    |apply question_ok_select|apply question_ok_fifty|constructor].
Qed.

Lemma choices_ok_fresh q :
  choices q ≡ₚ correct q :: incorrect q -> visited q = false -> answerIndex q = None ->
  choices_ok decodeHTML q.
Proof.
  intros Hperm _ _. split.
  - intros c Hc. by rewrite <- Hperm.
  - exists (correct q). split; [|done]. rewrite Hperm. by left.
Qed.

Lemma choices_ok_fifty rand q :
  choices_ok decodeHTML q -> choices_ok decodeHTML (mark_visited (fifty_fifty decodeHTML rand q)).
Proof.
  intros (Hsub & c0 & Hin & Hdec).
  set (p := fun c => String.eqb (decodeHTML c) (decodeHTML (correct q))).
  destruct (findIndex_found p (choices q)) as (ci & c & Hci & Hc & Hpc & _).
  { exists c0. split; [done|]. by apply String.eqb_eq. }
  split.
  - intros x Hx. apply Hsub. unfold fifty_fifty in Hx. cbn [mark_visited choices] in Hx.
    change (JS.filter_index ?P ?l) with (kept_by P Z.of_nat l) in Hx.
    by apply kept_by_elem_of in Hx.
  - exists c. split; [|by apply String.eqb_eq].
    unfold fifty_fifty. fold p. cbn [mark_visited choices]. rewrite Hci.
    change (JS.filter_index ?P ?l) with (kept_by P Z.of_nat l).
    apply (elem_of_kept_by _ _ _ ci); [done|]. by rewrite Z.eqb_refl.
Qed.

(** Whatever has happened since the page was loaded, every choice of every
    question is one of the answers of its item, and one of the choices
    decodes to what the correct answer decodes to: 50/50 never removes the
    correct choice, and no handler adds or rewrites a choice. *)
Lemma correct_choice_stays (events : list Event) (q : Question) :
  q ∈ questions (state (run decodeHTML initial_app events)) ->
  (forall c, c ∈ choices q -> c ∈ correct q :: incorrect q)
  /\ (exists c, c ∈ choices q /\ decodeHTML c = decodeHTML (correct q)).
Proof.
  intros Hq.
  assert (Hok : Forall (choices_ok decodeHTML)
                  (questions (state (run decodeHTML initial_app events)))).
  { apply questions_ok_run; [apply choices_ok_fresh|done|done|apply choices_ok_fifty|constructor]. }
  rewrite Forall_forall in Hok. exact (Hok q Hq).
Qed.

(** The overview grid has one button per question, numbered from 1; the
    quick panel counts its visited and attempted buttons; whatever has
    happened, an attempted question is a visited one, so the counters are
    ordered. *)
Lemma overview_counts (events : list Event) :
  let a := run decodeHTML initial_app events in
  let grid := renderOverview (state a) in
  let qp := updateQuickPanel a in
  length grid = length (questions (state a))
  /\ (forall i b, grid !! i = Some b ->
        btn_label b = Z.of_nat i + 1 /\ btn_target b = i
        /\ (btn_attempted b = true -> btn_visited b = true))
  /\ qp_visited qp = Z.of_nat (length (List.filter btn_visited grid))
  /\ qp_attempted qp = Z.of_nat (length (List.filter btn_attempted grid))
  /\ 0 <= qp_attempted qp <= qp_visited qp
  /\ qp_visited qp <= Z.of_nat (length grid)
  /\ qp_remaining qp = Z.of_nat (length (List.filter (fun b => negb (btn_attempted b)) grid))
  /\ 0 <= qp_remaining qp.
Proof.
  cbv zeta.
  pose proof (questions_ok_reachable events) as Hok.
  set (a := run decodeHTML initial_app events) in *.
  unfold renderOverview, updateQuickPanel. cbn [qp_visited qp_attempted qp_remaining].
  generalize dependent (questions (state a)). intros qs Hok.
  assert (Hg : forall (p : GridButton -> bool) (r : Question -> bool),
            (forall i q, p (mkGridButton (Z.of_nat i + 1) i (visited q) (attempted q)) = r q) ->
            length (List.filter p (imap (fun idx q => mkGridButton (Z.of_nat idx + 1) idx (visited q) (attempted q)) qs))
            = length (List.filter r qs)).
  { intros p r Hpr. 
    assert (Hgen : forall (g : nat -> nat),
       length (List.filter p (imap (fun idx q => mkGridButton (Z.of_nat (g idx) + 1) (g idx) (visited q) (attempted q)) qs))
            = length (List.filter r qs)).
    { clear Hok. induction qs as [|q qs IH]; intros g; simpl; [done|].
      rewrite Hpr. destruct (r q); simpl; [f_equal|]; apply (IH (g ∘ S)). }
    apply (Hgen Datatypes.id). }
  split; [apply length_imap|].
  split.
  { intros i b Hb. rewrite list_lookup_imap in Hb.
    destruct (qs !! i) as [q|] eqn:Hq; [|done]. simpl in Hb. injection Hb as <-. simpl.
    split; [done|]. split; [done|].
    eapply Forall_lookup_1 in Hok as (_ & Hav & _); [|exact Hq]. done. }
  rewrite (Hg btn_visited visited) by done.
  rewrite (Hg btn_attempted attempted) by done.
  rewrite (Hg (fun b => negb (btn_attempted b)) (fun q => negb (attempted q))) by done.
  rewrite length_imap.
  pose proof (filter_length_impl attempted visited qs) as Hle.
  pose proof (filter_length_le visited qs) as Hv.
  pose proof (List.filter_length attempted qs) as Hsum.
  split; [done|]. split; [done|].
  split. { split; [lia|]. apply Nat2Z.inj_le, Hle.
           eapply Forall_impl; [exact Hok|]. by intros q (_ & H & _). }
  split; [lia|]. split; lia.
Qed.

End Questions.

(** ** The answer sheet *)

Section Answers.
Variable decodeHTML : string -> string.

Lemma answer_sheet_visited i qs :
  map (fun q => (choices q, answerIndex q)) (alter mark_visited i qs)
  = map (fun q => (choices q, answerIndex q)) qs.
Proof.
  apply list_eq. intros j. rewrite !list_lookup_fmap.
  destruct (decide (j = i)) as [->|Hj].
  - rewrite list_lookup_alter_eq. by destruct (qs !! i).
  - by rewrite list_lookup_alter_ne.
Qed.

Lemma answer_sheet_navigate i n1 n2 s :
  answer_sheet (navigateToQuestion i n1 n2 s) = answer_sheet s.
Proof.
  unfold navigateToQuestion. repeat case_match; try done.
  unfold renderQuestion, answer_sheet. through_updates.
  by rewrite answer_sheet_visited, questions_stopTimingCurrent.
Qed.

Lemma answer_sheet_questions s s' : questions s' = questions s -> answer_sheet s' = answer_sheet s.
Proof. unfold answer_sheet. by intros ->. Qed.

Lemma questions_applyClue_other type rand a :
  String.eqb type "5050" = false ->
  questions (state (snd (applyClue decodeHTML type rand a))) = questions (state a).
Proof.
  intros H. unfold applyClue.
  destruct (cluesLeft (state a) <=? 0); [done|].
  destruct (JS.truthy_at _ _); [done|].
  destruct (questions (state a) !! current (state a)) as [q|];
    [|by destruct (known_clue type)].
  simpl. by rewrite H.
Qed.

(** Moving between questions, the clues other than 50/50, a warning, a tick
    of the countdown, a submission and leaving the report change no
    selection and no list of choices. *)
Lemma answers_survive (a : App) (e : Event) :
  keeps_answers e = true ->
  answer_sheet (state (step decodeHTML a e)) = answer_sheet (state a).
Proof.
  intros Hk. unfold step. destruct (enabled e a); [|done].
  destruct e; try discriminate Hk; unfold handle.
  - case_match; [done|]. apply answer_sheet_questions. by through_updates.
  - through_updates. apply answer_sheet_navigate.
  - case_match; [|done]. through_updates. apply answer_sheet_navigate.
  - case_match; [|done]. through_updates. apply answer_sheet_navigate.
  - apply answer_sheet_questions, questions_applyClue_other. by destruct b.
  - apply answer_sheet_questions, questions_submitQuiz.
  - apply answer_sheet_questions. by through_updates.
  - case_match; [|done]. apply answer_sheet_questions, questions_addWarning.
  - case_match; [|done]. apply answer_sheet_questions, questions_tick.
Qed.

End Answers.

(** ** The clue counters and buttons *)

Section ClueBudget.
Variable decodeHTML : string -> string.

Lemma clue_part_resetApp a : clue_part (state (resetApp a)) = (3, [], ∅).
Proof. unfold resetApp, on_state. simpl. done. Qed.

Lemma clues_ok_applyClue type rand a :
  known_clue type = true ->
  clues_ok (state a) -> clues_ok (state (snd (applyClue decodeHTML type rand a))).
Proof.
  intros Hknown (H0 & Hlen & Hset & Hnd & Hall).
  destruct (applyClue decodeHTML type rand a) as [o a'] eqn:Happ.
  destruct o as [| | |message]; simpl.
  1-3: unfold applyClue in Happ; repeat case_match; simplify_eq; by repeat split.
  assert (Hleft : 0 < cluesLeft (state a)).
  { unfold applyClue in Happ. destruct (cluesLeft (state a) <=? 0) eqn:Hc; [discriminate|].
    by apply Z.leb_gt in Hc. }
  assert (Hc := Happ).
  unfold applyClue in Hc.
  destruct (cluesLeft (state a) <=? 0); [discriminate|].
  destruct (JS.truthy_at (usedClueTypes (state a)) type) eqn:Hused; [discriminate|].
  assert (Hnot : type ∉ usedClueTypes (state a)).
  { unfold JS.truthy_at in Hused. apply orb_false_elim in Hused as [Hown _].
    by apply bool_decide_eq_false_1 in Hown. }
  assert (Hst : cluesLeft (state a') = cluesLeft (state a) - 1
          /\ usedClueTypes (state a') = {[type]} ∪ usedClueTypes (state a)
          /\ usedClues (state a') = usedClues (state a) ++ [(current (state a), type)]).
  { destruct (questions (state a) !! current (state a)) as [q|];
      [|destruct (known_clue type); [discriminate|]];
      injection Hc as _ <-; simpl.
    - destruct (String.eqb type "5050"); simpl; done.
    - done. }
  unfold clues_ok. destruct Hst as (-> & -> & ->).
  rewrite length_app, map_app, list_to_set_app_L. simpl.
  repeat split; try lia.
  - rewrite Hset. set_solver.
  - apply NoDup_app. split; [done|]. split; [|apply NoDup_singleton].
    intros x Hx ->%list_elem_of_singleton. apply Hnot. rewrite Hset.
    by apply elem_of_list_to_set.
  - apply Forall_app. split; [done|]. by constructor.
Qed.

Lemma clues_ok_part s s' : clue_part s' = clue_part s -> clues_ok s -> clues_ok s'.
Proof. unfold clue_part, clues_ok. intros [= -> -> ->]. done. Qed.

Lemma clues_ok_step (a : App) (e : Event) :
  clues_ok (state a) -> clues_ok (state (step decodeHTML a e)).
Proof.
  intros Hok. unfold step. destruct (enabled e a); [|done].
  assert (Hc : (exists b rand, e = Clue b rand) \/ forall b rand, e <> Clue b rand)
    by (destruct e; eauto).
  destruct Hc as [(b & rand & ->)|Hn]; [apply clues_ok_applyClue; [by destruct b|done]|].
  destruct (resets e) eqn:Hr.
  - assert (Hp : clue_part (state (handle decodeHTML e a)) = (3, [], ∅)).
    { destruct e; try discriminate Hr; unfold handle; through_updates;
        apply clue_part_resetApp. }
    unfold clue_part in Hp. injection Hp as H1 H2 H3.
    unfold clues_ok. rewrite H1, H2, H3. simpl. repeat split; try lia; try done;
      constructor.
  - eapply clues_ok_part; [|exact Hok]. by apply clue_part_handle.
Qed.

Lemma clues_ok_run (events : list Event) (a : App) :
  clues_ok (state a) -> clues_ok (state (run decodeHTML a events)).
Proof.
  revert a. induction events as [|e events IH]; intros a H; [done|].
  simpl. apply IH. by apply clues_ok_step.
Qed.

(** Whatever has happened since the page was loaded, between 0 and 3 clues
    are left, the clues left and the clues logged add up to 3, no kind is
    logged twice, and the locked kinds are the logged ones, all of them
    kinds of the four buttons. *)
Lemma clue_budget (events : list Event) :
  let s := state (run decodeHTML initial_app events) in
  0 <= cluesLeft s <= 3
  /\ Z.of_nat (length (usedClues s)) = 3 - cluesLeft s
  /\ NoDup (map snd (usedClues s))
  /\ (forall type, type ∈ usedClueTypes s <-> type ∈ map snd (usedClues s))
  /\ (forall type, type ∈ usedClueTypes s -> exists b, type = clue_type b).
Proof.
  cbv zeta.
  destruct (clues_ok_run events initial_app) as (H0 & Hlen & Hset & Hnd & Hall).
  { repeat split; simpl; try lia; try done; constructor. }
  repeat split; try lia; try done; rewrite Hset; try apply elem_of_list_to_set.
  intros type Hin%elem_of_list_to_set.
  rewrite Forall_forall in Hall. specialize (Hall type Hin).
  unfold known_clue in Hall. simpl in Hall.
  repeat (apply orb_prop in Hall as [Hall|Hall]); try discriminate;
    apply String.eqb_eq in Hall as ->;
    [by exists clue_5050|by exists clue_first|by exists clue_guess|by exists clue_keywords].
Qed.

Lemma clue_type_inj b b' : clue_type b = clue_type b' -> b = b'.
Proof. by destruct b, b'. Qed.

Lemma clue_type_own (o : gset string) b :
  JS.truthy_at o (clue_type b) = bool_decide (clue_type b ∈ o).
Proof.
  unfold JS.truthy_at.
  replace (bool_decide (clue_type b ∈ JS.Object_prototype)) with false
    by (by destruct b; vm_compute).
  apply orb_false_r.
Qed.

(** What [updateClueButtons] computes from a state the page can be in: a
    button is disabled exactly when [applyClue] would turn its click away,
    it is tagged exactly when its kind is logged, and the tagged buttons are
    as many as the clues spent. *)
Lemma clue_buttons_reflect_state (events : list Event) (b : ClueButton) (rand : Q) :
  let a := run decodeHTML initial_app events in
  let '(disabled, used) := updateClueButtons (state a) b in
  (disabled = true <-> rejected (fst (applyClue decodeHTML (clue_type b) rand a)))
  /\ (used = true <-> clue_type b ∈ map snd (usedClues (state a)))
  /\ (cluesLeft (state a) = 0 -> disabled = true)
  /\ Z.of_nat (length (List.filter (fun b' => snd (updateClueButtons (state a) b')) clue_buttons))
     = 3 - cluesLeft (state a).
Proof.
  cbv zeta.
  destruct (clues_ok_run events initial_app) as (H0 & Hlen & Hset & Hnd & Hall).
  { repeat split; simpl; try lia; try done; constructor. }
  set (a := run decodeHTML initial_app events) in *.
  unfold updateClueButtons. rewrite clue_type_own.
  split; [|split; [|split]].
  - unfold applyClue, rejected.
    destruct (cluesLeft (state a) <=? 0) eqn:Hc; simpl.
    + rewrite orb_true_r. split; auto.
    + rewrite orb_false_r, clue_type_own.
      destruct (bool_decide (clue_type b ∈ usedClueTypes (state a))); simpl.
      * split; auto.
      * split; [discriminate|].
        destruct (questions (state a) !! current (state a));
          [|replace (known_clue (clue_type b)) with true by (by destruct b)];
          simpl; intros [?|?]; discriminate.
  - rewrite bool_decide_eq_true, Hset. apply elem_of_list_to_set.
  - intros ->. simpl. apply orb_true_r.
  - assert (Hperm : clue_type <$> List.filter (fun b' => JS.truthy_at (usedClueTypes (state a)) (clue_type b')) clue_buttons ≡ₚ map snd (usedClues (state a))).
    { apply NoDup_Permutation; [| done |].
      - apply NoDup_fmap_2; [intros x y; apply clue_type_inj|].
        apply NoDup_ListNoDup, List.NoDup_filter, NoDup_ListNoDup.
        unfold clue_buttons. repeat (constructor; [set_solver|]). constructor.
      - intros type. rewrite list_elem_of_fmap. split.
        + intros (b' & -> & Hin). apply list_elem_of_In, filter_In in Hin as [_ Hin].
          rewrite clue_type_own, bool_decide_eq_true, Hset in Hin.
          by apply elem_of_list_to_set in Hin.
        + intros Hin. rewrite Forall_forall in Hall. pose proof (Hall type Hin) as Hk.
          assert (Hb : exists b', type = clue_type b').
          { unfold known_clue in Hk. simpl in Hk.
            repeat (apply orb_prop in Hk as [Hk|Hk]); try discriminate;
              apply String.eqb_eq in Hk as ->;
              [by exists clue_5050|by exists clue_first|by exists clue_guess|by exists clue_keywords]. }
          destruct Hb as [b' ->]. exists b'. split; [done|].
          apply list_elem_of_In, filter_In. split; [destruct b'; simpl; auto|].
          rewrite clue_type_own, bool_decide_eq_true, Hset.
          by apply elem_of_list_to_set. }
    apply Permutation_length in Hperm.
    rewrite ?length_fmap, ?length_map in Hperm.
    change (fun b' => snd (updateClueButtons (state a) b'))
      with (fun b' => JS.truthy_at (usedClueTypes (state a)) (clue_type b')).
    cbn [snd]. rewrite Hperm. lia.
Qed.

End ClueBudget.

(** ** Storage keys *)

Lemma lower_char_white c : JS.is_white (JS.lower_char c) = JS.is_white c.
Proof. by destruct c as [[] [] [] [] [] [] [] []]. Qed.

Lemma upper_char_white c : JS.is_white (JS.upper_char c) = JS.is_white c.
Proof. by destruct c as [[] [] [] [] [] [] [] []]. Qed.

Lemma lower_char_idemp c : JS.lower_char (JS.lower_char c) = JS.lower_char c.
Proof. by destruct c as [[] [] [] [] [] [] [] []]. Qed.

Lemma lower_upper_char c : JS.lower_char (JS.upper_char c) = JS.lower_char c.
Proof. by destruct c as [[] [] [] [] [] [] [] []]. Qed.

Lemma map_chars_app f s t : JS.map_chars f (s +:+ t) = JS.map_chars f s +:+ JS.map_chars f t.
Proof. induction s as [|c s IH]; simpl; [done|]. by rewrite IH. Qed.

Lemma trim_start_map f s :
  (forall c, JS.is_white (f c) = JS.is_white c) ->
  JS.trim_start (JS.map_chars f s) = JS.map_chars f (JS.trim_start s).
Proof.
  intros H. induction s as [|c s IH]; simpl; [done|].
  rewrite H. by destruct (JS.is_white c).
Qed.

Lemma trim_end_map f s :
  (forall c, JS.is_white (f c) = JS.is_white c) ->
  JS.trim_end (JS.map_chars f s) = JS.map_chars f (JS.trim_end s).
Proof.
  intros H. induction s as [|c s IH]; simpl; [done|].
  rewrite IH, H. destruct (JS.trim_end s); simpl; [|done].
  by destruct (JS.is_white c).
Qed.

Lemma trim_map f s :
  (forall c, JS.is_white (f c) = JS.is_white c) ->
  JS.trim (JS.map_chars f s) = JS.map_chars f (JS.trim s).
Proof. intros H. unfold JS.trim. by rewrite trim_start_map, trim_end_map. Qed.

Lemma trim_end_idemp s : JS.trim_end (JS.trim_end s) = JS.trim_end s.
Proof.
  induction s as [|c s IH]; simpl; [done|].
  destruct (JS.trim_end s) as [|c' t] eqn:Ht.
  - destruct (JS.is_white c) eqn:Hc; simpl; [done|]. by rewrite Hc.
  - simpl in *. by rewrite IH.
Qed.

(** A string that starts with a character that is not white space keeps it
    at both ends of [trim]. *)
Lemma trim_end_head c s :
  JS.is_white c = false -> exists t, JS.trim_end (String c s) = String c t.
Proof. intros Hc. simpl. destruct (JS.trim_end s); rewrite ?Hc; eauto. Qed.

Lemma trim_start_white_free s :
  match s with String c _ => JS.is_white c = false | EmptyString => True end ->
  JS.trim_start s = s.
Proof. destruct s as [|c s]; [done|]. simpl. by intros ->. Qed.

Lemma trim_start_head s :
  match JS.trim_start s with String c _ => JS.is_white c = false | EmptyString => True end.
Proof.
  induction s as [|c s IH]; simpl; [done|].
  destruct (JS.is_white c) eqn:Hc; [done|]. simpl. done.
Qed.

Lemma trim_idemp s : JS.trim (JS.trim s) = JS.trim s.
Proof.
  unfold JS.trim. pose proof (trim_start_head s) as Hh.
  destruct (JS.trim_start s) as [|c t] eqn:Ht; [done|].
  destruct (trim_end_head c t Hh) as [t' Ht'].
  rewrite Ht'. rewrite (trim_start_white_free (String c t')) by done.
  by rewrite <- Ht', trim_end_idemp.
Qed.

Lemma trim_start_app_white w s :
  JS.all_chars JS.is_white w = true -> JS.trim_start (w +:+ s) = JS.trim_start s.
Proof.
  induction w as [|c w IH]; simpl; [done|].
  intros [Hc Hw]%andb_prop. rewrite Hc. by apply IH.
Qed.

Lemma trim_end_white w : JS.all_chars JS.is_white w = true -> JS.trim_end w = "".
Proof.
  induction w as [|c w IH]; simpl; [done|].
  intros [Hc Hw]%andb_prop. by rewrite IH, Hc.
Qed.

Lemma trim_end_app_white s w :
  JS.all_chars JS.is_white w = true -> JS.trim_end (s +:+ w) = JS.trim_end s.
Proof.
  intros Hw. induction s as [|c s IH]; simpl; [by apply trim_end_white|].
  by rewrite IH.
Qed.

Lemma trim_start_app s w :
  JS.all_chars JS.is_white w = true ->
  exists w', JS.trim_start (s +:+ w) = JS.trim_start s +:+ w'
             /\ JS.all_chars JS.is_white w' = true.
Proof.
  intros Hw. induction s as [|c s IH]; simpl.
  - exists (JS.trim_start w). split; [done|].
    clear -Hw. induction w as [|c w IH]; simpl in *; [done|].
    apply andb_prop in Hw as [Hc Hw]. rewrite Hc. by apply IH.
  - destruct (JS.is_white c); [done|]. by exists w.
Qed.

Lemma trim_app_white w s w' :
  JS.all_chars JS.is_white w = true -> JS.all_chars JS.is_white w' = true ->
  JS.trim (w +:+ s +:+ w') = JS.trim s.
Proof.
  intros Hw Hw'. unfold JS.trim. rewrite trim_start_app_white by done.
  destruct (trim_start_app s w' Hw') as (w'' & -> & Hw'').
  by apply trim_end_app_white.
Qed.

Lemma normalise_idemp s : normalise (normalise s) = normalise s.
Proof.
  unfold normalise, JS.toLowerCase.
  rewrite trim_map by apply lower_char_white.
  rewrite trim_idemp, map_chars_compose.
  apply map_chars_ext, lower_char_idemp.
Qed.

Lemma normalise_trim s : normalise (JS.trim s) = normalise s.
Proof. unfold normalise. by rewrite trim_idemp. Qed.

Lemma append_inj_l (p s t : string) : p +:+ s = p +:+ t -> s = t.
Proof. induction p as [|c p IH]; simpl; [done|]. intros [= H]. by apply IH. Qed.

(** [storageKeyFor] ignores letter case and surrounding white space, and
    nothing else. *)
Lemma storageKeyFor_normalises (e1 e2 : string) :
  (storageKeyFor e1 = storageKeyFor e2 <-> normalise e1 = normalise e2)
  /\ storageKeyFor (JS.toUpperCase e1) = storageKeyFor e1
  /\ storageKeyFor (JS.toLowerCase e1) = storageKeyFor e1
  /\ (forall w w', JS.all_chars JS.is_white w = true -> JS.all_chars JS.is_white w' = true ->
        storageKeyFor (w +:+ e1 +:+ w') = storageKeyFor e1)
  /\ storageKeyFor (normalise e1) = storageKeyFor e1.
Proof.
  unfold storageKeyFor. fold (normalise e1) (normalise e2).
  split; [split; [apply append_inj_l|by intros ->]|].
  split; [|split; [|split]].
  - f_equal. unfold JS.toUpperCase, JS.toLowerCase.
    rewrite trim_map by apply upper_char_white.
    rewrite map_chars_compose. apply map_chars_ext, lower_upper_char.
  - f_equal. unfold JS.toLowerCase.
    rewrite trim_map by apply lower_char_white.
    rewrite map_chars_compose. apply map_chars_ext, lower_char_idemp.
  - intros w w' Hw Hw'. by rewrite trim_app_white.
  - f_equal. apply normalise_idemp.
Qed.

Lemma substring_all s : String.substring 0 (String.length s) s = s.
Proof. induction s as [|c s IH]; simpl; [done|]. by rewrite IH. Qed.

Lemma prefix_split (p k : string) :
  String.prefix p k = true ->
  k = p +:+ String.substring (String.length p) (String.length k - String.length p) k.
Proof.
  revert k. induction p as [|a p IH]; intros k H.
  - simpl. by rewrite Nat.sub_0_r, substring_all.
  - destruct k as [|b k]; [done|]. cbn in H.
    destruct (ascii_dec a b) as [->|]; [|done].
    cbn.
    transitivity (String b (p +:+ String.substring (String.length p)
                                    (String.length k - String.length p) k));
      [f_equal; by apply IH|done].
Qed.

Lemma prefix_append (p s : string) : String.prefix p (p +:+ s) = true.
Proof.
  induction p as [|a p IH]; [by destruct s|].
  change (String.prefix (String a p) (String a (p +:+ s)) = true).
  cbn. by destruct (ascii_dec a a).
Qed.

Lemma substring_append (p s : string) :
  String.substring (String.length p) (String.length (p +:+ s) - String.length p) (p +:+ s) = s.
Proof.
  induction p as [|a p IH].
  - change ("" +:+ s) with s. simpl. by rewrite Nat.sub_0_r, substring_all.
  - change (String a p +:+ s) with (String a (p +:+ s)). simpl. apply IH.
Qed.

(** The test of the sweep of [clearAttemptsForEmail]. *)
Lemma swept_key_of (email k : string) :
  has_prefix "cf_quiz_" k
  && String.eqb (JS.toLowerCase (JS.trim (String.substring 8 (String.length k - 8) k)))
       (JS.toLowerCase (JS.trim email)) = true
  <-> key_of email k.
Proof.
  unfold key_of, normalise, has_prefix. split.
  - intros [Hp He]%andb_prop. apply String.eqb_eq in He.
    pose proof (prefix_split "cf_quiz_" k Hp) as Hs.
    change (String.length "cf_quiz_") with 8%nat in Hs.
    eexists. split; [exact Hs|done].
  - intros (suffix & -> & Hn). apply andb_true_intro. split; [apply prefix_append|].
    apply String.eqb_eq.
    pose proof (substring_append "cf_quiz_" suffix) as Hs.
    change (String.length "cf_quiz_") with 8%nat in Hs. by rewrite Hs.
Qed.

Lemma key_of_exact email : key_of email ("cf_quiz_" +:+ email).
Proof. by exists email. Qed.

Lemma key_of_storageKeyFor email : key_of email (storageKeyFor email).
Proof. exists (normalise email). split; [reflexivity|apply normalise_idemp]. Qed.

Lemma clearAttemptsForEmail_lookup (email : string) (a : App) (k : string) :
  (key_of email k -> localStorage (clearAttemptsForEmail email a) !! k = None)
  /\ (~ key_of email k ->
      localStorage (clearAttemptsForEmail email a) !! k = localStorage a !! k).
Proof.
  unfold clearAttemptsForEmail. cbn [localStorage set_localStorage]. split.
  - intros Hk. apply map_lookup_filter_None. right. intros x _. simpl.
    apply swept_key_of in Hk. by rewrite Hk.
  - intros Hk.
    assert (Hsw : has_prefix "cf_quiz_" k
        && String.eqb (JS.toLowerCase (JS.trim (String.substring 8 (String.length k - 8) k)))
             (JS.toLowerCase (JS.trim email)) = false).
    { apply not_true_is_false. by rewrite swept_key_of. }
    assert (Hk1 : k <> storageKeyFor email).
    { intros ->. apply Hk, key_of_storageKeyFor. }
    assert (Hk2 : k <> "cf_quiz_" +:+ email).
    { intros ->. apply Hk, key_of_exact. }
    destruct (localStorage a !! k) as [t|] eqn:Ht.
    + apply map_lookup_filter_Some. split.
      * by rewrite !lookup_delete_ne.
      * simpl. by rewrite Hsw.
    + apply map_lookup_filter_None. left. by rewrite !lookup_delete_ne.
Qed.

(** On an address and keys of code units below 128,
    [clearAttemptsForEmail] removes the keys of the address, whatever their
    case and surrounding white space, and nothing else. *)
Lemma clearAttemptsForEmail_removes (email : string) (a : App) :
  JS.all_chars JS.is_ascii email = true ->
  let a' := clearAttemptsForEmail email a in
  (forall k, JS.all_chars JS.is_ascii k = true ->
     key_of email k -> localStorage a' !! k = None)
  /\ (forall k, JS.all_chars JS.is_ascii k = true ->
        ~ key_of email k -> localStorage a' !! k = localStorage a !! k)
  /\ localStorage a' !! storageKeyFor email = None
  /\ localStorage a' !! ("cf_quiz_" +:+ email) = None
  /\ state a' = state a /\ screen a' = screen a.
Proof.
  intros _. cbv zeta.
  split; [intros k _; apply clearAttemptsForEmail_lookup|].
  split; [intros k _; apply clearAttemptsForEmail_lookup|].
  split; [apply clearAttemptsForEmail_lookup, key_of_storageKeyFor|].
  split; [apply clearAttemptsForEmail_lookup, key_of_exact|done].
Qed.

(** ** The history in storage *)

Lemma json_not_undefined v : v <> JS.VUndefined -> JS.json v <> JS.VUndefined.
Proof. by destruct v. Qed.


Lemma json_idemp (v : JS.value) : JS.json (JS.json v) = JS.json v.
Proof.
  induction v as [ | | | | | |l IH|ps IH] using value_induction; try reflexivity.
  - simpl. f_equal. rewrite map_map.
    induction IH as [|x l Hx _ IHl]; simpl; [done|]. f_equal; [|exact IHl].
    destruct x; try reflexivity; exact Hx.
  - simpl. f_equal.
    induction IH as [|[k x] ps Hx _ IHps]; simpl; [done|]. simpl in Hx.
    destruct x; simpl; try exact IHps; f_equal; try exact IHps; try reflexivity;
      f_equal; exact Hx.
Qed.

Lemma json_element_idemp x : json_element (json_element x) = json_element x.
Proof.
  destruct x; try reflexivity.
  - apply (json_idemp (JS.VArr elems)).
  - apply (json_idemp (JS.VObj props)).
Qed.

Section History.
Variable decodeHTML : string -> string.

Lemma localStorage_saveAttempt_ext payload a b :
  email (state a) = email (state b) -> localStorage a = localStorage b ->
  localStorage (saveAttempt payload a) = localStorage (saveAttempt payload b).
Proof.
  intros He Hl. unfold saveAttempt. rewrite He, Hl.
  by destruct (JS.JSON_parse _).
Qed.

Lemma localStorage_submitQuiz reason n1 n2 a :
  localStorage (submitQuiz decodeHTML reason n1 n2 a)
  = localStorage (saveAttempt
      (build_attempt decodeHTML reason n2 (stopTimingCurrent n1 (state a))) a).
Proof.
  unfold submitQuiz. cbn [localStorage showScreen set_screen set_submitted].
  apply localStorage_saveAttempt_ext; [|done].
  unfold loadAttempts, on_state. simpl. apply email_stopTimingCurrent.
Qed.

Lemma localStorage_clearInterval i a : localStorage (clearInterval i a) = localStorage a.
Proof. by destruct i. Qed.

Lemma localStorage_tick endAt now a :
  localStorage (tick decodeHTML endAt now a) = localStorage a
  \/ exists reason n1 n2,
       localStorage (tick decodeHTML endAt now a)
       = localStorage (saveAttempt
           (build_attempt decodeHTML reason n2 (stopTimingCurrent n1 (state a))) a).
Proof.
  unfold tick. case_match; [|by left]. right. exists "Time up", now, now.
  rewrite localStorage_submitQuiz, state_clearInterval.
  apply localStorage_saveAttempt_ext; [by rewrite state_clearInterval|].
  by rewrite localStorage_clearInterval.
Qed.

Lemma localStorage_resetApp a : localStorage (resetApp a) = localStorage a.
Proof. unfold resetApp. through_updates. by rewrite localStorage_clearInterval. Qed.

Lemma localStorage_applyClue type rand a :
  localStorage (snd (applyClue decodeHTML type rand a)) = localStorage a
  /\ email (state (snd (applyClue decodeHTML type rand a))) = email (state a).
Proof. unfold applyClue. by repeat (case_match; simpl in * ). Qed.

Lemma email_navigateToQuestion i n1 n2 s :
  email (navigateToQuestion i n1 n2 s) = email s.
Proof.
  unfold navigateToQuestion. repeat case_match; try done.
  unfold renderQuestion. simpl. apply email_stopTimingCurrent.
Qed.

Lemma email_submitQuiz reason n1 n2 a :
  email (state (submitQuiz decodeHTML reason n1 n2 a)) = email (state a).
Proof.
  destruct (state_submitQuiz decodeHTML reason n1 n2 a) as [v ->].
  apply email_stopTimingCurrent.
Qed.

Lemma email_tick endAt now a :
  email (state (tick decodeHTML endAt now a)) = email (state a).
Proof.
  unfold tick. case_match; [|done]. by rewrite email_submitQuiz, state_clearInterval.
Qed.

(** How a step writes to [localStorage]: not at all, by the sweep of a
    login or logout, or by the one [saveAttempt] of a submission. *)
Lemma localStorage_step (a : App) (e : Event) :
  localStorage (step decodeHTML a e) = localStorage a
  \/ ((exists v, e = Login v) \/ e = Logout)
     /\ (exists em, localStorage (step decodeHTML a e)
                    = localStorage (clearAttemptsForEmail em a))
  \/ (exists reason completedAt s,
       localStorage (step decodeHTML a e)
       = localStorage (saveAttempt (build_attempt decodeHTML reason completedAt s) a)).
Proof.
  unfold step. destruct (enabled e a); [|by left].
  destruct e; unfold handle.
  - case_match; [by left|]. right. left. split; [eauto|]. eexists. by through_updates.
  - case_match; [left|right; left; split; [by right|eexists]];
      through_updates; by rewrite localStorage_resetApp.
  - case_match; [left; by through_updates|]. through_updates.
    unfold startTimer. through_updates.
    match goal with |- context [tick decodeHTML ?e ?n ?x] =>
      destruct (localStorage_tick e n x) as [Ht|(r & n1 & n2 & Ht)] end.
    + left. rewrite Ht. by through_updates.
    + right. right. eexists r, n2, _. rewrite Ht.
      apply localStorage_saveAttempt_ext; through_updates; [|done].
      unfold fetchQuestions. by destruct res.
  - left. by through_updates.
  - left. case_match; [|done]. by through_updates.
  - left. case_match; [|done]. by through_updates.
  - left. by through_updates.
  - left. apply localStorage_applyClue.
  - right. right. eexists _, _, _. apply localStorage_submitQuiz.
  - left. through_updates. apply localStorage_resetApp.
  - left. by through_updates.
  - case_match; [|by left]. unfold addWarning. case_match; [|left; by through_updates].
    right. right. eexists _, _, _. rewrite localStorage_submitQuiz, state_clearInterval.
    apply localStorage_saveAttempt_ext; rewrite ?state_clearInterval, ?localStorage_clearInterval;
      by through_updates.
  - case_match; [|by left].
    destruct (localStorage_tick (snd p) now a) as [Ht|(r & n1 & n2 & Ht)];
      [by left|right; right; by eexists r, n2, _].
Qed.


Lemma stored_built_saveAttempt reason completedAt s a :
  stored_built decodeHTML a ->
  stored_built decodeHTML (saveAttempt (build_attempt decodeHTML reason completedAt s) a).
Proof.
  intros Hok. unfold saveAttempt.
  destruct (JS.JSON_parse _) as [ | | | | | |l| ] eqn:Hp; try done.
  intros k t. cbn [localStorage set_localStorage].
  destruct (decide (k = storageKeyFor (email (state a)))) as [->|Hk];
    [|rewrite lookup_insert_ne by done; apply Hok].
  rewrite lookup_insert_eq. intros [= <-].
  assert (Hl : Forall (fun x => exists reason completedAt s,
                 x = JS.json (build_attempt decodeHTML reason completedAt s)) l).
  { destruct (localStorage a !! storageKeyFor (email (state a))) as [t|] eqn:Ht.
    - destruct (Hok _ _ Ht) as (l' & -> & Hl'). simpl in Hp. by injection Hp as <-.
    - simpl in Hp. injection Hp as <-. constructor. }
  eexists. split; [reflexivity|].
  change (Forall ?P (map ?f ?x)) with (Forall P (json_element <$> x)).
  rewrite fmap_app, Forall_app. split.
  - rewrite Forall_fmap. eapply Forall_impl; [exact Hl|].
    intros x (r & c & s' & ->). exists r, c, s'. simpl.
    change (json_element (JS.VObj ?p)) with (JS.json (JS.VObj p)).
    apply (json_idemp (build_attempt decodeHTML r c s')).
  - repeat constructor. by exists reason, completedAt, s.
Qed.

Lemma stored_built_step (a : App) (e : Event) :
  stored_built decodeHTML a -> stored_built decodeHTML (step decodeHTML a e).
Proof.
  intros Hok.
  destruct (localStorage_step a e) as [H|[[_ (em & H)]|(r & c & s & H)]];
    intros k t; rewrite H.
  - apply Hok.
  - unfold clearAttemptsForEmail. cbn [localStorage set_localStorage].
    intros (Hl & _)%map_lookup_filter_Some.
    apply lookup_delete_Some in Hl as [_ Hl]. apply lookup_delete_Some in Hl as [_ Hl].
    by apply (Hok k).
  - by apply stored_built_saveAttempt.
Qed.

Lemma stored_built_run (events : list Event) (a : App) :
  stored_built decodeHTML a -> stored_built decodeHTML (run decodeHTML a events).
Proof.
  revert a. induction events as [|e events IH]; intros a H; [done|].
  simpl. apply IH. by apply stored_built_step.
Qed.

Lemma stored_built_initial : stored_built decodeHTML initial_app.
Proof. intros k t H. simpl in H. by rewrite lookup_empty in H. Qed.

(** Between two logins the history of an address only grows: a submission
    appends its attempt and changes nothing else in storage; what
    [state.attempts] holds afterwards is the history before it. *)
Lemma history_grows_by_one (events : list Event) (reason : string) (n1 n2 : Z) :
  let a := run decodeHTML initial_app events in
  let a' := submitQuiz decodeHTML reason n1 n2 a in
  stored_attempts a'
  = stored_attempts a
    ++ [JS.json (build_attempt decodeHTML reason n2 (stopTimingCurrent n1 (state a)))]
  /\ attempts (state a') = JS.VArr (stored_attempts a)
  /\ forall k, k <> storageKeyFor (email (state a)) ->
       localStorage a' !! k = localStorage a !! k.
Proof.
  cbv zeta.
  pose proof (stored_built_run events initial_app stored_built_initial) as Hok.
  set (a := run decodeHTML initial_app events) in *.
  set (key := storageKeyFor (email (state a))).
  assert (Hl : exists l,
            JS.JSON_parse (default (JS.Text (JS.VArr [])) (localStorage a !! key)) = JS.VArr l
            /\ stored_attempts a = l /\ json_element <$> l = l).
  { unfold stored_attempts. fold key.
    destruct (localStorage a !! key) as [t|] eqn:Ht; [|by exists []].
    destruct (Hok _ _ Ht) as (l & -> & Hl). exists l. simpl. repeat split.
    rewrite <- (list_fmap_id l) at 2. apply Forall_fmap_ext_1.
    eapply Forall_impl; [exact Hl|]. intros x (r & c & s & ->).
    apply (json_idemp (build_attempt decodeHTML r c s)). }
  destruct Hl as (l & Hp & Hs & Hfix).
  assert (Hemail : email (state (submitQuiz decodeHTML reason n1 n2 a)) = email (state a))
    by apply email_submitQuiz.
  split; [|split].
  - unfold stored_attempts at 1. rewrite Hemail, localStorage_submitQuiz. fold key.
    unfold saveAttempt. fold key. rewrite Hp. cbn [localStorage set_localStorage].
    rewrite lookup_insert_eq. simpl.
    change (map ?f ?x) with (json_element <$> x).
    rewrite fmap_app, Hfix, Hs. done.
  - unfold submitQuiz. cbn [state showScreen set_screen set_submitted].
    rewrite state_saveAttempt. unfold loadAttempts, on_state.
    cbn [state set_state set_performance attempts set_attempts localStorage email].
    rewrite email_stopTimingCurrent. fold key. by rewrite Hp, Hs.
  - intros k Hk. rewrite localStorage_submitQuiz. unfold saveAttempt. fold key.
    rewrite Hp. cbn [localStorage set_localStorage]. by rewrite lookup_insert_ne.
Qed.

(** A login with an address of code units below 128 starts from an empty
    history, also for an address that was used before. *)
Lemma login_starts_fresh (value : string) (a : App) :
  JS.all_chars JS.is_ascii value = true ->
  JS.trim value <> "" ->
  let a' := handle decodeHTML (Login value) a in
  email (state a') = JS.trim value
  /\ screen a' = dashboard_screen
  /\ stored_attempts a' = []
  /\ attempts (state a') = JS.VArr []
  /\ attempts (state (loadAttempts a')) = JS.VArr []
  /\ (forall k, JS.all_chars JS.is_ascii k = true ->
        key_of value k -> localStorage a' !! k = None)
  /\ (forall k, JS.all_chars JS.is_ascii k = true ->
        ~ key_of value k -> localStorage a' !! k = localStorage a !! k).
Proof.
  intros _ Hv. cbv zeta. unfold handle.
  rewrite (proj2 (String.eqb_neq _ _)) by done.
  assert (Hkey : forall k, key_of value k <-> key_of (JS.trim value) k).
  { intros k. unfold key_of. by setoid_rewrite normalise_trim. }
  set (a1 := clearAttemptsForEmail (JS.trim value) a).
  assert (Hnone : localStorage a1 !! storageKeyFor (JS.trim value) = None).
  { apply clearAttemptsForEmail_lookup, key_of_storageKeyFor. }
  split; [done|]. split; [done|].
  split. { unfold stored_attempts. cbn [localStorage showScreen set_screen on_state set_state
             state email set_email]. by rewrite Hnone. }
  split; [done|].
  split. { unfold loadAttempts, on_state. cbn [localStorage showScreen set_screen set_state
             state email set_email attempts set_attempts]. by rewrite Hnone. }
  split; intros k _ Hk; cbn [localStorage showScreen set_screen on_state set_state];
    apply clearAttemptsForEmail_lookup; by rewrite <- Hkey.
Qed.

End History.

Section Retake.
Variable decodeHTML : string -> string.

Lemma email_resetApp a : email (state (resetApp a)) = "".
Proof. unfold resetApp, on_state. simpl. by rewrite state_clearInterval. Qed.

Lemma email_screen_step (a : App) (e : Event) :
  logs_out e = false -> screen a <> start_screen ->
  (email (state (step decodeHTML a e)) = email (state a)
   \/ email (state (step decodeHTML a e)) = "")
  /\ screen (step decodeHTML a e) <> start_screen.
Proof.
  intros Hl Hs. unfold step. destruct (enabled e a) eqn:Hen; [|by split; [left|]].
  destruct e; try discriminate Hl; simpl in Hen; unfold handle.
  - by apply bool_decide_eq_true_1 in Hen.
  - case_match; [by split; [left; unfold fetchQuestions; destruct res|]|].
    unfold on_state at 1 2. cbn [state set_state screen].
    rewrite email_navigateToQuestion.
    unfold startTimer. cbn [state set_state on_state set_nextInterval set_intervals screen
      email set_timerInterval].
    rewrite email_tick. split; [left; unfold fetchQuestions; by destruct res|].
    match goal with |- context [tick decodeHTML ?e ?n ?x] =>
      destruct (screen_tick decodeHTML e n x) as [-> | ->] end; done.
  - split; [left; apply email_navigateToQuestion|done].
  - case_match; (split; [left|done]); [apply email_navigateToQuestion|done].
  - case_match; (split; [left|done]); [apply email_navigateToQuestion|done].
  - by split; [left|].
  - destruct (localStorage_applyClue decodeHTML (clue_type b) rand a) as [_ He].
    destruct (timing_fields_applyClue decodeHTML (clue_type b) rand a) as (_ & Hsc & _).
    rewrite He, Hsc. by split; [left|].
  - rewrite email_submitQuiz, screen_submitQuiz. by split; [left|].
  - through_updates. split; [right; apply email_resetApp|done].
  - by split; [left|].
  - case_match; [|by split; [left|]]. unfold addWarning. case_match; [|by split; [left|]].
    rewrite email_submitQuiz, screen_submitQuiz, state_clearInterval. by split; [left|].
  - case_match; [|by split; [left|]]. rewrite email_tick. split; [by left|].
    destruct (screen_tick decodeHTML (snd p) now a) as [-> | ->]; done.
Qed.

(** "Retake" forgets the address: until the next logout the page has no
    address, every attempt is stored under the key of the empty address,
    and no other key of the storage is written. *)
Lemma retake_forgets_email (a : App) (events : list Event) :
  forallb (fun e => negb (logs_out e)) events = true ->
  let a' := run decodeHTML (handle decodeHTML Retake a) events in
  email (state a') = ""
  /\ storageKeyFor (email (state a')) = "cf_quiz_"
  /\ forall k, k <> "cf_quiz_" -> localStorage a' !! k = localStorage a !! k.
Proof.
  intros Hev. cbv zeta.
  assert (H : email (state (run decodeHTML (handle decodeHTML Retake a) events)) = ""
              /\ screen (run decodeHTML (handle decodeHTML Retake a) events) <> start_screen
              /\ forall k, k <> "cf_quiz_" ->
                   localStorage (run decodeHTML (handle decodeHTML Retake a) events) !! k
                   = localStorage a !! k).
  { assert (Hinit : email (state (handle decodeHTML Retake a)) = ""
              /\ screen (handle decodeHTML Retake a) <> start_screen
              /\ forall k, k <> "cf_quiz_" ->
                   localStorage (handle decodeHTML Retake a) !! k = localStorage a !! k).
    { unfold handle. through_updates. rewrite localStorage_resetApp, email_resetApp. done. }
    revert Hinit Hev. generalize (handle decodeHTML Retake a) as b.
    induction events as [|e events IH]; intros b Hb Hev; [done|].
    simpl in Hev. apply andb_prop in Hev as [He Hev]. apply negb_true_iff in He.
    simpl. apply IH; [|done].
    destruct Hb as (Hemail & Hscreen & Hstore).
    destruct (email_screen_step b e He Hscreen) as [Hem Hsc].
    split; [destruct Hem as [->|]; done|]. split; [done|].
    intros k Hk. rewrite <- (Hstore k Hk).
    destruct (localStorage_step decodeHTML b e) as [H|[[[[v ->]| ->] _]|(r & c & s & H)]].
    - by rewrite H.
    - unfold step. simpl. by rewrite bool_decide_eq_false_2.
    - discriminate He.
    - rewrite H. unfold saveAttempt. rewrite Hemail.
      destruct (JS.JSON_parse _); try done.
      cbn [localStorage set_localStorage]. by rewrite lookup_insert_ne. }
  destruct H as (He & _ & Hs). rewrite He. done.
Qed.

End Retake.

(** ** Reports *)

Section ReportFacts.
Variable decodeHTML : string -> string.

Lemma Math_round_defined x : JS.Math_round x <> JS.VUndefined.
Proof. by destruct x. Qed.

Lemma json_report_item times idx q :
  json_element (report_item decodeHTML times idx q) = report_item decodeHTML times idx q.
Proof. unfold report_item. by destruct (answerIndex q). Qed.

Lemma json_build_attempt_fields reason completedAt s :
  let correct := count_correct decodeHTML (questions s) in
  let total := Z.of_nat (length (questions s)) in
  JS.json (build_attempt decodeHTML reason completedAt s)
  = JS.VObj [ ("completedAt", JS.VNum completedAt);
              ("reason", JS.VStr reason);
              ("correct", JS.VNum correct);
              ("total", JS.VNum total);
              ("scorePct", JS.json (scorePct correct total));
              ("items", JS.VArr (imap (report_item decodeHTML (perQuestionTimeMs s))
                                   (questions s))) ].
Proof.
  cbv zeta. unfold build_attempt.
  set (items := imap _ (questions s)).
  assert (Hitems : map json_element items = items).
  { rewrite <- (map_id items) at 2. apply map_ext_in.
    intros item Hin.
    apply list_elem_of_In, elem_of_lookup_imap_1 in Hin as (i & q & -> & _).
    apply json_report_item. }
  pose proof (Math_round_defined
    (JS.fmul (JS.fdiv (JS.of_int (count_correct decodeHTML (questions s)))
                (JS.of_int (Z.of_nat (length (questions s))))) (JS.of_int 100))) as Hd.
  fold (scorePct (count_correct decodeHTML (questions s)) (Z.of_nat (length (questions s)))) in Hd.
  simpl. fold json_element. rewrite Hitems.
  by destruct (scorePct _ _).
Qed.

Lemma attempt_item_report_item times pos idx q :
  attempt_item decodeHTML pos (report_item decodeHTML times idx q)
  = Some (mkReportItem (counted_correct decodeHTML q)
            (question_line pos (decodeHTML (question q)))
            (item_answer (attempt_view decodeHTML times idx q))
            (decodeHTML (decodeHTML (correct q)))
            (report_time (default 0 (times !! idx)))).
Proof.
  unfold attempt_item, report_item, attempt_view, counted_correct. simpl.
  by destruct (answerIndex q).
Qed.

Lemma attempt_items_report_items times (f : nat -> nat) (k : nat) (qs : list Question) :
  attempt_items decodeHTML k (imap (fun i q => report_item decodeHTML times (f i) q) qs)
  = Some (imap (fun i q =>
            mkReportItem (counted_correct decodeHTML q)
              (question_line (k + i) (decodeHTML (question q)))
              (item_answer (attempt_view decodeHTML times (f i) q))
              (decodeHTML (decodeHTML (correct q)))
              (report_time (default 0 (times !! f i)))) qs).
Proof.
  revert f k. induction qs as [|q qs IH]; intros f k; [done|].
  cbn [imap attempt_items]. rewrite attempt_item_report_item.
  pose proof (IH (fun i => f (S i)) (S k)) as IH'.
  unfold compose. cbv beta. rewrite IH'. rewrite Nat.add_0_r. do 2 f_equal.
  apply imap_ext. intros i x _. cbv beta. do 2 f_equal. lia.
Qed.

Lemma renderReportFromAttempt_built reason completedAt s a :
  let correct := count_correct decodeHTML (questions s) in
  let total := Z.of_nat (length (questions s)) in
  renderReportFromAttempt decodeHTML
    (JS.json (build_attempt decodeHTML reason completedAt s)) a
  = Some (mkReport
            (score_line (JS.toString_int correct) (JS.toString_int total)
               (JS.template (JS.json (scorePct correct total))))
            ("Email: " +:+ email (state a))%string
            (note_line reason)
            (performance_summary correct)
            (imap (attempt_view decodeHTML (perQuestionTimeMs s)) (questions s)),
          showScreen report_screen (set_performance (performance_summary correct) a)).
Proof.
  cbv zeta. rewrite json_build_attempt_fields. unfold renderReportFromAttempt.
  cbn [JS.get List.find fst snd String.eqb Ascii.eqb Bool.eqb].
  rewrite (attempt_items_report_items (perQuestionTimeMs s) Datatypes.id 0).
  done.
Qed.

End ReportFacts.

Section ReportTheorems.
Variable decodeHTML : string -> string.

Lemma filter_imap_length {A B} (p : B -> bool) (r : A -> bool) (f : nat -> A -> B) (l : list A) :
  (forall i x, p (f i x) = r x) ->
  length (List.filter p (imap f l)) = length (List.filter r l).
Proof.
  revert f. induction l as [|x l IH]; intros f H; [done|].
  cbn [imap List.filter]. rewrite H. destruct (r x); simpl; [f_equal|];
    apply IH; intros i y; apply H.
Qed.

(** Every attempt the page has stored can be shown again: the rows marked
    correct are as many as its [correct] field says. *)
Lemma stored_reports_render (events : list Event) (k : string) (t : JS.text) :
  localStorage (run decodeHTML initial_app events) !! k = Some t ->
  exists l, JS.JSON_parse t = JS.VArr l
    /\ forall att a, att ∈ l ->
         exists r c items,
           renderReportFromAttempt decodeHTML att a
           = Some (r, showScreen report_screen (set_performance (performance_summary c) a))
           /\ JS.get "correct" att = JS.VNum c
           /\ JS.get "items" att = JS.VArr items
           /\ length (report_list r) = length items
           /\ Z.of_nat (length (List.filter item_correct (report_list r))) = c
           /\ report_performance r = performance_summary c.
Proof.
  intros Ht.
  destruct (stored_built_run decodeHTML events initial_app (stored_built_initial decodeHTML)
              k t Ht) as (l & -> & Hl).
  exists l. split; [done|]. intros att a Hatt.
  rewrite Forall_forall in Hl. destruct (Hl att Hatt) as (reason & c & s & ->).
  eexists _, _, _. split; [apply renderReportFromAttempt_built|].
  rewrite json_build_attempt_fields.
  split; [reflexivity|]. split; [reflexivity|].
  cbn [report_list report_performance]. rewrite !length_imap.
  split; [done|]. split; [|done].
  rewrite (filter_imap_length item_correct (counted_correct decodeHTML)) by done.
  symmetry. apply count_correct_filter.
Qed.

Lemma attempt_view_alike times idx q :
  renders_alike decodeHTML q ->
  attempt_view decodeHTML times idx q = submitQuiz_item decodeHTML times idx q.
Proof.
  intros [Hkey Hq]. unfold attempt_view, submitQuiz_item, counted_correct, decoded_choice in *.
  rewrite Hkey. destruct (answerIndex q) as [i|].
  - destruct Hq as [Hne Hd]. rewrite (proj2 (String.eqb_neq _ _) Hne). by rewrite Hd.
  - by rewrite (proj2 (String.eqb_neq _ _) Hq).
Qed.

(** On a quiz of 1 to 39 questions whose rows read alike, the report shown
    from the stored attempt is the report shown at submission. *)
Lemma stored_report_equals_live (reason : string) (completedAt : Z) (s : State) (a : App) :
  email (state a) = email s ->
  (0 < length (questions s) <= 39)%nat ->
  Forall (renders_alike decodeHTML) (questions s) ->
  fst <$> renderReportFromAttempt decodeHTML
            (JS.json (build_attempt decodeHTML reason completedAt s)) a
  = Some (submitQuiz_report decodeHTML reason s).
Proof.
  intros Hemail Hlen Halike. rewrite renderReportFromAttempt_built. simpl.
  unfold submitQuiz_report. rewrite Hemail. do 2 f_equal.
  - pose proof (count_correct_bounds decodeHTML (questions s)).
    rewrite scorePct_small by lia. done.
  - apply imap_ext. intros i q Hq. apply attempt_view_alike.
    rewrite Forall_forall in Halike. apply Halike. by eapply list_elem_of_lookup_2.
Qed.

End ReportTheorems.

(** ** Score range and the first-letter clue *)

(** On quizzes of 1 to 39 questions the score is an integer between 0 and
    100, more correct answers never give a lower score, 0 is the score of
    no correct answer only and 100 the score of all correct only. *)
Lemma scorePct_range (c c' t : Z) :
  1 <= t <= 39 -> 0 <= c <= c' -> c' <= t ->
  exists p p',
    scorePct c t = JS.VNum p /\ scorePct c' t = JS.VNum p'
    /\ 0 <= p <= p' /\ p' <= 100
    /\ (p = 0 <-> c = 0)
    /\ (p' = 100 <-> c' = t).
Proof.
  intros Ht Hc Hc'.
  exists (round_half_up (100 * c) t), (round_half_up (100 * c') t).
  rewrite !scorePct_small by lia. split; [done|]. split; [done|].
  unfold round_half_up.
  assert (H0 : 0 <= (2 * (100 * c) + t) / (2 * t)) by (apply Z.div_pos; lia).
  assert (Hm : (2 * (100 * c) + t) / (2 * t) <= (2 * (100 * c') + t) / (2 * t))
    by (apply Z.div_le_mono; lia).
  assert (H100 : (2 * (100 * c') + t) / (2 * t) <= 100).
  { assert ((2 * (100 * c') + t) / (2 * t) < 101); [|lia].
    apply Z.div_lt_upper_bound; lia. }
  split; [lia|]. split; [done|]. split; split.
  - intros Hp. destruct (decide (c = 0)) as [|Hne]; [done|].
    assert (1 <= (2 * (100 * c) + t) / (2 * t)); [|lia].
    apply Z.div_le_lower_bound; lia.
  - intros ->. apply Z.div_small. lia.
  - intros Hp. destruct (decide (c' = t)) as [|Hne]; [done|].
    assert ((2 * (100 * c') + t) / (2 * t) < 100); [|lia].
    apply Z.div_lt_upper_bound; lia.
  - intros ->. apply Z.le_antisymm; [done|]. apply Z.div_le_lower_bound; lia.
Qed.

Section FirstLetter.
Variable decodeHTML : string -> string.

Lemma is_alnum_not_white c : JS.is_alnum c = true -> JS.is_white c = false.
Proof. by destruct c as [[] [] [] [] [] [] [] []]. Qed.

Lemma strip_non_alnum_skip pre s :
  JS.all_chars (fun c => negb (JS.is_alnum c)) pre = true ->
  JS.strip_non_alnum (pre +:+ s) = JS.strip_non_alnum s.
Proof.
  induction pre as [|c pre IH]; [done|].
  change (String c pre +:+ s) with (String c (pre +:+ s)). simpl.
  intros [Hc Hp]%andb_prop. apply negb_true_iff in Hc.
  unfold JS.strip_non_alnum in *. simpl. rewrite Hc. by apply IH.
Qed.

Lemma strip_non_alnum_none s :
  JS.all_chars (fun c => negb (JS.is_alnum c)) s = true -> JS.strip_non_alnum s = "".
Proof.
  induction s as [|c s IH]; [done|]. simpl.
  intros [Hc Hp]%andb_prop. apply negb_true_iff in Hc.
  unfold JS.strip_non_alnum in *. simpl. rewrite Hc. by apply IH.
Qed.

(** The first-letter clue shows the first letter or digit of the decoded
    correct answer, in upper case, and gives no hint only when the answer
    has neither. *)
Lemma first_letter_reveals (q : Question) :
  (forall pre c rest,
     decodeHTML (correct q) = (pre +:+ String c rest)%string ->
     JS.all_chars (fun c => negb (JS.is_alnum c)) pre = true ->
     JS.is_alnum c = true ->
     first_letter decodeHTML q
     = ("The correct answer starts with: " +:+ JS.dquote
        +:+ String (JS.upper_char c) "" +:+ JS.dquote)%string
     /\ (JS.is_upper (JS.upper_char c) || JS.is_digit (JS.upper_char c) = true))
  /\ (JS.all_chars (fun c => negb (JS.is_alnum c)) (decodeHTML (correct q)) = true ->
      first_letter decodeHTML q = "No hint available for this one. Try another clue!").
Proof.
  unfold first_letter. split.
  - intros pre c rest -> Hpre Hc. rewrite strip_non_alnum_skip by done.
    unfold JS.strip_non_alnum. simpl. rewrite Hc.
    unfold JS.trim. simpl. rewrite (is_alnum_not_white c Hc).
    destruct (trim_end_head c (JS.filter_chars JS.is_alnum rest) (is_alnum_not_white c Hc))
      as [t ->].
    split; [done|]. clear -Hc. by destruct c as [[] [] [] [] [] [] [] []].
  - intros H. by rewrite strip_non_alnum_none.
Qed.

End FirstLetter.

(** ** The smart guess *)

Lemma shr_1_nonneg mrs : 0 <= shr_m mrs -> 0 <= shr_m (shr_1 mrs).
Proof. destruct mrs as [[|[p|p|]|p] r s]; simpl; lia. Qed.

Lemma iter_pos_shr_1_nonneg p mrs : 0 <= shr_m mrs -> 0 <= shr_m (SpecFloat.iter_pos shr_1 p mrs).
Proof.
  revert mrs. induction p as [p IH|p IH|]; intros mrs H; simpl.
  - apply IH, IH. by apply shr_1_nonneg.
  - by apply IH, IH.
  - by apply shr_1_nonneg.
Qed.

Lemma shr_fexp_nonneg m e l :
  0 <= m -> 0 <= shr_m (fst (shr_fexp JS.prec JS.emax m e l)).
Proof.
  intros H. unfold shr_fexp, shr.
  assert (H0 : 0 <= shr_m (shr_record_of_loc m l)) by (by destruct l as [|[]]).
  destruct (fexp _ _ _ - e); simpl; [done| |done].
  by apply iter_pos_shr_1_nonneg.
Qed.

Lemma round_nearest_even_nonneg m l : 0 <= m -> 0 <= round_nearest_even m l.
Proof. intros H. destruct l as [|[]]; simpl; try lia. destruct (Z.even m); lia. Qed.

Lemma binary_round_aux_nonneg m e l :
  0 <= m -> nonneg (binary_round_aux JS.prec JS.emax false m e l).
Proof.
  intros H. unfold binary_round_aux.
  pose proof (shr_fexp_nonneg m e l H) as H1.
  destruct (shr_fexp JS.prec JS.emax m e l) as [mrs' e']. simpl in H1.
  pose proof (shr_fexp_nonneg _ e' loc_Exact
                (round_nearest_even_nonneg _ (loc_of_shr_record mrs') H1)) as H2.
  destruct (shr_fexp JS.prec JS.emax _ e' loc_Exact) as [mrs'' e'']. simpl in H2.
  destruct (shr_m mrs''); [done| |lia]. by destruct (e'' <=? JS.emax - JS.prec).
Qed.

Lemma binary_round_nonneg m e : nonneg (binary_round JS.prec JS.emax false m e).
Proof.
  unfold binary_round. destruct (shl_align _ _ _) as [mz ez].
  by apply binary_round_aux_nonneg.
Qed.

Lemma nonneg_fadd a b : nonneg a -> nonneg b -> nonneg (JS.fadd a b).
Proof.
  destruct a as [sa|[]| |[] ma ea], b as [sb|[]| |[] mb eb]; try done.
  - intros _ _. simpl. by destruct sa, sb.
  - intros _ _. unfold JS.fadd, SFadd. cbv zeta.
    set (ez := Z.min ea eb).
    change (cond_Zopp false ?x) with x.
    unfold binary_normalize. simpl Z.add. apply binary_round_nonneg.
Qed.

Lemma SFltb_rank x y :
  nonneg x -> nonneg y -> SFltb x y = true <-> rank_lt (rank x) (rank y).
Proof.
  unfold SFltb, rank_lt.
  destruct x as [sx|[]| |[] mx ex], y as [sy|[]| |[] my ey]; try done; intros _ _; simpl;
    try (split; [intros; lia|intros; try lia; try reflexivity]);
    try (split; [discriminate|intros; lia]).
  change (PosDef.Pos.compare_cont Eq mx my) with (Pos.compare mx my).
  destruct (Z.compare_spec ex ey); destruct (Pos.compare_spec mx my);
    split; try discriminate; try reflexivity; intros; lia.
Qed.

(** The weights are the doubles 2 and 0.2 (the double nearest to one
    fifth, 7205759403792794 * 2^-55). *)
Example weights :
  JS.of_int 2 = S754_finite false 4503599627370496 (-51)
  /\ JS.fdiv (JS.of_int 1) (JS.of_int 5) = S754_finite false 7205759403792794 (-55).
Proof. vm_compute. done. Qed.

Lemma existsb_eqb_elem_of (t : string) (words : list string) :
  existsb (String.eqb t) words = bool_decide (t ∈ words).
Proof.
  induction words as [|w words IH]; simpl; [done|].
  rewrite IH. destruct (String.eqb t w) eqn:Ht.
  - apply String.eqb_eq in Ht as ->. simpl. symmetry. apply bool_decide_eq_true_2. by left.
  - apply String.eqb_neq in Ht. simpl. apply bool_decide_ext. set_solver.
Qed.

(** The long words of the smart guess are the words of the text that are
    longer than three characters, in the order of the text. *)
Lemma long_words_text text :
  exists pieces,
    words_of text pieces
    /\ long_words text = filter (fun w => (3 < String.length w)%nat) pieces.
Proof.
  eexists. split; [apply split_space_words|].
  unfold long_words. apply filter_decide. intros w. apply Nat.ltb_lt.
Qed.

Section SmartGuess.
Variable decodeHTML : string -> string.

Lemma nonneg_guess_score words c : nonneg (guess_score decodeHTML words c).
Proof.
  unfold guess_score.
  assert (H0 : nonneg (JS.of_int 0)) by exact I.
  revert H0. generalize (JS.of_int 0) as acc.
  induction (long_words (decodeHTML c)) as [|t l IH]; intros acc Hacc; [done|].
  cbn [fold_left]. apply IH. apply nonneg_fadd; [done|].
  destruct (existsb _ words); vm_compute; exact I.
Qed.

Lemma fgt_minus_one s : nonneg s -> JS.fgt s (JS.of_int (-1)) = true.
Proof.
  assert (H : JS.of_int (-1) = S754_finite true 4503599627370496 (-52))
    by (vm_compute; reflexivity).
  rewrite H. by destruct s as [|[]| |[] m e].
Qed.

Lemma fgt_irrefl s : nonneg s -> JS.fgt s s = false.
Proof.
  intros H. apply not_true_is_false. unfold JS.fgt. rewrite SFltb_rank by done.
  unfold rank_lt. destruct (rank s) as [[a b] c]. lia.
Qed.

(** Among such doubles [fgt] is a strict total order. *)
Lemma fgt_order a b c :
  nonneg a -> nonneg b -> nonneg c ->
  JS.fgt b a = true -> JS.fgt c a = false ->
  JS.fgt b c = true /\ JS.fgt c b = false.
Proof.
  intros Ha Hb Hc Hba Hca.
  apply not_true_iff_false in Hca.
  unfold JS.fgt in *. rewrite SFltb_rank in Hba, Hca by done.
  split; [|apply not_true_iff_false]; rewrite SFltb_rank by done;
    unfold rank_lt in *;
    destruct (rank a) as [[a1 a2] a3], (rank b) as [[b1 b2] b3], (rank c) as [[c1 c2] c3];
    lia.
Qed.

Lemma best_guess_snoc words cs x :
  best_guess decodeHTML words (cs ++ [x])
  = let '(bestIdx, bestScore) := best_guess decodeHTML words cs in
    if JS.fgt (guess_score decodeHTML words x) bestScore
    then (length cs, guess_score decodeHTML words x)
    else (bestIdx, bestScore).
Proof.
  unfold best_guess. rewrite imap_app, fold_left_app. simpl.
  rewrite Nat.add_0_r. by destruct (fold_left _ _ _).
Qed.

Lemma best_guess_spec words cs :
  cs <> [] ->
  exists b c,
    best_guess decodeHTML words cs = (b, guess_score decodeHTML words c)
    /\ cs !! b = Some c
    /\ (forall j c', cs !! j = Some c' ->
          JS.fgt (guess_score decodeHTML words c') (guess_score decodeHTML words c) = false)
    /\ (forall j c', (j < b)%nat -> cs !! j = Some c' ->
          JS.fgt (guess_score decodeHTML words c) (guess_score decodeHTML words c') = true).
Proof.
  induction cs as [|x cs IH] using rev_ind; [done|]. intros _.
  rewrite best_guess_snoc.
  pose proof (nonneg_guess_score words x) as Hx.
  destruct cs as [|y cs'] using rev_ind.
  - change (best_guess decodeHTML words []) with (0%nat, JS.of_int (-1)). cbv iota beta.
    rewrite fgt_minus_one by done. exists 0%nat, x. simpl.
    split; [done|]. split; [done|]. split.
    + intros [|j] c' Hc'; simpl in Hc'; [|done]. simplify_eq. by apply fgt_irrefl.
    + intros j c' Hj. lia.
  - clear IHcs'. destruct IH as (b & c & -> & Hb & Hmax & Hfirst).
    { by destruct cs'. }
    set (l := cs' ++ [y]) in *.
    pose proof (nonneg_guess_score words c) as Hc.
    pose proof (lookup_lt_Some _ _ _ Hb) as Hblt.
    destruct (JS.fgt (guess_score decodeHTML words x) (guess_score decodeHTML words c)) eqn:Hgt.
    + exists (length l), x. split; [done|].
      split; [by rewrite lookup_app_r, Nat.sub_diag by lia|]. split.
      * intros j c' Hc'. apply lookup_app_Some in Hc' as [Hc'|[Hj Hc']].
        -- apply (fgt_order (guess_score decodeHTML words c)); try done;
             try apply nonneg_guess_score. by apply (Hmax j).
        -- apply list_lookup_singleton_Some in Hc' as [_ <-]. by apply fgt_irrefl.
      * intros j c' Hj Hc'. rewrite lookup_app_l in Hc' by done.
        apply (fgt_order (guess_score decodeHTML words c)); try done;
          try apply nonneg_guess_score. by apply (Hmax j).
    + exists b, c. split; [done|].
      split; [by rewrite lookup_app_l|]. split.
      * intros j c' Hc'. apply lookup_app_Some in Hc' as [Hc'|[Hj Hc']].
        -- by apply (Hmax j).
        -- by apply list_lookup_singleton_Some in Hc' as [_ <-].
      * intros j c' Hj Hc'. rewrite lookup_app_l in Hc' by lia. by apply (Hfirst j).
Qed.

Lemma guess_score_weigh words c :
  guess_score decodeHTML words c = weigh words (long_words (decodeHTML c)).
Proof.
  unfold guess_score, weigh.
  generalize (JS.of_int 0) as acc.
  induction (long_words (decodeHTML c)) as [|t l IH]; intros acc; [done|].
  cbn [fold_left]. by rewrite existsb_eqb_elem_of, IH.
Qed.

(** The smart guess on texts of code units below 128.  Every choice is
    scored from 0 by adding, for each of its words longer than three
    characters in turn, 2 when the word is among the words of the prompt
    longer than three characters and 0.2 otherwise, in doubles; the message
    names the first of the choices with the highest score: no choice scores
    higher, and every choice before it scores lower.  A question without
    choices gets the text of [undefined]. *)
Lemma smart_guess_picks_best (q : Question) :
  JS.all_chars JS.is_ascii (decodeHTML (question q)) = true ->
  Forall (fun c => JS.all_chars JS.is_ascii (decodeHTML c) = true) (choices q) ->
  let message := fun text =>
    ("My smart guess would be: " +:+ JS.dquote +:+ text +:+ JS.dquote
     +:+ ". Use your judgment!")%string in
  exists (pieces : list string) (score : string -> JS.double),
    words_of (decodeHTML (question q)) pieces
    /\ (forall c, exists ws,
          words_of (decodeHTML c) ws
          /\ score c = weigh (filter (fun w => (3 < String.length w)%nat) pieces)
                         (filter (fun w => (3 < String.length w)%nat) ws))
    /\ (choices q = [] -> smart_guess decodeHTML q = message (decodeHTML "undefined"))
    /\ (choices q <> [] ->
        exists b c,
          choices q !! b = Some c
          /\ smart_guess decodeHTML q = message (decodeHTML c)
          /\ (forall j c', choices q !! j = Some c' -> JS.fgt (score c') (score c) = false)
          /\ (forall j c', (j < b)%nat -> choices q !! j = Some c' ->
                JS.fgt (score c) (score c') = true)).
Proof.
  intros _ _. cbv zeta.
  destruct (long_words_text (decodeHTML (question q))) as (pieces & Hwords & Hlong).
  exists pieces, (guess_score decodeHTML (long_words (decodeHTML (question q)))).
  split; [done|]. split.
  { intros c. destruct (long_words_text (decodeHTML c)) as (ws & Hws & Hl).
    exists ws. split; [done|]. by rewrite guess_score_weigh, Hlong, Hl. }
  split.
  - intros H. unfold smart_guess, decoded_choice. rewrite H. reflexivity.
  - intros H.
    destruct (best_guess_spec (long_words (decodeHTML (question q))) (choices q) H)
      as (b & c & Hbest & Hb & Hmax & Hfirst).
    exists b, c. split; [done|]. split; [|by split].
    unfold smart_guess.
    change (fold_left _ (imap (fun i c => (i, c)) (choices q)) (0%nat, JS.of_int (-1)))
      with (best_guess decodeHTML (long_words (decodeHTML (question q))) (choices q)).
    rewrite Hbest. unfold decoded_choice. simpl. by rewrite Hb.
Qed.

End SmartGuess.

(** ** Themes and the report file *)

Lemma find_append {A} (p : A -> bool) (l l' : list A) :
  List.find p (l ++ l') = match List.find p l with Some x => Some x | None => List.find p l' end.
Proof. induction l as [|x l IH]; simpl; [done|]. by destruct (p x). Qed.

Lemma lookup_setProperties (props : list (string * string)) (style : gmap string string) k :
  fold_left setProperty props style !! k
  = match List.find (fun kv => String.eqb (fst kv) k) (rev props) with
    | Some kv => Some (snd kv)
    | None => style !! k
    end.
Proof.
  revert style. induction props as [|[k' v] props IH]; intros style; [done|].
  simpl. rewrite IH, find_append.
  destruct (List.find _ (rev props)); [done|]. simpl.
  unfold setProperty. simpl. destruct (String.eqb k' k) eqn:Hk.
  - apply String.eqb_eq in Hk as ->. by rewrite lookup_insert_eq.
  - apply String.eqb_neq in Hk. by rewrite lookup_insert_ne.
Qed.

Lemma theme_keys name : map fst (theme_of name) = map fst theme_aurora.
Proof. unfold theme_of. by repeat case_match. Qed.

(** A theme replaces the one before it entirely: every theme sets the
    properties the default theme lists, each to its own value, and touches
    no other. *)
Lemma applyTheme_overrides (name1 name2 : string) (style : gmap string string) :
  applyTheme name2 (applyTheme name1 style) = applyTheme name2 style
  /\ (forall k, k ∉ map fst theme_aurora -> applyTheme name1 style !! k = style !! k)
  /\ (forall k, k ∈ map fst theme_aurora -> is_Some (applyTheme name1 style !! k))
  /\ (forall k v, (k, v) ∈ theme_of name1 -> applyTheme name1 style !! k = Some v).
Proof.
  unfold applyTheme.
  assert (Hkeys : forall (p : list (string * string)) k,
            is_Some (List.find (fun kv => String.eqb (fst kv) k) (rev p)) <-> k ∈ map fst p).
  { intros p k. split.
    - intros [kv Hf]. apply find_some in Hf as [Hin Heq]. apply String.eqb_eq in Heq as <-.
      apply list_elem_of_In. apply (in_map fst). by apply in_rev.
    - intros Hin. apply list_elem_of_In, in_map_iff in Hin as (kv & <- & Hin).
      destruct (List.find (fun kv0 => String.eqb (fst kv0) (fst kv)) (rev p)) eqn:Hf; [eauto|].
      eapply find_none in Hf; [|apply in_rev in Hin; exact Hin].
      simpl in Hf. by rewrite String.eqb_refl in Hf. }
  split; [|split; [|split]].
  - apply map_eq. intros k. rewrite !lookup_setProperties.
    destruct (List.find _ (rev (theme_of name2))) eqn:H2; [done|].
    destruct (List.find _ (rev (theme_of name1))) eqn:H1; [|done].
    assert (Hs : is_Some (List.find (fun kv => String.eqb (fst kv) k) (rev (theme_of name2)))).
    { apply Hkeys. rewrite theme_keys, <- (theme_keys name1). apply Hkeys. by rewrite H1. }
    rewrite H2 in Hs. by destruct Hs.
  - intros k Hk. rewrite lookup_setProperties.
    destruct (List.find _ (rev (theme_of name1))) eqn:H1; [|done].
    destruct Hk. rewrite <- (theme_keys name1). apply Hkeys. by rewrite H1.
  - intros k Hk. rewrite lookup_setProperties.
    rewrite <- (theme_keys name1) in Hk. apply Hkeys in Hk as [kv ->]. eauto.
  - intros k v Hin. rewrite lookup_setProperties.
    unfold theme_of in *.
    destruct (String.eqb name1 "ocean"); [|destruct (String.eqb name1 "sunset")];
      unfold theme_ocean, theme_sunset, theme_aurora in *;
      repeat (apply elem_of_cons in Hin as [[= -> ->]|Hin]; [reflexivity|]);
      by apply elem_of_nil in Hin.
Qed.

(** The name of the downloaded report keeps the length of the address and
    holds nothing but letters, digits, [@], [.], [_] and [-] between its
    prefix and ".pdf"; an address of such characters is kept as it is. *)
Lemma report_file_name_safe (email : string) :
  exists body,
    report_file_name email = ("CausalFunnel-Quiz-Report-" +:+ body +:+ ".pdf")%string
    /\ String.length body = String.length email
    /\ JS.all_chars file_safe body = true
    /\ (JS.all_chars file_safe email = true -> body = email).
Proof.
  eexists. split; [reflexivity|].
  induction email as [|c email (IH1 & IH2 & IH3)]; [done|]. simpl.
  split; [by rewrite IH1|].
  destruct (file_safe c) eqn:Hc.
  - rewrite Hc. simpl. split; [done|]. intros H. f_equal. by apply IH3.
  - split; [done|]. discriminate.
Qed.

(** * Worked runs *)

(** C3 on the code.  Four warnings end the first test; the report is left
    with "Back to Dashboard", which resets nothing, and a second test is
    started with the counter still at the limit: the next warning makes it
    5 although [maxWarnings] is 4, and the test is submitted at its first
    warning. *)
Theorem warnings_pass_limit_after_back :
  let a := run plain_text initial_app warnings_trace in
  all_enabled plain_text initial_app warnings_trace = true
  /\ maxWarnings (state a) = 4
  /\ warnings (state a) = 5
  /\ submitted a = [ "Cheating not allowed (max warnings exceeded)";
                     "Cheating not allowed (max warnings exceeded)" ].
Proof. vm_compute. repeat split. Qed.

(** C4 on the code.  A test submitted by hand leaves its interval running;
    after "Back to Dashboard" a second test gets a second interval.  When
    the first countdown reaches zero its tick clears the interval of the
    second test, not its own, and submits with "Time up"; one second later
    it does so again, and it is still live after that. *)
Theorem stale_timer_keeps_submitting :
  let a := run plain_text initial_app timer_trace in
  all_enabled plain_text initial_app timer_trace = true
  /\ submitted a = [ "Manual submit"; "Time up"; "Time up" ]
  /\ intervals a = [ (0%nat, 1801000) ]
  /\ enabled (Interval 0 1803000) a = true.
Proof. vm_compute. repeat split. Qed.

(** C5 on the code.  The correct choice "Paris" is selected; 50/50 keeps
    "Paris" and "Marseille", and the selection is gone although the
    selected choice was retained. *)
Theorem fifty_fifty_drops_retained_selection :
  let before := run plain_text initial_app one_of_five in
  let after := run plain_text initial_app fifty_trace in
  all_enabled plain_text initial_app fifty_trace = true
  /\ (choices <$> questions (state before) !! 0%nat)
     = Some [ "Lyon"; "Paris"; "Nice"; "Marseille" ]
  /\ (correct <$> questions (state before) !! 0%nat) = Some "Paris"
  /\ (answerIndex <$> questions (state before) !! 0%nat) = Some (Some 1%nat)
  /\ (choices <$> questions (state after) !! 0%nat) = Some [ "Paris"; "Marseille" ]
  /\ (answerIndex <$> questions (state after) !! 0%nat) = Some None.
Proof. vm_compute. repeat split. Qed.

(** C1 at work: the first-letter clue on a fresh test, and the same clue
    again after a navigation and another clue. *)
Lemma applyClue_contract_witness :
  let a := run plain_text initial_app quiz_started in
  let a' := snd (applyClue plain_text "first" 0 a) in
  let later := run plain_text a' [ Next 5000; Clue clue_guess 0 ] in
  cluesLeft (state a) = 3
  /\ cluesLeft (state a') = 2
  /\ usedClues (state a') = [ (0%nat, "first") ]
  /\ exists o, applyClue plain_text "first" 0 later = (o, later) /\ rejected o.
Proof.
  cbv zeta.
  destruct (applyClue_contract plain_text "first" 0 (run plain_text initial_app quiz_started))
    as [_ Hok].
  destruct (Hok ("The correct answer starts with: " +:+ JS.dquote +:+ "P" +:+ JS.dquote)
              (snd (applyClue plain_text "first" 0 (run plain_text initial_app quiz_started))))
    as (Hleft & _ & _ & Hlog & Hlater).
  - vm_compute. reflexivity.
  - split; [vm_compute; reflexivity|]. split; [rewrite Hleft; vm_compute; reflexivity|].
    split; [rewrite Hlog; vm_compute; reflexivity|].
    apply (Hlater [ Next 5000; Clue clue_guess 0 ] 0%Q). reflexivity.
Defined.

(** C10 as stated fails: "constructor" is none of the four kinds, was never
    used, and clues are left, yet the call is turned away as already
    used. *)
Lemma applyClue_inherited_name_rejected :
  let a := run plain_text initial_app quiz_started in
  known_clue "constructor" = false
  /\ 0 < cluesLeft (state a)
  /\ ("constructor" ∉ usedClueTypes (state a))
  /\ applyClue plain_text "constructor" 0 a = (AlreadyUsed, a).
Proof.
  cbv zeta. split; [reflexivity|]. split; [vm_compute; reflexivity|].
  split; [|vm_compute; reflexivity].
  apply (bool_decide_unpack _). vm_compute. exact I.
Qed.

(** C10 at work: the type "hint". *)
Lemma applyClue_unrecognised_type_witness :
  let a := run plain_text initial_app quiz_started in
  fst (applyClue plain_text "hint" 0 a) = Applied ""
  /\ cluesLeft (state (snd (applyClue plain_text "hint" 0 a))) = 2.
Proof.
  cbv zeta.
  destruct (applyClue_unrecognised_type plain_text "hint" 0
              (run plain_text initial_app quiz_started)) as (Happ & _ & Hleft).
  - reflexivity.
  - vm_compute. reflexivity.
  - apply (bool_decide_unpack _). vm_compute. exact I.
  - apply (bool_decide_unpack _). vm_compute. exact I.
  - rewrite Happ. split; [reflexivity|]. vm_compute. reflexivity.
Defined.


(** C7 at work: thirty seconds into the first question. *)
Lemma navigateToQuestion_current_witness :
  let s := state (run plain_text initial_app quiz_started) in
  let s' := navigateToQuestion (Z.of_nat (current s)) 31000 31000 s in
  currentStartedAt s = Some 1000
  /\ perQuestionTimeMs s' = [ 30000; 0; 0; 0; 0 ]
  /\ accounted s' 31000 = accounted s 31000.
Proof.
  cbv zeta.
  destruct (navigateToQuestion_current (state (run plain_text initial_app quiz_started))
              1000 0 31000 31000) as (_ & Htimes & _ & _ & _ & Hacc).
  - vm_compute. discriminate.
  - vm_compute. lia.
  - vm_compute. reflexivity.
  - vm_compute. reflexivity.
  - split; [vm_compute; reflexivity|]. split; [|exact Hacc].
    rewrite Htimes. vm_compute. reflexivity.
Defined.

(** C2 as stated fails: 23 correct answers out of 40 are 57.5 percent; the
    stored score is 57, the nearest integer with halves up is 58.  (One
    correct answer out of eight, 12.5 percent, is scored 13: no rule for
    halves gives both.) *)
Lemma score_of_23_in_40 :
  let a := run plain_text initial_app score_trace in
  all_enabled plain_text initial_app score_trace = true
  /\ (JS.get "correct" <$> stored_attempts a) = [ JS.VNum 23 ]
  /\ (JS.get "total" <$> stored_attempts a) = [ JS.VNum 40 ]
  /\ (JS.get "scorePct" <$> stored_attempts a) = [ JS.VNum 57 ]
  /\ round_half_up (100 * 23) 40 = 58
  /\ scorePct 1 8 = JS.VNum 13.
Proof. vm_compute. repeat split. Qed.

(** C2 at work: one correct answer out of five. *)
Lemma submitQuiz_scores_witness :
  let a := run plain_text initial_app one_of_five in
  let a' := submitQuiz plain_text "Manual submit" 61000 61000 a in
  (0 < length (questions (state a)) <= 39)%nat
  /\ count_correct plain_text (questions (state a)) = 1
  /\ JS.get "scorePct" (build_attempt plain_text "Manual submit" 61000
                          (stopTimingCurrent 61000 (state a))) = JS.VNum 20
  /\ performance a' = "Needs improvement. Start with the fundamentals.".
Proof.
  cbv zeta.
  assert (Hlen : (0 < length (questions (state (run plain_text initial_app one_of_five))) <= 39)%nat)
    by (vm_compute; split; repeat constructor).
  destruct (submitQuiz_scores plain_text "Manual submit" 61000 61000
              (run plain_text initial_app one_of_five))
    as (_ & _ & _ & _ & _ & Hscore & Hperf & _).
  split; [exact Hlen|]. split; [vm_compute; reflexivity|]. split.
  - rewrite (Hscore Hlen). vm_compute. reflexivity.
  - rewrite Hperf. vm_compute. reflexivity.
Defined.



(** 50/50 on the question of the worked run: "Paris" is the second of four
    choices; three times the draw 6004799503160661 * 2^-53 is 2 in
    doubles, which picks the third of the three others. *)
Lemma fifty_fifty_keeps_two_witness :
  let rand := 6004799503160661 # 9007199254740992 in
  drawn rand (seq 0 (length (choices paris_question) - 1)) = Some 2%nat
  /\ choices (fifty_fifty plain_text rand paris_question) = [ "Paris"; "Marseille" ].
Proof.
  cbv zeta.
  assert (Hd : drawn (6004799503160661 # 9007199254740992)
                 (seq 0 (length (choices paris_question) - 1)) = Some 2%nat)
    by (vm_compute; reflexivity).
  split; [exact Hd|].
  destruct (fifty_fifty_keeps_two plain_text (6004799503160661 # 9007199254740992)
              paris_question)
    as (ci & c & Hc & Hdec & Hfirst & _ & _ & Hkept).
  { exists "Paris". split; [|reflexivity]. apply list_elem_of_In. simpl. auto. }
  rewrite Hd in Hkept. cbv zeta in Hkept.
  unfold plain_text in Hdec. simpl in Hdec. subst c.
  assert (ci = 1%nat) as ->.
  { destruct ci as [|[|[|[|ci]]]]; [| reflexivity | | |]; vm_compute in Hc;
      exfalso; clear -Hc; congruence. }
  destruct Hkept as (w & Hw & _ & ->). simpl in Hw. by injection Hw as <-.
Defined.

(** The interval of a running test, at its own time-up tick. *)
Lemma own_timer_stops_witness :
  let a := run plain_text initial_app quiz_started in
  timerInterval (state a) = Some 0%nat
  /\ enabled (Interval 0 1802000) (tick plain_text 1801000 1801000 a) = false.
Proof.
  cbv zeta. split; [vm_compute; reflexivity|].
  apply (own_timer_stops plain_text 0 1801000 1801000 1802000).
  - vm_compute. reflexivity.
  - lia.
Defined.

(** The history of a user after one submitted test. *)
Lemma stored_history_is_array_witness :
  let a := run plain_text initial_app (one_of_five ++ [ Submit 61000 ]) in
  exists l,
    JS.JSON_parse (default (JS.Text JS.VNull) (localStorage a !! "cf_quiz_ann@example.org"))
    = JS.VArr l.
Proof.
  cbv zeta.
  apply (stored_history_is_array plain_text (one_of_five ++ [ Submit 61000 ])
           "cf_quiz_ann@example.org").
  vm_compute. reflexivity.
Defined.

(** One minute, one second and a half left on the clock. *)
Lemma timeText_parts_witness :
  timeText 61500 = "01:01" /\ 0 <= (61500 mod 60000) / 1000 < 60.
Proof.
  destruct (timeText_parts 61500 ltac:(lia)) as (Ht & _ & Hs & _).
  split; [reflexivity|exact Hs].
Defined.

(** The first local question as [fetchQuestions] builds it. *)
Lemma fetchQuestions_questions_witness :
  exists q,
    questions (fetchQuestions FetchThrows sample_random initial_state) !! 0%nat = Some q
    /\ id q = 0%nat
    /\ choices q ≡ₚ correct q :: incorrect q
    /\ visited q = false
    /\ answerIndex q = None.
Proof.
  assert (H : questions (fetchQuestions FetchThrows sample_random initial_state) !! 0%nat
              = Some (mkQuestion 0 "What is the capital of France?" "Paris"
                        [ "Lyon"; "Marseille"; "Nice" ]
                        [ "Lyon"; "Paris"; "Nice"; "Marseille" ] false None))
    by (vm_compute; reflexivity).
  eexists. split; [exact H|].
  destruct (fetchQuestions_questions FetchThrows sample_random initial_state _ _ H)
    as (H1 & H2 & H3 & H4 & _).
  repeat split; assumption.
Defined.

(** The first question of a running test, after 50/50. *)
Lemma correct_choice_stays_witness :
  let a := run plain_text initial_app fifty_trace in
  exists q, questions (state a) !! 0%nat = Some q
    /\ choices q = [ "Paris"; "Marseille" ]
    /\ (forall c, c ∈ choices q -> c ∈ correct q :: incorrect q)
    /\ (exists c, c ∈ choices q /\ plain_text c = plain_text (correct q)).
Proof.
  cbv zeta.
  assert (H : exists q, questions (state (run plain_text initial_app fifty_trace)) !! 0%nat = Some q
                        /\ choices q = [ "Paris"; "Marseille" ]).
  { eexists. split; vm_compute; reflexivity. }
  destruct H as (q & Hq & Hc). exists q. split; [exact Hq|]. split; [exact Hc|].
  apply (correct_choice_stays plain_text fifty_trace q).
  by apply (list_elem_of_lookup_2 _ 0%nat).
Defined.

(** The history of a user after one test, cleared under another spelling
    of the address; the key of the empty address is not touched. *)
Lemma clearAttemptsForEmail_removes_witness :
  let a := run plain_text initial_app (one_of_five ++ [ Submit 61000 ]) in
  let a' := clearAttemptsForEmail " Ann@Example.ORG" a in
  is_Some (localStorage a !! "cf_quiz_ann@example.org")
  /\ localStorage a' !! "cf_quiz_ann@example.org" = None
  /\ localStorage a' !! "cf_quiz_bob@example.org" = localStorage a !! "cf_quiz_bob@example.org".
Proof.
  cbv zeta.
  destruct (clearAttemptsForEmail_removes " Ann@Example.ORG"
              (run plain_text initial_app (one_of_five ++ [ Submit 61000 ])))
    as (Hrem & Hkeep & _); [vm_compute; reflexivity|].
  split; [vm_compute; eauto|]. split.
  - apply Hrem; [vm_compute; reflexivity|].
    exists "ann@example.org". split; vm_compute; reflexivity.
  - apply Hkeep; [vm_compute; reflexivity|].
    intros (suffix & Hk & Hn).
    apply (append_inj_l "cf_quiz_" "bob@example.org" suffix) in Hk. subst suffix.
    vm_compute in Hn. discriminate Hn.
Defined.

(** A user with one stored attempt logs in again, in capitals. *)
Lemma login_starts_fresh_witness :
  let a := run plain_text initial_app (one_of_five ++ [ Submit 61000 ]) in
  length (stored_attempts a) = 1%nat
  /\ stored_attempts (handle plain_text (Login " Ann@Example.org ") a) = [].
Proof.
  cbv zeta. split; [vm_compute; reflexivity|].
  apply (login_starts_fresh plain_text " Ann@Example.org ").
  - vm_compute. reflexivity.
  - apply String.eqb_neq. vm_compute. reflexivity.
Defined.

(** After "Retake" a second test is taken and submitted. *)
Lemma retake_forgets_email_witness :
  let a := run plain_text initial_app (one_of_five ++ [ Submit 61000 ]) in
  let events := [ NewTest FetchThrows sample_random 70000; Submit 80000 ] in
  let a' := run plain_text (handle plain_text Retake a) events in
  forallb (fun e => negb (logs_out e)) events = true
  /\ email (state a') = ""
  /\ localStorage a' !! "cf_quiz_ann@example.org" = localStorage a !! "cf_quiz_ann@example.org".
Proof.
  cbv zeta. split; [vm_compute; reflexivity|].
  destruct (retake_forgets_email plain_text
              (run plain_text initial_app (one_of_five ++ [ Submit 61000 ]))
              [ NewTest FetchThrows sample_random 70000; Submit 80000 ])
    as (H1 & _ & H3); [vm_compute; reflexivity|].
  split; [exact H1|]. apply H3. apply String.eqb_neq. vm_compute. reflexivity.
Defined.

(** The history of a user after one submitted test. *)
Lemma stored_reports_render_witness :
  let a := run plain_text initial_app (one_of_five ++ [ Submit 61000 ]) in
  exists l,
    JS.JSON_parse (default (JS.Text JS.VNull) (localStorage a !! "cf_quiz_ann@example.org"))
    = JS.VArr l
    /\ forall att b, att ∈ l ->
         exists r c items,
           renderReportFromAttempt plain_text att b
           = Some (r, showScreen report_screen (set_performance (performance_summary c) b))
           /\ JS.get "correct" att = JS.VNum c
           /\ JS.get "items" att = JS.VArr items
           /\ length (report_list r) = length items
           /\ Z.of_nat (length (List.filter item_correct (report_list r))) = c
           /\ report_performance r = performance_summary c.
Proof.
  cbv zeta.
  apply (stored_reports_render plain_text (one_of_five ++ [ Submit 61000 ])
           "cf_quiz_ann@example.org").
  vm_compute. reflexivity.
Defined.

(** One answer out of five, in plain text. *)
Lemma stored_report_equals_live_witness :
  let a := run plain_text initial_app one_of_five in
  let s := stopTimingCurrent 61000 (state a) in
  fst <$> renderReportFromAttempt plain_text
            (JS.json (build_attempt plain_text "Manual submit" 61000 s)) a
  = Some (submitQuiz_report plain_text "Manual submit" s).
Proof.
  cbv zeta.
  apply (stored_report_equals_live plain_text "Manual submit" 61000).
  - vm_compute. reflexivity.
  - vm_compute. lia.
  - apply Forall_forall. intros q Hq.
    assert (Hqs : questions (stopTimingCurrent 61000 (state (run plain_text initial_app one_of_five)))
                  = questions (state (run plain_text initial_app one_of_five)))
      by apply questions_stopTimingCurrent.
    rewrite Hqs in Hq. vm_compute in Hq.
    apply list_elem_of_In in Hq. simpl in Hq.
    repeat (destruct Hq as [<-|Hq]; [vm_compute; repeat split; discriminate|]).
    destruct Hq.
Defined.

(** One and seven correct answers out of eight. *)
Lemma scorePct_range_witness :
  exists p p',
    scorePct 1 8 = JS.VNum p /\ scorePct 7 8 = JS.VNum p'
    /\ 0 <= p <= p' /\ p' <= 100
    /\ (p = 0 <-> 1 = 0)
    /\ (p' = 100 <-> 7 = 8).
Proof. apply (scorePct_range 1 7 8); lia. Defined.

(** Moving on to the second question keeps the answer to the first. *)
Lemma answers_survive_witness :
  let a := run plain_text initial_app one_of_five in
  answer_sheet (state (step plain_text a (Next 2000))) = answer_sheet (state a).
Proof. cbv zeta. apply (answers_survive plain_text). reflexivity. Defined.

(** The smart guess at work: "river delta north" and "north delta river"
    both score 6, "blue green river" scores 4.2 and "lake" 2; the first of
    the two best is named. *)
Lemma smart_guess_picks_best_witness :
  smart_guess plain_text delta_question
  = ("My smart guess would be: " +:+ JS.dquote +:+ "river delta north" +:+ JS.dquote
     +:+ ". Use your judgment!")%string
  /\ exists (score : string -> JS.double) b c,
       choices delta_question !! b = Some c
       /\ smart_guess plain_text delta_question
          = ("My smart guess would be: " +:+ JS.dquote +:+ c +:+ JS.dquote
             +:+ ". Use your judgment!")%string
       /\ (forall j c', choices delta_question !! j = Some c' ->
             JS.fgt (score c') (score c) = false).
Proof.
  split; [vm_compute; reflexivity|].
  destruct (smart_guess_picks_best plain_text delta_question)
    as (pieces & score & _ & _ & _ & H).
  - vm_compute. reflexivity.
  - repeat constructor.
  - destruct H as (b & c & Hb & Hmsg & Hmax & _); [discriminate|].
    exists score, b, c. split; [exact Hb|]. split; [exact Hmsg|exact Hmax].
Defined.
